(** * FruitsRecognitionApp: upload validation, confidence normalisation,
      prediction extraction, local softmax scoring and the predict handler.

    A shallow embedding of [utils/deepstack_client.py], [utils/local_onnx.py]
    and the [predict] handler of [app.py].  Python floats are IEEE-754
    binary64 values and numpy [float32] values are binary32 values, both taken
    from the Standard Library's executable specification [SpecFloat].
    Exceptions are explicit results; the handler's logging is an explicit
    log that is threaded through the calls.  How far a rounded result is
    from the number rounded is stated over the rationals. *)

From Stdlib Require Import QArith Qabs Qpower Lqa.
From Stdlib Require Import Bool List ZArith Lia Ascii String.
From Stdlib Require Import Permutation Sorted.
From Stdlib Require Import Floats.SpecFloat.
Import ListNotations.

Local Open Scope string_scope.
Local Open Scope Z_scope.
Local Set Warnings "-register-all".

(** ** Python values, exceptions and results *)

(** IEEE-754 binary64: Python's [float]. *)
Definition float64 := spec_float.
(** IEEE-754 binary32: numpy's [float32]. *)
Definition float32 := spec_float.

(** The values a decoded JSON document (or a small Python literal) is made
    of.  A [dict] is kept as the list of its items in insertion order. *)
Inductive pyval : Type :=
| PNone
| PBool (b : bool)
| PInt (z : Z)
| PFloat (f : float64)
| PStr (s : string)
| PList (l : list pyval)
| PDict (d : list (string * pyval)).

(** The exceptions the modelled code raises or lets through.  [details] of a
    [DeepstackClientError] is a Python dict.  [OtherException] is an
    exception of a class the code names nowhere, such as [RecursionError],
    with its [str()]. *)
Inductive exn : Type :=
| DeepstackClientError (message : string) (status_code : Z)
                       (details : list (string * pyval))
| LocalModelError (message : string)
| TypeError (message : string)
| ValueError (message : string)
| OverflowError (message : string)
| AttributeError (message : string)
| OtherException (message : string).

Inductive result (A : Type) : Type :=
| Ok (a : A)
| Raise (e : exn).
Arguments Ok {A} a.
Arguments Raise {A} e.

Definition bind {A B : Type} (r : result A) (k : A -> result B) : result B :=
  match r with
  | Ok a => k a
  | Raise e => Raise e
  end.

Notation "x <- r ;; k" := (bind r (fun x => k))
  (at level 61, r at next level, right associativity).

(** [for x in l: acc = step acc x], stopping at the first exception. *)
Fixpoint for_each {A S : Type} (step : S -> A -> result S) (l : list A) (acc : S)
  : result S :=
  match l with
  | [] => Ok acc
  | x :: l' => acc' <- step acc x ;; for_each step l' acc'
  end.

(** ** Dictionaries *)

Fixpoint dict_get (d : list (string * pyval)) (k : string) : option pyval :=
  match d with
  | [] => None
  | (k', v) :: d' => if String.eqb k' k then Some v else dict_get d' k
  end.

(** [k in d] *)
Definition dict_has (d : list (string * pyval)) (k : string) : bool :=
  match dict_get d k with Some _ => true | None => false end.

(** [d.get(k)] *)
Definition get_or_none (d : list (string * pyval)) (k : string) : pyval :=
  match dict_get d k with Some v => v | None => PNone end.

(** [d.get(k, default)] *)
Definition get_or (d : list (string * pyval)) (k : string) (default : pyval) : pyval :=
  match dict_get d k with Some v => v | None => default end.

(** ** Strings *)

Definition is_upper (c : ascii) : bool :=
  let n := nat_of_ascii c in (Nat.leb 65 n && Nat.leb n 90)%bool.

Definition lower_char (c : ascii) : ascii :=
  if is_upper c then ascii_of_nat (nat_of_ascii c + 32) else c.

(** [s.lower()] on the ASCII letters. *)
Fixpoint lower (s : string) : string :=
  match s with
  | EmptyString => EmptyString
  | String c s' => String (lower_char c) (lower s')
  end.

(** ["." in s] *)
Fixpoint has_dot (s : string) : bool :=
  match s with
  | EmptyString => false
  | String c s' => if Ascii.eqb c "."%char then true else has_dot s'
  end.

(** [s.rsplit(".", 1)[1]] for a string that holds a dot: what follows the
    last dot. *)
Fixpoint after_last_dot (s : string) : string :=
  match s with
  | EmptyString => EmptyString
  | String c s' =>
      if Ascii.eqb c "."%char
      then (if has_dot s' then after_last_dot s' else s')
      else after_last_dot s'
  end.

(** [s.startswith(p)] *)
Definition startswith (s p : string) : bool := String.prefix p s.

Definition is_empty (s : string) : bool :=
  match s with EmptyString => true | _ => false end.

Fixpoint insert_string (x : string) (l : list string) : list string :=
  match l with
  | [] => [x]
  | y :: l' => if String.ltb y x then y :: insert_string x l' else x :: l
  end.

(** [sorted(xs)] on strings. *)
Definition sorted_strings (l : list string) : list string :=
  fold_right insert_string [] l.

(** [sep.join(xs)] *)
Definition join (sep : string) (l : list string) : string := String.concat sep l.

Fixpoint mem_string (x : string) (l : list string) : bool :=
  match l with
  | [] => false
  | y :: l' => (String.eqb y x || mem_string x l')%bool
  end.

(** ** Upload validator ([validate_image_upload]) *)

Definition ALLOWED_EXTENSIONS : list string :=
  ["jpg"; "jpeg"; "png"; "bmp"; "gif"; "webp"].
Definition ALLOWED_MIME_PREFIX : string := "image/".

(** werkzeug's [FileStorage], as far as the code reads it. *)
Record UploadedFile : Type := {
  filename : option string;
  mimetype : option string;
  stream : string
}.

(** [x or the empty string] *)
Definition or_empty (x : option string) : string :=
  match x with Some s => s | None => EmptyString end.

Section UploadValidator.
(** [werkzeug.utils.secure_filename], a library function. *)
Variable secure_filename : string -> string.

Definition validate_image_upload (uploaded_file : option UploadedFile)
  : option UploadedFile * option string :=
  match uploaded_file with
  | None => (None, Some "No file was uploaded.")
  | Some f =>
      let name := secure_filename (or_empty (filename f)) in
      if is_empty name then (None, Some "Please choose an image file first.")
      else if negb (has_dot name) then (None, Some "Uploaded file has no extension.")
      else
        let extension := lower (after_last_dot name) in
        if negb (mem_string extension ALLOWED_EXTENSIONS) then
          let allowed_text := join ", " (sorted_strings ALLOWED_EXTENSIONS) in
          (None, Some ("Unsupported file type '" ++ extension ++ "'. Allowed: "
                         ++ allowed_text ++ "."))
        else
          let mt := or_empty (mimetype f) in
          if (negb (is_empty mt) && negb (startswith mt ALLOWED_MIME_PREFIX))%bool then
            (None, Some ("Invalid file MIME type '" ++ mt
                           ++ "'. Only images are supported."))
          else (Some f, None)
  end.
End UploadValidator.

(** ** More string helpers ([call_custom_model])

    A [string] holds the characters of a Python [str] by code point, one
    [ascii] per character: the texts covered are those whose characters are
    below U+0100. *)

(** [c.isspace()], the characters [str.strip()] removes: below U+0100 these
    are the codes 9 to 13, 28 to 32, 133 (U+0085) and 160 (U+00A0). *)
Definition is_space (c : ascii) : bool :=
  let n := nat_of_ascii c in
  ((Nat.leb 9 n && Nat.leb n 13) || (Nat.leb 28 n && Nat.leb n 32)
   || Nat.eqb n 133 || Nat.eqb n 160)%bool.

Fixpoint lstrip (s : string) : string :=
  match s with
  | String c s' => if is_space c then lstrip s' else s
  | EmptyString => EmptyString
  end.

(** Drops the trailing characters that satisfy [p]. *)
Fixpoint rstrip_by (p : ascii -> bool) (s : string) : string :=
  match s with
  | EmptyString => EmptyString
  | String c s' =>
      match rstrip_by p s' with
      | EmptyString => if p c then EmptyString else String c EmptyString
      | t => String c t
      end
  end.

(** [s.strip()] *)
Definition strip (s : string) : string := rstrip_by is_space (lstrip s).

(** [s.rstrip("/")] *)
Definition rstrip_slash (s : string) : string :=
  rstrip_by (fun c => Ascii.eqb c "/"%char) s.

(** [s.replace("\n", " ")] *)
Fixpoint newlines_to_spaces (s : string) : string :=
  match s with
  | EmptyString => EmptyString
  | String c s' =>
      String (if Ascii.eqb c (ascii_of_nat 10) then " "%char else c)
             (newlines_to_spaces s')
  end.

Definition digit_char (n : nat) : ascii := ascii_of_nat (48 + n).

Fixpoint nat_digits (fuel n : nat) (acc : string) : string :=
  match fuel with
  | O => acc
  | S fuel' =>
      let acc' := String (digit_char (Nat.modulo n 10)) acc in
      if Nat.ltb n 10 then acc' else nat_digits fuel' (Nat.div n 10) acc'
  end.

(** [str(n)] for a natural number. *)
Definition str_of_nat (n : nat) : string := nat_digits (S n) n EmptyString.

(** [str(z)] for an integer. *)
Definition str_of_Z (z : Z) : string :=
  match z with
  | Zneg p => "-" ++ str_of_nat (Pos.to_nat p)
  | _ => str_of_nat (Z.to_nat z)
  end.

(** ** Floats *)

Module F64.
Definition prec : Z := 53.
Definition emax : Z := 1024.
Definition of_Z (z : Z) : float64 := binary_normalize prec emax z 0 false.
Definition mul : float64 -> float64 -> float64 := SFmul prec emax.
Definition div : float64 -> float64 -> float64 := SFdiv prec emax.
Definition valid : float64 -> bool := valid_binary prec emax.
(** [a < b], [a <= b], [a == b], [a > b], [a >= b] *)
Definition lt (a b : float64) : bool := SFltb a b.
Definition le (a b : float64) : bool := SFleb a b.
Definition eq (a b : float64) : bool := SFeqb a b.
Definition gt (a b : float64) : bool := SFltb b a.
Definition ge (a b : float64) : bool := SFleb b a.
Definition is_nan (a : float64) : bool :=
  match a with S754_nan => true | _ => false end.
Definition zero : float64 := S754_zero false.
Definition one : float64 := Eval vm_compute in of_Z 1.
Definition ten : float64 := Eval vm_compute in of_Z 10.
Definition fifty : float64 := Eval vm_compute in of_Z 50.
Definition eighty : float64 := Eval vm_compute in of_Z 80.
Definition hundred : float64 := Eval vm_compute in of_Z 100.
(** The literal [1e-6]: the binary64 value nearest to 10^-6. *)
Definition micro : float64 := Eval vm_compute in div (of_Z 1) (of_Z 1000000).
Definition default_mean : float64 := Eval vm_compute in div (of_Z 1) (of_Z 2).
Definition default_std : float64 := Eval vm_compute in of_Z 255.
End F64.

(** Two-argument [max(a, b)] and [min(a, b)]: the first argument is kept
    unless the second compares strictly beyond it. *)
Definition py_max (a b : float64) : float64 := if F64.gt b a then b else a.
Definition py_min (a b : float64) : float64 := if F64.lt b a then b else a.

(** The nearest integer to [n / d], ties to even ([0 <= n], [0 < d]). *)
Definition div_half_even (n d : Z) : Z :=
  let q := n / d in
  match Z.compare (2 * (n mod d)) d with
  | Lt => q
  | Gt => q + 1
  | Eq => if Z.even q then q else q + 1
  end.

(** [round(x, ndigits)] for a float and [0 <= ndigits]: the decimal with
    [ndigits] places nearest to [x] (ties to even), then the float nearest to
    that decimal.  NaN and the infinities round to themselves. *)
Definition py_round (x : float64) (ndigits : Z) : float64 :=
  match x with
  | S754_finite s m e =>
      let p := 10 ^ ndigits in
      let n := if 0 <=? e then Zpos m * 2 ^ e * p
               else div_half_even (Zpos m * p) (2 ^ (- e)) in
      match n with
      | Zpos n' => F64.div (S754_finite s n' 0) (S754_finite false (Z.to_pos p) 0)
      | _ => S754_zero s
      end
  | _ => x
  end.

(** [float(z)] for an int: the nearest float, [OverflowError] beyond the
    finite range. *)
Definition float_of_int (z : Z) : result float64 :=
  match F64.of_Z z with
  | S754_infinity _ => Raise (OverflowError "int too large to convert to float")
  | f => Ok f
  end.

(** [try: body except (TypeError, ValueError): fallback] *)
Definition except_type_or_value {A : Type} (body : result A) (fallback : A)
  : result A :=
  match body with
  | Raise (TypeError _) | Raise (ValueError _) => Ok fallback
  | r => r
  end.

Section Coercion.
(** [float(s)] for a string, a built-in: [None] stands for [ValueError]. *)
Variable float_of_string : string -> option float64.

(** [float(v)] *)
Definition py_float (v : pyval) : result float64 :=
  match v with
  | PNone => Raise (TypeError "float() argument must be a string or a real number")
  | PBool b => Ok (if b then F64.one else F64.zero)
  | PInt z => float_of_int z
  | PFloat f => Ok f
  | PStr s =>
      match float_of_string s with
      | Some f => Ok f
      | None => Raise (ValueError "could not convert string to float")
      end
  | PList _ | PDict _ =>
      Raise (TypeError "float() argument must be a string or a real number")
  end.

(** ** Confidence normaliser ([_normalize_confidence]) *)

Definition _normalize_confidence (value : pyval) : result (float64 * float64) :=
  confidence_float <- except_type_or_value (py_float value) F64.zero ;;
  let confidence_float := py_max F64.zero confidence_float in
  if F64.gt confidence_float F64.one then
    let confidence_percent := py_min confidence_float F64.hundred in
    let confidence_score := F64.div confidence_percent F64.hundred in
    Ok (confidence_score, confidence_percent)
  else
    let confidence_score := confidence_float in
    let confidence_percent := F64.mul confidence_float F64.hundred in
    Ok (confidence_score, confidence_percent).

(** [_safe_float(value, default)] of [local_onnx.py] *)
Definition _safe_float (value : pyval) (default : float64) : result float64 :=
  except_type_or_value (py_float value) default.
End Coercion.

(** ** Confidence tier ([_confidence_profile]) *)

Record ConfidenceProfile : Type := {
  level : string;
  explanation : string;
  bar_class : string
}.

Definition _confidence_profile (confidence_percent : float64) : ConfidenceProfile :=
  if F64.ge confidence_percent F64.eighty then
    {| level := "high";
       explanation := "Very strong match. The model is highly confident in this fruit label.";
       bar_class := "success" |}
  else if F64.ge confidence_percent F64.fifty then
    {| level := "medium";
       explanation := "Moderate confidence. The prediction is plausible but not definitive.";
       bar_class := "warning" |}
  else
    {| level := "low";
       explanation := "Low confidence. The image may be unclear or outside model training patterns.";
       bar_class := "danger" |}.

(** ** [sorted(xs, key=..., reverse=True)]

    As [list.sort] does it: the list is reversed, sorted ascending by a
    stable sort that only asks [<] of the keys, and reversed again. *)
Section PySorted.
Context {A : Type}.
Variable key : A -> float64.

Fixpoint insert_asc (x : A) (l : list A) : list A :=
  match l with
  | [] => [x]
  | y :: l' => if F64.lt (key y) (key x) then y :: insert_asc x l' else x :: l
  end.

Definition sort_asc (l : list A) : list A := fold_right insert_asc [] l.

Definition sorted_reverse (l : list A) : list A := rev (sort_asc (rev l)).
End PySorted.

(** ** Remote classifier client ([deepstack_client.py]) *)

(** An entry of a ranked prediction list. *)
Record Prediction : Type := {
  label : string;
  confidence : float64;
  confidence_percent : float64
}.

(** Truth value of a Python value, as [if v:] tests it. *)
Definition truthy (v : pyval) : bool :=
  match v with
  | PNone => false
  | PBool b => b
  | PInt z => negb (z =? 0)
  | PFloat f => negb (F64.eq f F64.zero)
  | PStr s => negb (is_empty s)
  | PList l => match l with [] => false | _ => true end
  | PDict d => match d with [] => false | _ => true end
  end.

(** [str(e)] for an exception. *)
Definition exn_str (e : exn) : string :=
  match e with
  | DeepstackClientError m _ _ => m
  | LocalModelError m | TypeError m | ValueError m | OverflowError m
  | AttributeError m | OtherException m => m
  end.

(** What [response.json()] does. *)
Inductive json_outcome : Type :=
| JsonValue (payload : pyval)
(** a [ValueError], which [JSONDecodeError] is *)
| JsonValueError
(** an exception of any other class, with its [str()]: [RecursionError] on
    a deeply nested document, for one *)
| JsonFailure (message : string).

(** What [requests.post] brings back. *)
Record HttpResponse : Type := {
  resp_status_code : Z;
  resp_text : string;
  resp_json : json_outcome
}.

(** What [requests.post] does. *)
Inductive post_outcome : Type :=
| Responded (r : HttpResponse)
| RequestException (message : string)
(** an exception that is no [RequestException], with its [str()] *)
| PostFailure (message : string).

(** The dict [call_custom_model] returns. *)
Record DeepstackResult : Type := {
  ds_endpoint : string;
  ds_status_code : Z;
  ds_payload : pyval;
  ds_response_preview : string
}.

Record Runtime : Type := {
  rt_deepstack_base_url : string;
  rt_model_name : string
}.

(** The dict [build_prediction_response] returns. *)
Record PredictionResponse : Type := {
  pr_model_name : string;
  pr_endpoint : string;
  pr_fruit : string;
  pr_confidence : float64;
  pr_confidence_percent : float64;
  pr_confidence_level : string;
  pr_confidence_bar_class : string;
  pr_confidence_explanation : string;
  pr_predictions : list Prediction;
  pr_timestamp_utc : string;
  pr_runtime : Runtime
}.

Section DeepstackClient.
Variable secure_filename : string -> string.
Variable float_of_string : string -> option float64.
(** [str(v)] for a value that is not a string, a built-in. *)
Variable py_repr : pyval -> string.
(** [requests.post(endpoint, files={"image": (filename, stream, mimetype)},
    timeout=...)] *)
Variable http_post : string -> string -> string -> string -> Z -> post_outcome.
(** [datetime.now(timezone.utc).isoformat()] and
    [os.getenv("DEEPSTACK_BASE_URL")] at the time of the call. *)
Variable now_utc_iso : string.
Variable env_deepstack_base_url : option string.

(** [str(v)] *)
Definition py_str (v : pyval) : string :=
  match v with
  | PStr s => s
  | _ => py_repr v
  end.

(** One entry from a dict that holds a label/confidence pair. *)
Definition prediction_of (d : list (string * pyval)) : result Prediction :=
  sp <- _normalize_confidence float_of_string (get_or_none d "confidence") ;;
  let '(score, percent) := sp in
  Ok {| label := py_str (get_or d "label" (PStr "Unknown"));
        confidence := py_round score 4;
        confidence_percent := py_round percent 2 |}.

Definition _extract_predictions (payload : pyval) : result (list Prediction) :=
  let predictions : list Prediction := [] in
  match payload with
  | PDict d =>
      if truthy (get_or_none d "error") then
        Raise (DeepstackClientError
                 ("DeepStack reported an error: " ++ py_str (get_or_none d "error"))
                 502 [("response", payload)])
      else
        predictions <-
          (if dict_has d "label" then
             p <- prediction_of d ;; Ok (predictions ++ [p])%list
           else Ok predictions) ;;
        predictions <-
          (match get_or_none d "predictions" with
           | PList items =>
               for_each
                 (fun acc item =>
                    match item with
                    | PDict i => p <- prediction_of i ;; Ok (acc ++ [p])%list
                    | _ => Ok acc
                    end)
                 items predictions
           | _ => Ok predictions
           end) ;;
        match predictions with
        | [] =>
            Raise (DeepstackClientError
                     "DeepStack returned no predictions for this image."
                     502 [("response", payload)])
        | _ => Ok (sorted_reverse confidence_percent predictions)
        end
  | _ => Raise (DeepstackClientError "DeepStack response format is invalid." 502 [])
  end.

Definition call_custom_model (uploaded_file : UploadedFile)
           (base_url : string) (model_name : string) (timeout_seconds : Z)
  : result DeepstackResult :=
  let clean_base_url := rstrip_slash base_url in
  let endpoint := clean_base_url ++ "/v1/vision/custom/" ++ model_name in
  let name :=
    let n := secure_filename (or_empty (filename uploaded_file)) in
    if is_empty n then "uploaded-image" else n in
  let mt :=
    let m := or_empty (mimetype uploaded_file) in
    if is_empty m then "application/octet-stream" else m in
  match http_post endpoint name (stream uploaded_file) mt timeout_seconds with
  | RequestException msg =>
      Raise (DeepstackClientError "Could not reach DeepStack service." 503
               [("endpoint", PStr endpoint); ("exception", PStr msg)])
  | PostFailure msg =>
      (* not caught by [except RequestException] *)
      Raise (OtherException msg)
  | Responded response =>
      let raw_preview :=
        strip (newlines_to_spaces (substring 0 500 (resp_text response))) in
      if resp_status_code response =? 404 then
        Raise (DeepstackClientError "DeepStack custom endpoint was not found." 404
                 [("endpoint", PStr endpoint);
                  ("response_preview", PStr raw_preview);
                  ("hint", PStr ("Current DeepStack build may not expose /v1/vision/custom/<model> "
                                   ++ "for ONNX custom models."))])
      else if negb (resp_status_code response =? 200) then
        Raise (DeepstackClientError
                 ("DeepStack returned HTTP " ++ str_of_Z (resp_status_code response) ++ ".")
                 (resp_status_code response)
                 [("endpoint", PStr endpoint); ("response_preview", PStr raw_preview)])
      else
        match resp_json response with
        | JsonValueError =>
            Raise (DeepstackClientError "DeepStack returned a non-JSON response." 502
                     [("endpoint", PStr endpoint); ("response_preview", PStr raw_preview)])
        | JsonFailure msg =>
            (* not caught by [except ValueError] *)
            Raise (OtherException msg)
        | JsonValue payload =>
            Ok {| ds_endpoint := endpoint;
                  ds_status_code := resp_status_code response;
                  ds_payload := payload;
                  ds_response_preview := raw_preview |}
        end
  end.

Definition build_prediction_response (deepstack_payload : pyval)
           (endpoint : string) (model_name : string) : result PredictionResponse :=
  predictions <- _extract_predictions deepstack_payload ;;
  match predictions with
  | [] => Raise (OtherException "list index out of range")
  | top_prediction :: _ =>
      let profile := _confidence_profile (confidence_percent top_prediction) in
      Ok {| pr_model_name := model_name;
            pr_endpoint := endpoint;
            pr_fruit := label top_prediction;
            pr_confidence := confidence top_prediction;
            pr_confidence_percent := confidence_percent top_prediction;
            pr_confidence_level := level profile;
            pr_confidence_bar_class := bar_class profile;
            pr_confidence_explanation := explanation profile;
            pr_predictions := firstn 5 predictions;
            pr_timestamp_utc := now_utc_iso;
            pr_runtime :=
              {| rt_deepstack_base_url :=
                   match env_deepstack_base_url with
                   | Some u => u
                   | None => "http://localhost:5050"
                   end;
                 rt_model_name := model_name |} |}
  end.
End DeepstackClient.

(** ** Local classifier engine ([local_onnx.py]) *)

Module F32.
Definition prec : Z := 24.
Definition emax : Z := 128.
Definition of_Z (z : Z) : float32 := binary_normalize prec emax z 0 false.
Definition add : float32 -> float32 -> float32 := SFadd prec emax.
Definition sub : float32 -> float32 -> float32 := SFsub prec emax.
Definition div : float32 -> float32 -> float32 := SFdiv prec emax.
Definition le (a b : float32) : bool := SFleb a b.
Definition ge (a b : float32) : bool := SFleb b a.
Definition is_nan (a : float32) : bool :=
  match a with S754_nan => true | _ => false end.
Definition is_zero (a : float32) : bool :=
  match a with S754_zero _ => true | _ => false end.
Definition zero : float32 := S754_zero false.
Definition one : float32 := Eval vm_compute in of_Z 1.
(** A Python float operand of an array operation takes the array's type. *)
Definition of_f64 (x : float64) : float32 :=
  match x with
  | S754_finite s m e => binary_round prec emax s m e
  | _ => x
  end.
(** [float(x)] for a [float32] scalar: the same number as a binary64. *)
Definition to_f64 (x : float32) : float64 :=
  match x with
  | S754_finite s m e => binary_round F64.prec F64.emax s m e
  | _ => x
  end.
End F32.

(** An image as numpy holds it: rows of pixels, each pixel its channels. *)
Definition image := list (list (list float32)).

Definition map_pixels (f : float32 -> float32) (a : image) : image :=
  map (map (map f)) a.

(** The normalisation step of [predict_with_local_onnx]. *)
Definition normalize_image (mean std : float64) (image_array : image) : image :=
  if (F64.ge std F64.ten && (F64.lt F64.zero mean && F64.lt mean F64.one))%bool then
    map_pixels
      (fun x => F32.div (F32.sub (F32.div x (F32.of_f64 std)) (F32.of_f64 mean))
                        (F32.of_f64 (py_max mean F64.micro)))
      image_array
  else
    map_pixels (fun x => F32.div (F32.sub x (F32.of_f64 mean)) (F32.of_f64 std))
               image_array.

(** [a.transpose(2, 0, 1)] of a three-channel image: channels first. *)
Definition channels_first (a : image) : image :=
  map (fun c => map (map (fun px => nth c px F32.zero)) a) [0; 1; 2]%nat.

(** [np.maximum] as the reduction applies it. *)
Definition np_maximum (a b : float32) : float32 :=
  if (F32.ge a b || F32.is_nan a)%bool then a else b.

(** [np.max xs]: no identity, so an empty array is a [ValueError]. *)
Definition np_max (xs : list float32) : result float32 :=
  match xs with
  | [] => Raise (ValueError
                   "zero-size array to reduction operation maximum which has no identity")
  | x :: xs' => Ok (fold_left np_maximum xs' x)
  end.

(** An [onnxruntime] inference session, as far as the code uses it: the names
    of its inputs, and [run] on one named input tensor giving the flattened
    first output as [float32]. *)
Record Session : Type := {
  input_names : list string;
  run : string -> list image -> result (list float32)
}.

(** An entry of the list [predict_with_local_onnx] returns. *)
Record LocalPrediction : Type := {
  lp_label : string;
  lp_confidence : float64
}.

(** What the file system and the libraries answer during one call. *)
Record LocalWorld : Type := {
  config_exists : bool;
  (** [json.load] of the configuration file *)
  config_document : result pyval;
  (** the entry [lru_cache] holds for the model path, if any *)
  cached_session : option Session;
  model_exists : bool;
  (** [ort.InferenceSession(model_path, ...)] *)
  new_session : result Session;
  (** [Image.open(stream).convert("RGB").resize((width, height))] as rows of
      pixels of three channel values *)
  open_image : string -> Z -> Z -> result (list (list (list Z)))
}.

Section LocalOnnx.
Variable float_of_string : string -> option float64.
(** [int(s)] for a string, a built-in: [None] stands for [ValueError]. *)
Variable int_of_string : string -> option Z.
Variable py_repr : pyval -> string.
(** [np.exp] on a finite non-zero [float32], and [np.sum] of a [float32]
    array. *)
Variable exp_finite : float32 -> float32.
Variable np_sum : list float32 -> float32.
Variable world : LocalWorld.

(** [np.exp] on one [float32]: fixed on the special values. *)
Definition np_exp (x : float32) : float32 :=
  match x with
  | S754_nan => S754_nan
  | S754_infinity false => S754_infinity false
  | S754_infinity true => S754_zero false
  | S754_zero _ => F32.one
  | S754_finite _ _ _ => exp_finite x
  end.

(** [int(v)] *)
Definition py_int (v : pyval) : result Z :=
  match v with
  | PNone => Raise (TypeError "int() argument must be a string or a real number")
  | PBool b => Ok (if b then 1 else 0)
  | PInt z => Ok z
  | PFloat f =>
      match f with
      | S754_nan => Raise (ValueError "cannot convert float NaN to integer")
      | S754_infinity _ => Raise (OverflowError "cannot convert float infinity to integer")
      | S754_zero _ => Ok 0
      | S754_finite s m e =>
          let a := if 0 <=? e then Zpos m * 2 ^ e else Zpos m / 2 ^ (- e) in
          Ok (if s then - a else a)
      end
  | PStr s =>
      match int_of_string s with
      | Some z => Ok z
      | None => Raise (ValueError "invalid literal for int() with base 10")
      end
  | PList _ | PDict _ =>
      Raise (TypeError "int() argument must be a string or a real number")
  end.

(** [v.get(k, default)] on whatever the configuration document is. *)
Definition py_get (v : pyval) (k : string) (default : pyval) : result pyval :=
  match v with
  | PDict d => Ok (get_or d k default)
  | _ => Raise (AttributeError "object has no attribute 'get'")
  end.

Definition _load_session (model_path : string) : result Session :=
  match cached_session world with
  | Some s => Ok s
  | None =>
      if negb (model_exists world) then
        Raise (LocalModelError ("Local ONNX model file not found: " ++ model_path))
      else new_session world
  end.

Definition _load_config (config_path : string) : result pyval :=
  if negb (config_exists world) then
    Raise (LocalModelError ("Local model config file not found: " ++ config_path))
  else config_document world.

(** [_softmax] together with the divisors of the divisions it performs. *)
Definition _softmax_run (logits : list float32) : result (list float32 * list float32) :=
  m <- np_max logits ;;
  let shifted := map (fun x => F32.sub x m) logits in
  let exp_values := map np_exp shifted in
  let denominator := np_sum exp_values in
  if F32.le denominator F32.zero then
    Ok (map (fun _ => F32.zero) logits, [])
  else
    Ok (map (fun x => F32.div x denominator) exp_values, [denominator]).

Definition _softmax (logits : list float32) : result (list float32) :=
  r <- _softmax_run logits ;; Ok (fst r).

(** [try: body except Exception as exc: raise LocalModelError(prefix + str(exc))] *)
Definition as_local_error {A : Type} (prefix : string) (body : result A) : result A :=
  match body with
  | Ok a => Ok a
  | Raise e => Raise (LocalModelError (prefix ++ exn_str e))
  end.

(** The loop over [enumerate(probabilities)]. *)
Fixpoint label_predictions (label_map : pyval) (class_index : nat)
         (probabilities : list float32) : result (list LocalPrediction) :=
  match probabilities with
  | [] => Ok []
  | probability :: rest =>
      lbl <- py_get label_map (str_of_nat class_index)
                    (PStr ("class_" ++ str_of_nat class_index)) ;;
      let p := {| lp_label := match lbl with PStr s => s | _ => py_repr lbl end;
                  lp_confidence := F32.to_f64 probability |} in
      ps <- label_predictions label_map (S class_index) rest ;;
      Ok (p :: ps)
  end.

Definition predict_with_local_onnx (uploaded_file : UploadedFile)
           (model_path config_path : string) : result (list LocalPrediction) :=
  config <- _load_config config_path ;;
  session <- _load_session model_path ;;
  w <- py_get config "width" (PInt 224) ;;
  width <- py_int w ;;
  h <- py_get config "height" (PInt 224) ;;
  height <- py_int h ;;
  mn <- py_get config "mean" (PFloat F64.default_mean) ;;
  mean <- _safe_float float_of_string mn F64.default_mean ;;
  sd <- py_get config "std" (PInt 255) ;;
  std <- _safe_float float_of_string sd F64.default_std ;;
  let std := if F64.eq std F64.zero then F64.default_std else std in
  label_map <- py_get config "map" (PDict []) ;;
  pixels <- as_local_error "Could not read image for local ONNX inference: "
              (open_image world (stream uploaded_file) width height) ;;
  let image_array : image := map (map (map F32.of_Z)) pixels in
  let normalized := normalize_image mean std image_array in
  let input_tensor := [channels_first normalized] in
  input_name <- match input_names session with
                | [] => Raise (OtherException "list index out of range")
                | n :: _ => Ok n
                end ;;
  output_values <- as_local_error "Local ONNX inference failed: "
                     (run session input_name input_tensor) ;;
  probabilities <- _softmax output_values ;;
  predictions <- label_predictions label_map 0 probabilities ;;
  Ok (sorted_reverse lp_confidence predictions).
End LocalOnnx.

(** ** The predict handler ([app.py]) *)

Record AppConfig : Type := {
  DEEPSTACK_BASE_URL : string;
  DEEPSTACK_MODEL_NAME : string;
  DEEPSTACK_TIMEOUT_SECONDS : Z;
  ENABLE_LOCAL_ONNX_FALLBACK : bool
}.

Inductive log_entry : Type :=
| LogInfo (message : string)
| LogError (message : string)
(** [logger.exception]: the message and the exception being handled *)
| LogException (message : string) (e : exn).

(** The JSON document of a response: a key the handler leaves out is [None]. *)
Record JsonBody : Type := {
  success : bool;
  fallback : option bool;
  warning : option string;
  data : option PredictionResponse;
  error : option string;
  details : option pyval
}.

(** The handler's computations: they extend the log, and return or raise. *)
Definition handler (A : Type) : Type := list log_entry -> list log_entry * result A.

Definition h_ret {A : Type} (a : A) : handler A := fun lg => (lg, Ok a).

Definition h_bind {A B : Type} (m : handler A) (k : A -> handler B) : handler B :=
  fun lg =>
    match m lg with
    | (lg', Ok a) => k a lg'
    | (lg', Raise e) => (lg', Raise e)
    end.

Definition h_lift {A : Type} (r : result A) : handler A := fun lg => (lg, r).

Definition h_log (entry : log_entry) : handler unit :=
  fun lg => ((lg ++ [entry])%list, Ok tt).

(** [try: body except ...]: [clauses e] is the clause that catches [e], if
    any.  What a clause raises leaves the whole statement. *)
Definition h_try {A : Type} (body : handler A) (clauses : exn -> option (handler A))
  : handler A :=
  fun lg =>
    match body lg with
    | (lg', Raise e) =>
        match clauses e with
        | Some h => h lg'
        | None => (lg', Raise e)
        end
    | r => r
    end.

Notation "x <~ m ;; k" := (h_bind m (fun x => k))
  (at level 61, m at next level, right associativity).
Notation "m ;;; k" := (h_bind m (fun _ => k))
  (at level 61, right associativity).

Definition LOCAL_ENDPOINT : string := "local://onnx/Fruits.onnx".
Definition FALLBACK_WARNING : string :=
  "DeepStack custom endpoint was not found. " ++ "Used local ONNX fallback model.".

Definition local_prediction_dict (p : LocalPrediction) : pyval :=
  PDict [("label", PStr (lp_label p)); ("confidence", PFloat (lp_confidence p))].

Section App.
Variable secure_filename : string -> string.
Variable float_of_string : string -> option float64.
Variable int_of_string : string -> option Z.
Variable py_repr : pyval -> string.
Variable exp_finite : float32 -> float32.
Variable np_sum : list float32 -> float32.
Variable http_post : string -> string -> string -> string -> Z -> post_outcome.
Variable now_utc_iso : string.
Variable env_deepstack_base_url : option string.
Variable world : LocalWorld.
Variable config : AppConfig.

(** [build_prediction_response] in this process. *)
Definition build (payload : pyval) (endpoint model_name : string)
  : result PredictionResponse :=
  build_prediction_response float_of_string py_repr now_utc_iso
    env_deepstack_base_url payload endpoint model_name.

(** The body of the [if exc.status_code == 404 and ...] branch: [Some] is
    the response it returns, [None] is falling through to the error
    response. *)
Definition local_fallback (uploaded_file : UploadedFile)
  : handler (option (JsonBody * Z)) :=
  h_try
    (local_predictions <~
       h_lift (predict_with_local_onnx float_of_string int_of_string py_repr
                 exp_finite np_sum world uploaded_file "Fruits.onnx" "config.json") ;;
     let local_payload :=
       PDict [("predictions", PList (map local_prediction_dict local_predictions))] in
     data' <~ h_lift (build local_payload LOCAL_ENDPOINT (DEEPSTACK_MODEL_NAME config)) ;;
     h_ret (Some ({| success := true;
                     fallback := Some true;
                     warning := Some FALLBACK_WARNING;
                     data := Some data';
                     error := None;
                     details := None |}, 200)))
    (fun local_exc =>
       match local_exc with
       | LocalModelError _ =>
           Some (h_log (LogError ("Local ONNX fallback failed: " ++ exn_str local_exc)) ;;;
                 h_ret None)
       | _ => None
       end).

(** The [except DeepstackClientError as exc] clause. *)
Definition on_deepstack_error (uploaded_file : UploadedFile) (exc : exn)
           (status_code : Z) (exc_details : list (string * pyval))
  : handler (JsonBody * Z) :=
  returned <~
    (if ((status_code =? 404) && ENABLE_LOCAL_ONNX_FALLBACK config)%bool
     then local_fallback uploaded_file
     else h_ret None) ;;
  match returned with
  | Some response => h_ret response
  | None =>
      h_log (LogError ("DeepStack error: " ++ exn_str exc ++ " | details="
                         ++ py_repr (PDict exc_details))) ;;;
      h_ret ({| success := false;
                fallback := None;
                warning := None;
                data := None;
                error := Some (exn_str exc);
                details := Some (PDict exc_details) |}, status_code)
  end.

(** The [except Exception as exc] clause. *)
Definition on_unexpected (exc : exn) : handler (JsonBody * Z) :=
  h_log (LogException "Unexpected prediction error" exc) ;;;
  h_ret ({| success := false;
            fallback := None;
            warning := None;
            data := None;
            error := Some "Unexpected server error while processing the prediction.";
            details := Some (PStr (exn_str exc)) |}, 500).

(** The body of the [try] statement of [predict]. *)
Definition remote_attempt (f : UploadedFile) : handler (JsonBody * Z) :=
  deepstack_result <~
    h_lift (call_custom_model secure_filename http_post f
              (DEEPSTACK_BASE_URL config) (DEEPSTACK_MODEL_NAME config)
              (DEEPSTACK_TIMEOUT_SECONDS config)) ;;
  h_log (LogInfo ("DeepStack response status="
                    ++ str_of_Z (ds_status_code deepstack_result)
                    ++ " endpoint=" ++ ds_endpoint deepstack_result
                    ++ " preview=" ++ ds_response_preview deepstack_result)) ;;;
  data' <~ h_lift (build (ds_payload deepstack_result)
                         (ds_endpoint deepstack_result)
                         (DEEPSTACK_MODEL_NAME config)) ;;
  h_ret ({| success := true;
            fallback := None;
            warning := None;
            data := Some data';
            error := None;
            details := None |}, 200).

(** [predict()], on the file of the request ([request.files.get("file")]).
    [Ok] is the response and its status; [Raise] is an exception that
    leaves the view function. *)
Definition predict (file : option UploadedFile) : handler (JsonBody * Z) :=
  let '(uploaded_file, validation_error) :=
    validate_image_upload secure_filename file in
  if match validation_error with Some e => negb (is_empty e) | None => false end then
    h_ret ({| success := false;
              fallback := None;
              warning := None;
              data := None;
              error := validation_error;
              details := None |}, 400)
  else
    match uploaded_file with
    | None =>
        (* [call_custom_model(None, ...)] fails on its first attribute access *)
        h_try
          (h_lift (Raise (AttributeError "'NoneType' object has no attribute 'filename'")))
          (fun exc => Some (on_unexpected exc))
    | Some f =>
        h_try
          (remote_attempt f)
          (fun exc =>
             match exc with
             | DeepstackClientError _ status_code exc_details =>
                 Some (on_deepstack_error f exc status_code exc_details)
             | _ => Some (on_unexpected exc)
             end)
    end.
End App.

(** ** Application settings ([app.py], read from the environment at import) *)

(** [os.getenv(name, default)] *)
Definition getenv (env : string -> option string) (name default : string) : string :=
  match env name with Some v => v | None => default end.

(** [app.config] after the module is loaded. *)
Record Settings : Type := {
  app_config : AppConfig;
  MAX_UPLOAD_MB : Z;
  MAX_CONTENT_LENGTH : Z;
  PORT : Z
}.

Section Settings.
Variable int_of_string : string -> option Z.

(** The assignments to [app.config], in order; [Raise] is an exception at
    import. *)
Definition configure (env : string -> option string) : result Settings :=
  let base_url := rstrip_slash (getenv env "DEEPSTACK_BASE_URL" "http://localhost:5050") in
  let model_name := getenv env "DEEPSTACK_MODEL_NAME" "FruitsRecognition" in
  timeout_seconds <- py_int int_of_string
                       (PStr (getenv env "DEEPSTACK_TIMEOUT_SECONDS" "45")) ;;
  max_upload_mb <- py_int int_of_string (PStr (getenv env "MAX_UPLOAD_MB" "10")) ;;
  let max_content_length := max_upload_mb * 1024 * 1024 in
  port <- py_int int_of_string (PStr (getenv env "PORT" "81")) ;;
  let enable_local_onnx_fallback :=
    mem_string (lower (getenv env "ENABLE_LOCAL_ONNX_FALLBACK" "true"))
               ["1"; "true"; "yes"; "on"] in
  Ok {| app_config :=
          {| DEEPSTACK_BASE_URL := base_url;
             DEEPSTACK_MODEL_NAME := model_name;
             DEEPSTACK_TIMEOUT_SECONDS := timeout_seconds;
             ENABLE_LOCAL_ONNX_FALLBACK := enable_local_onnx_fallback |};
        MAX_UPLOAD_MB := max_upload_mb;
        MAX_CONTENT_LENGTH := max_content_length;
        PORT := port |}.
End Settings.

(** What [index] hands to the page template. *)
Record IndexContext : Type := {
  ix_deepstack_base_url : string;
  ix_model_name : string;
  ix_max_upload_mb : Z;
  ix_allowed_extensions : list string
}.

Definition index (settings : Settings) : IndexContext :=
  {| ix_deepstack_base_url := DEEPSTACK_BASE_URL (app_config settings);
     ix_model_name := DEEPSTACK_MODEL_NAME (app_config settings);
     ix_max_upload_mb := MAX_UPLOAD_MB settings;
     ix_allowed_extensions := ["jpg"; "jpeg"; "png"; "bmp"; "gif"; "webp"] |}.

(** ** Reference instances of the library functions

    The theorems below hold for every behaviour of the library functions the
    code calls.  These instances run the model on concrete requests. *)

Definition is_filename_char (c : ascii) : bool :=
  let n := nat_of_ascii c in
  ((Nat.leb 48 n && Nat.leb n 57) || (Nat.leb 65 n && Nat.leb n 90)
   || (Nat.leb 97 n && Nat.leb n 122)
   || Ascii.eqb c "_"%char || Ascii.eqb c "."%char || Ascii.eqb c "-"%char)%bool.

Definition is_dot_or_underscore (c : ascii) : bool :=
  (Ascii.eqb c "."%char || Ascii.eqb c "_"%char)%bool.

(** Whitespace runs and path separators become one underscore each; leading
    and trailing ones are dropped ([split] then [join]). *)
Fixpoint join_words (s : string) (in_gap at_start : bool) : string :=
  match s with
  | EmptyString => EmptyString
  | String c s' =>
      if (is_space c || Ascii.eqb c "/"%char)%bool then join_words s' true at_start
      else
        let rest := String c (join_words s' false false) in
        if (in_gap && negb at_start)%bool then String "_"%char rest else rest
  end.

Fixpoint keep_chars (p : ascii -> bool) (s : string) : string :=
  match s with
  | EmptyString => EmptyString
  | String c s' => if p c then String c (keep_chars p s') else keep_chars p s'
  end.

Fixpoint lstrip_by (p : ascii -> bool) (s : string) : string :=
  match s with
  | String c s' => if p c then lstrip_by p s' else s
  | EmptyString => EmptyString
  end.

(** [werkzeug.utils.secure_filename] on an ASCII name, on POSIX. *)
Definition secure_filename_ascii (name : string) : string :=
  let joined := join_words name false true in
  let kept := keep_chars is_filename_char joined in
  rstrip_by is_dot_or_underscore (lstrip_by is_dot_or_underscore kept).

(** ** A request scenario: the remote endpoint answers 404 *)

Definition sample_file : UploadedFile :=
  {| filename := Some "cat.jpg"; mimetype := Some "image/jpeg"; stream := "JFIF" |}.

Definition sample_config (fallback_enabled : bool) : AppConfig :=
  {| DEEPSTACK_BASE_URL := "http://localhost:5050";
     DEEPSTACK_MODEL_NAME := "FruitsRecognition";
     DEEPSTACK_TIMEOUT_SECONDS := 45;
     ENABLE_LOCAL_ONNX_FALLBACK := fallback_enabled |}.

Definition http_404 (endpoint name body mime : string) (timeout : Z) : post_outcome :=
  Responded {| resp_status_code := 404; resp_text := "Not Found";
               resp_json := JsonValueError |}.

(** A one-class model whose output is the logit [0.0]. *)
Definition sample_session : Session :=
  {| input_names := ["input"];
     run := fun _ _ => Ok [F32.zero] |}.

(** A working local engine. *)
Definition working_world : LocalWorld :=
  {| config_exists := true;
     config_document := Ok (PDict [("map", PDict [("0", PStr "Apple")])]);
     cached_session := None;
     model_exists := true;
     new_session := Ok sample_session;
     open_image := fun _ _ _ => Ok [[[0; 0; 0]]] |}.

(** The configuration file is there and is not JSON: [json.load] raises
    [JSONDecodeError], a [ValueError]. *)
Definition broken_config_world : LocalWorld :=
  {| config_exists := true;
     config_document := Raise (ValueError "Expecting value: line 1 column 1 (char 0)");
     cached_session := None;
     model_exists := true;
     new_session := Ok sample_session;
     open_image := fun _ _ _ => Ok [[[0; 0; 0]]] |}.

(** The model file is missing. *)
Definition no_model_world : LocalWorld :=
  {| config_exists := true;
     config_document := Ok (PDict []);
     cached_session := None;
     model_exists := false;
     new_session := Ok sample_session;
     open_image := fun _ _ _ => Ok [[[0; 0; 0]]] |}.

(** The model answers NaN for both of its two classes. *)
Definition nan_session : Session :=
  {| input_names := ["input"];
     run := fun _ _ => Ok [S754_nan; S754_nan] |}.

Definition nan_world : LocalWorld :=
  {| config_exists := true;
     config_document := Ok (PDict [("map", PDict [("0", PStr "Apple")])]);
     cached_session := Some nan_session;
     model_exists := true;
     new_session := Ok nan_session;
     open_image := fun _ _ _ => Ok [[[0; 0; 0]]] |}.

(** A service that answers 200 and sends the endpoint back as its body. *)
Definition http_echo (endpoint name body mime : string) (timeout : Z) : post_outcome :=
  Responded {| resp_status_code := 200;
               resp_text := endpoint;
               resp_json := JsonValue (PStr endpoint) |}.

(** A service that answers 200 with a document nested too deeply for the
    decoder: [response.json()] raises [RecursionError]. *)
Definition http_nested (endpoint name body mime : string) (timeout : Z) : post_outcome :=
  Responded {| resp_status_code := 200;
               resp_text := "[[[[";
               resp_json := JsonFailure "maximum recursion depth exceeded" |}.

(** A service that answers 200 with a confidence beyond the float range. *)
Definition http_huge (endpoint name body mime : string) (timeout : Z) : post_outcome :=
  Responded {| resp_status_code := 200;
               resp_text := "{}";
               resp_json := JsonValue (PDict [("label", PStr "Apple");
                                              ("confidence", PInt (10 ^ 400))]) |}.

(** A left-to-right accumulation, which is how [np.sum] adds up a short
    array. *)
Definition sum_sequential (xs : list float32) : float32 :=
  fold_left F32.add xs F32.zero.

(** [P] holds whatever the built-ins [float(s)], [int(s)] and [repr] do. *)
Definition for_every_builtin
           (P : (string -> option float64) -> (string -> option Z)
                -> (pyval -> string) -> Prop) : Prop :=
  forall float_of_string int_of_string py_repr, P float_of_string int_of_string py_repr.

(** ** Specification-side definitions *)

(** The validation rules as the specification lists them: each rule applies
    when the ones before it did not. *)
Inductive upload_rule (secure_filename : string -> string)
  : option UploadedFile -> option UploadedFile * option string -> Prop :=
| rule_no_file :
    upload_rule secure_filename None (None, Some "No file was uploaded.")
| rule_choose_file f :
    secure_filename (or_empty (filename f)) = EmptyString ->
    upload_rule secure_filename (Some f) (None, Some "Please choose an image file first.")
| rule_no_extension f :
    secure_filename (or_empty (filename f)) <> EmptyString ->
    has_dot (secure_filename (or_empty (filename f))) = false ->
    upload_rule secure_filename (Some f) (None, Some "Uploaded file has no extension.")
| rule_unsupported_type f ext :
    secure_filename (or_empty (filename f)) <> EmptyString ->
    has_dot (secure_filename (or_empty (filename f))) = true ->
    ext = lower (after_last_dot (secure_filename (or_empty (filename f)))) ->
    ~ In ext ALLOWED_EXTENSIONS ->
    upload_rule secure_filename (Some f)
      (None, Some ("Unsupported file type '" ++ ext
                     ++ "'. Allowed: bmp, gif, jpeg, jpg, png, webp."))
| rule_invalid_mime f mt :
    secure_filename (or_empty (filename f)) <> EmptyString ->
    has_dot (secure_filename (or_empty (filename f))) = true ->
    In (lower (after_last_dot (secure_filename (or_empty (filename f)))))
       ALLOWED_EXTENSIONS ->
    mimetype f = Some mt ->
    mt <> EmptyString ->
    startswith mt "image/" = false ->
    upload_rule secure_filename (Some f)
      (None, Some ("Invalid file MIME type '" ++ mt ++ "'. Only images are supported."))
| rule_accept f :
    secure_filename (or_empty (filename f)) <> EmptyString ->
    has_dot (secure_filename (or_empty (filename f))) = true ->
    In (lower (after_last_dot (secure_filename (or_empty (filename f)))))
       ALLOWED_EXTENSIONS ->
    (mimetype f = None \/ mimetype f = Some EmptyString
     \/ exists mt, mimetype f = Some mt /\ startswith mt "image/" = true) ->
    upload_rule secure_filename (Some f) (Some f, None).


(** The dicts of a [predictions] list, in order. *)
Definition dict_items (items : list pyval) : list (list (string * pyval)) :=
  flat_map (fun item => match item with PDict i => [i] | _ => [] end) items.

(** The label/confidence pairs a payload holds, first seen first: the
    top-level pair when there is a [label] key, then the dict entries of the
    [predictions] list. *)
Definition raw_entries (d : list (string * pyval)) : list (list (string * pyval)) :=
  ((if dict_has d "label" then [d] else [])
     ++ match get_or_none d "predictions" with
        | PList items => dict_items items
        | _ => []
        end)%list.

(** [[f(x) for x in l]], stopping at the first exception. *)
Fixpoint map_result {A B : Type} (f : A -> result B) (l : list A) : result (list B) :=
  match l with
  | [] => Ok []
  | x :: l' => y <- f x ;; ys <- map_result f l' ;; Ok (y :: ys)
  end.

(** [P] holds whatever the string-to-float parser and [repr] do. *)
Definition for_every_library
           (P : (string -> option float64) -> (pyval -> string) -> Prop) : Prop :=
  forall float_of_string py_repr, P float_of_string py_repr.

Definition is_dict (v : pyval) : bool :=
  match v with PDict _ => true | _ => false end.

(** The dual-mode rule as the specification words it. *)
Definition spec_normalize_pixel (mean std : float64) (pixel : float32) : float32 :=
  if (F64.ge std F64.ten && (F64.lt F64.zero mean && F64.lt mean F64.one))%bool then
    F32.div (F32.sub (F32.div pixel (F32.of_f64 std)) (F32.of_f64 mean)) (F32.of_f64 mean)
  else
    F32.div (F32.sub pixel (F32.of_f64 mean)) (F32.of_f64 std).

(** The rule with the floor the code puts under the divisor: in the first
    mode a mean below [1e-6] is replaced by [1e-6] as the divisor. *)
Definition floored_normalize_pixel (mean std : float64) (pixel : float32) : float32 :=
  if (F64.ge std F64.ten && (F64.lt F64.zero mean && F64.lt mean F64.one)
      && F64.lt mean F64.micro)%bool then
    F32.div (F32.sub (F32.div pixel (F32.of_f64 std)) (F32.of_f64 mean))
            (F32.of_f64 F64.micro)
  else spec_normalize_pixel mean std pixel.

(** [P] holds whatever [np.exp] does on finite arguments and [np.sum] does. *)
Definition for_every_numpy
           (P : (float32 -> float32) -> (list float32 -> float32) -> Prop) : Prop :=
  forall exp_finite np_sum, P exp_finite np_sum.

(** Descending by key: the key of every entry is [>=] the key of every
    entry after it. *)
Definition descending {A : Type} (key : A -> float64) (l : list A) : Prop :=
  StronglySorted (fun a b => F64.ge (key a) (key b) = true) l.

(** No entry is followed by one with a strictly greater key: what a sort
    that only asks [<] of the keys leaves of a descending order when keys
    are NaN. *)
Definition never_ascending {A : Type} (key : A -> float64) (l : list A) : Prop :=
  StronglySorted (fun a b => F64.lt (key a) (key b) = false) l.

(** The entries whose key equals [k] stand in the same order in both lists. *)
Definition same_order_on_ties {A : Type} (key : A -> float64) (l l' : list A) : Prop :=
  forall k, filter (fun a => F64.eq k (key a)) l = filter (fun a => F64.eq k (key a)) l'.

(** A float that is a zero or a finite number. *)
Definition finite_or_zero (x : spec_float) : bool :=
  match x with
  | S754_zero _ | S754_finite _ _ _ => true
  | _ => false
  end.

(** What the ranking of the local predictions needs of numpy: a sum over
    an array that holds a NaN is NaN, and [np.exp] of a negative finite
    number is a zero or a finite number. *)
Definition numpy_sound (exp_finite : float32 -> float32)
           (np_sum : list float32 -> float32) : Prop :=
  (forall xs, In S754_nan xs -> np_sum xs = S754_nan)
  /\ (forall m e, finite_or_zero (exp_finite (S754_finite true m e)) = true).

(** The output values of a session are binary32 values. *)
Definition outputs_valid (s : Session) : Prop :=
  forall name tensor out,
    run s name tensor = Ok out ->
    Forall (fun x => valid_binary F32.prec F32.emax x = true) out.

(** NaN, negative infinity, a zero or a negative finite number. *)
Definition nonpositive_or_nan (x : spec_float) : bool :=
  match x with
  | S754_nan | S754_zero _ | S754_infinity true | S754_finite true _ _ => true
  | _ => false
  end.

(** The order of the non-NaN floats as a lexicographic rank. *)
Definition rank (a : spec_float) : Z * (Z * Z) :=
  match a with
  | S754_nan => (0, (0, 0))
  | S754_zero _ => (0, (0, 0))
  | S754_infinity s => (if s then -2 else 2, (0, 0))
  | S754_finite s m e => if s then (-1, (- e, - Zpos m)) else (1, (e, Zpos m))
  end.

Definition lex (x y : Z * (Z * Z)) : comparison :=
  match fst x ?= fst y with
  | Eq => match fst (snd x) ?= fst (snd y) with
          | Eq => snd (snd x) ?= snd (snd y)
          | c => c
          end
  | c => c
  end.

(** Rounding, for the proofs: a location that is exact. *)
Definition loc_exact (l : location) : bool :=
  match l with loc_Exact => true | _ => false end.

(** After [k] shifts of [m0]: the mantissa is [m0 / 2^k], and the record
    is exact when the start was and the bits shifted out are zeros. *)
Definition shifted (m0 : Z) (exact0 : bool) (k : Z) (mrs : shr_record) : Prop :=
  shr_m mrs = m0 / 2 ^ k
  /\ (exact0 = true -> m0 mod 2 ^ k = 0 -> shr_r mrs = false /\ shr_s mrs = false).

(** [P] holds whatever the string-to-float parser does. *)
Definition for_every_parser (P : (string -> option float64) -> Prop) : Prop :=
  forall float_of_string, P float_of_string.

(** [P] holds whatever [np.exp] does on finite arguments. *)
Definition for_every_exp (P : (float32 -> float32) -> Prop) : Prop :=
  forall exp_finite, P exp_finite.

(** The error response of the [except DeepstackClientError] clause, with
    its log line. *)
Definition surfaced (py_repr : pyval -> string) (lg : list log_entry)
           (message : string) (status_code : Z) (exc_details : list (string * pyval))
  : list log_entry * result (JsonBody * Z) :=
  ((lg ++ [LogError ("DeepStack error: " ++ message ++ " | details="
                       ++ py_repr (PDict exc_details))])%list,
   Ok ({| success := false;
          fallback := None;
          warning := None;
          data := None;
          error := Some message;
          details := Some (PDict exc_details) |}, status_code)).

(** The generic response of the [except Exception] clause. *)
Definition generic_500 (e : exn) : JsonBody * Z :=
  ({| success := false;
      fallback := None;
      warning := None;
      data := None;
      error := Some "Unexpected server error while processing the prediction.";
      details := Some (PStr (exn_str e)) |}, 500).

(** The floats that reach the code are binary64 values: the float the
    input is, or the one the parser returns for it. *)
Definition float_input_valid (float_of_string : string -> option float64)
           (v : pyval) : Prop :=
  match v with
  | PFloat f => F64.valid f = true
  | PStr s => forall f, float_of_string s = Some f -> F64.valid f = true
  | _ => True
  end.

(** The number a finite float stands for (zero for the others). *)
Definition Q_of_float (x : spec_float) : Q :=
  match x with
  | S754_finite s m e => (inject_Z (cond_Zopp s (Zpos m)) * Qpower 2 e)%Q
  | _ => 0%Q
  end.

(** [a] is [b] up to one rounding of binary64: they differ by at most
    [|b| * 2^-52]. *)
Definition within_rounding (a b : Q) : Prop :=
  (Qabs (a - b) <= Qabs b * Qpower 2 (-52))%Q.

(** ** Further specification-side definitions *)

(** Every character of [s] satisfies [p]. *)
Fixpoint all_chars (p : ascii -> bool) (s : string) : bool :=
  match s with
  | EmptyString => true
  | String c s' => (p c && all_chars p s')%bool
  end.

(** The characters [rstrip("/")] drops. *)
Definition is_slash (c : ascii) : bool := Ascii.eqb c "/"%char.

(** [c in s] for a character. *)
Fixpoint mem_char (c : ascii) (s : string) : bool :=
  match s with
  | EmptyString => false
  | String c' s' => (Ascii.eqb c' c || mem_char c s')%bool
  end.

(** The endpoint [call_custom_model] posts to. *)
Definition endpoint_of (base_url model_name : string) : string :=
  rstrip_slash base_url ++ "/v1/vision/custom/" ++ model_name.

Definition first_char (s : string) : option ascii :=
  match s with
  | String c _ => Some c
  | EmptyString => None
  end.

Fixpoint last_char (s : string) : option ascii :=
  match s with
  | EmptyString => None
  | String c EmptyString => Some c
  | String _ s' => last_char s'
  end.

(** A preview as [call_custom_model] cuts it: at most 500 characters, no
    line feed, and neither its first nor its last character is white
    space. *)
Definition one_short_line (p : string) : Prop :=
  (String.length p <= 500)%nat
  /\ mem_char (ascii_of_nat 10) p = false
  /\ (forall c, first_char p = Some c \/ last_char p = Some c -> is_space c = false).

(** The responses of [predict]: a rejected upload, an answer of the remote
    classifier, an answer of the local engine. *)
Definition rejected (message : string) : JsonBody * Z :=
  ({| success := false;
      fallback := None;
      warning := None;
      data := None;
      error := Some message;
      details := None |}, 400).

Definition answered (data' : PredictionResponse) : JsonBody * Z :=
  ({| success := true;
      fallback := None;
      warning := None;
      data := Some data';
      error := None;
      details := None |}, 200).

Definition answered_locally (data' : PredictionResponse) : JsonBody * Z :=
  ({| success := true;
      fallback := Some true;
      warning := Some FALLBACK_WARNING;
      data := Some data';
      error := None;
      details := None |}, 200).

(** The line [predict] logs when the remote call returns. *)
Definition response_logged (r : DeepstackResult) : log_entry :=
  LogInfo ("DeepStack response status=" ++ str_of_Z (ds_status_code r)
             ++ " endpoint=" ++ ds_endpoint r
             ++ " preview=" ++ ds_response_preview r).

(** A prediction whose score is in [[0, 1]] and whose percent is in
    [[0, 100]]. *)
Definition in_range (p : Prediction) : Prop :=
  F64.le F64.zero (confidence p) = true /\ F64.le (confidence p) F64.one = true
  /\ F64.le F64.zero (confidence_percent p) = true
  /\ F64.le (confidence_percent p) F64.hundred = true.

(** Every float among the confidence values of a payload is a binary64
    value. *)
Definition payload_floats_valid (float_of_string : string -> option float64)
           (payload : pyval) : Prop :=
  match payload with
  | PDict d =>
      Forall (fun e => float_input_valid float_of_string (get_or_none e "confidence"))
             (raw_entries d)
  | _ => True
  end.

(** The label of class [class_index] under a label map: the map's entry
    for the decimal index, or [class_<index>]. *)
Definition class_label (py_repr : pyval -> string) (label_map : list (string * pyval))
           (class_index : nat) : string :=
  match dict_get label_map (str_of_nat class_index) with
  | Some (PStr s) => s
  | Some v => py_repr v
  | None => "class_" ++ str_of_nat class_index
  end.

(** The predictions of the classes from [first] on, in class order. *)
Definition by_class (py_repr : pyval -> string) (label_map : list (string * pyval))
           (first : nat) (probabilities : list float32) : list LocalPrediction :=
  map (fun ip => {| lp_label := class_label py_repr label_map (fst ip);
                    lp_confidence := F32.to_f64 (snd ip) |})
      (combine (seq first (List.length probabilities)) probabilities).

(** A session with an input, whose runs give at least one output value. *)
Definition session_sound (s : Session) : Prop :=
  input_names s <> []
  /\ forall name tensor out, run s name tensor = Ok out -> out <> [].

(** A configuration document the local engine reads without an exception:
    a dict whose sizes convert to int, whose [mean] and [std] are no
    integers beyond the float range, and whose [map] is a dict. *)
Definition config_sound (float_of_string : string -> option float64)
           (int_of_string : string -> option Z) (c : pyval) : Prop :=
  exists d,
    c = PDict d
    /\ (exists w, py_int int_of_string (get_or d "width" (PInt 224)) = Ok w)
    /\ (exists h, py_int int_of_string (get_or d "height" (PInt 224)) = Ok h)
    /\ (forall m, py_float float_of_string (get_or d "mean" (PFloat F64.default_mean))
                  <> Raise (OverflowError m))
    /\ (forall m, py_float float_of_string (get_or d "std" (PInt 255))
                  <> Raise (OverflowError m))
    /\ is_dict (get_or d "map" (PDict [])) = true.

(** A world in which the local engine finds what it needs, whenever the
    files are there. *)
Definition local_setup_sound (float_of_string : string -> option float64)
           (int_of_string : string -> option Z) (world : LocalWorld) : Prop :=
  (config_exists world = true ->
   exists c, config_document world = Ok c /\ config_sound float_of_string int_of_string c)
  /\ match cached_session world with
     | Some s => session_sound s
     | None =>
         model_exists world = true ->
         exists s, new_session world = Ok s /\ session_sound s
     end.

(** The payload [predict] builds from the local predictions. *)
Definition local_payload (local_predictions : list LocalPrediction) : pyval :=
  PDict [("predictions", PList (map local_prediction_dict local_predictions))].

(** The largest binary64 value, [(2^53 - 1) * 2^971], as an integer. *)
Definition F64_max_int : Z := 9007199254740991 * 2 ^ 971.

(** No integer among the confidence values of the entries is beyond the
    float range. *)
Definition confidences_convert (entries : list (list (string * pyval))) : Prop :=
  Forall (fun e => forall z, get_or_none e "confidence" = PInt z -> Z.abs z <= F64_max_int)
         entries.

(** The image [np.asarray(image, dtype=np.float32)] makes of the rows of
    pixels of an RGB image. *)
Definition as_float32 (pixels : list (list (list Z))) : image :=
  map (map (map F32.of_Z)) pixels.

(** A channel value of an 8-bit image. *)
Definition is_byte (z : Z) : Prop := 0 <= z <= 255.

(** A [float32] in [[-1, 1]]. *)
Definition in_unit_ball (y : float32) : bool :=
  (F32.le (F32.of_Z (-1)) y && F32.le y F32.one)%bool.

(** The first mode of the normalisation at the defaults [mean = 0.5] and
    [std = 255], on one channel value. *)
Definition default_normalize (z : Z) : float32 :=
  F32.div (F32.sub (F32.div (F32.of_Z z) (F32.of_f64 F64.default_std))
                   (F32.of_f64 F64.default_mean))
          (F32.of_f64 (py_max F64.default_mean F64.micro)).

(** * Properties *)

(** ** Upload validator *)

Lemma is_empty_true (s : string) : is_empty s = true <-> s = EmptyString.
Proof. destruct s; simpl; split; congruence. Qed.

Lemma is_empty_false (s : string) : is_empty s = false <-> s <> EmptyString.
Proof. destruct s; simpl; split; congruence. Qed.

Lemma mem_string_In (x : string) (l : list string) :
  mem_string x l = true <-> In x l.
Proof.
  induction l as [|y l IH]; simpl.
  - split; [discriminate | tauto].
  - rewrite orb_true_iff, IH, String.eqb_eq. tauto.
Qed.

Lemma mem_string_not_In (x : string) (l : list string) :
  mem_string x l = false <-> ~ In x l.
Proof.
  rewrite <- mem_string_In. destruct (mem_string x l); split; congruence.
Qed.

Lemma allowed_text_value :
  join ", " (sorted_strings ALLOWED_EXTENSIONS) = "bmp, gif, jpeg, jpg, png, webp".
Proof. reflexivity. Qed.

Lemma validate_follows_rules (sf : string -> string) (file : option UploadedFile) :
  upload_rule sf file (validate_image_upload sf file).
Proof.
  destruct file as [f|]; [|constructor].
  unfold validate_image_upload.
  set (name := sf (or_empty (filename f))).
  destruct (is_empty name) eqn:He.
  { apply rule_choose_file. now apply is_empty_true. }
  apply is_empty_false in He.
  destruct (has_dot name) eqn:Hd; cbn [negb].
  2:{ now apply rule_no_extension. }
  destruct (mem_string (lower (after_last_dot name)) ALLOWED_EXTENSIONS) eqn:Hm;
    cbn [negb].
  2:{ apply mem_string_not_In in Hm. cbv zeta. rewrite allowed_text_value.
      now apply rule_unsupported_type. }
  apply mem_string_In in Hm. cbv zeta.
  destruct (mimetype f) as [mt|] eqn:Hmt; cbn [or_empty is_empty negb andb].
  2:{ apply rule_accept; auto. }
  destruct (is_empty mt) eqn:Hme; cbn [negb andb].
  { apply is_empty_true in Hme; subst mt. apply rule_accept; auto. }
  apply is_empty_false in Hme.
  destruct (startswith mt ALLOWED_MIME_PREFIX) eqn:Hp; cbn [negb].
  - apply rule_accept; auto. right; right. now exists mt.
  - now apply rule_invalid_mime.
Qed.

(** The rules exclude one another: a request has one verdict. *)
Lemma upload_rule_functional (sf : string -> string) (file : option UploadedFile)
      (v1 v2 : option UploadedFile * option string) :
  upload_rule sf file v1 -> upload_rule sf file v2 -> v1 = v2.
Proof.
  intros H1 H2.
  destruct H1; inversion H2; subst; try reflexivity; try congruence;
    try contradiction;
    repeat match goal with
      | H : _ \/ _ |- _ => destruct H
      | H : exists _, _ |- _ => destruct H as [? [? ?]]
      end; congruence.
Qed.

(** C8: [validate_image_upload] applies its rules in their order and returns
    the first failure (no file, empty sanitised name, no extension, extension
    outside the allow-list with the list in the message, declared MIME type
    outside [image/]), and accepts otherwise: its result is the one verdict
    of the ordered rules.  Where sanitising leaves the two names as they are,
    [malware.exe] gets the allow-list message and [cat.JPG] passes the
    extension check, whatever the rest of the request. *)
Theorem validate_image_upload_rules (sf : string -> string) :
  (forall file v, validate_image_upload sf file = v <-> upload_rule sf file v)
  /\ (sf "malware.exe" = "malware.exe" ->
      forall mt st,
        validate_image_upload sf
          (Some {| filename := Some "malware.exe"; mimetype := mt; stream := st |})
        = (None, Some "Unsupported file type 'exe'. Allowed: bmp, gif, jpeg, jpg, png, webp."))
  /\ (sf "cat.JPG" = "cat.JPG" ->
      forall st,
        (forall mt,
            snd (validate_image_upload sf
                   (Some {| filename := Some "cat.JPG"; mimetype := mt; stream := st |}))
            <> Some "Unsupported file type 'jpg'. Allowed: bmp, gif, jpeg, jpg, png, webp.")
        /\ validate_image_upload sf
             (Some {| filename := Some "cat.JPG"; mimetype := Some "image/jpeg"; stream := st |})
           = (Some {| filename := Some "cat.JPG"; mimetype := Some "image/jpeg"; stream := st |},
              None)).
Proof.
  split; [|split].
  - intros file v; split.
    + intros <-. apply validate_follows_rules.
    + intros H. eapply upload_rule_functional; [apply validate_follows_rules | exact H].
  - intros Hsf mt st. unfold validate_image_upload; simpl. rewrite Hsf. reflexivity.
  - intros Hsf st; split.
    + intros mt. unfold validate_image_upload; simpl. rewrite Hsf. simpl.
      destruct mt as [mt|]; simpl; [|discriminate].
      destruct (is_empty mt); simpl; [discriminate|].
      destruct (startswith mt ALLOWED_MIME_PREFIX); simpl; discriminate.
    + unfold validate_image_upload; simpl. rewrite Hsf. reflexivity.
Qed.

(** C8 at the reference sanitiser, which leaves both names unchanged. *)
Lemma validate_image_upload_rules_witness :
  secure_filename_ascii "malware.exe" = "malware.exe"
  /\ secure_filename_ascii "cat.JPG" = "cat.JPG"
  /\ validate_image_upload secure_filename_ascii
       (Some {| filename := Some "malware.exe"; mimetype := Some "image/png";
                stream := EmptyString |})
     = (None, Some "Unsupported file type 'exe'. Allowed: bmp, gif, jpeg, jpg, png, webp.")
  /\ validate_image_upload secure_filename_ascii
       (Some {| filename := Some "cat.JPG"; mimetype := Some "image/jpeg";
                stream := EmptyString |})
     = (Some {| filename := Some "cat.JPG"; mimetype := Some "image/jpeg";
                stream := EmptyString |}, None).
Proof.
  split; [reflexivity|]. split; [reflexivity|]. split.
  - apply (proj1 (proj2 (validate_image_upload_rules secure_filename_ascii))).
    reflexivity.
  - apply (proj2 (proj2 (validate_image_upload_rules secure_filename_ascii))).
    reflexivity.
Defined.

(** ** Prediction extraction *)

Section Extraction.
Variable float_of_string : string -> option float64.
Variable py_repr : pyval -> string.

Abbreviation prediction_of' := (prediction_of float_of_string py_repr).
Abbreviation extract := (_extract_predictions float_of_string py_repr).

Lemma bind_ok {A B : Type} (r : result A) (k : A -> result B) (b : B) :
  bind r k = Ok b -> exists a, r = Ok a /\ k a = Ok b.
Proof. destruct r as [a|e]; simpl; [eauto | discriminate]. Qed.

Lemma map_result_app {A B : Type} (f : A -> result B) (l1 l2 : list A) :
  map_result f (l1 ++ l2) =
  (ys1 <- map_result f l1 ;; ys2 <- map_result f l2 ;; Ok (ys1 ++ ys2)%list).
Proof.
  induction l1 as [|x l1 IH]; simpl.
  - destruct (map_result f l2); reflexivity.
  - destruct (f x) as [y|e]; simpl; [|reflexivity].
    rewrite IH. destruct (map_result f l1) as [ys1|e]; simpl; [|reflexivity].
    destruct (map_result f l2); reflexivity.
Qed.

Lemma map_result_length {A B : Type} (f : A -> result B) (l : list A) (ys : list B) :
  map_result f l = Ok ys -> List.length ys = List.length l.
Proof.
  revert ys; induction l as [|x l IH]; simpl; intros ys H.
  - now inversion H.
  - destruct (f x) as [y|e]; simpl in H; [|discriminate].
    destruct (map_result f l) as [ys'|e]; simpl in H; [|discriminate].
    inversion H; subst. simpl. f_equal. now apply IH.
Qed.

(** The loop over the [predictions] list appends the entries of its dicts. *)
Lemma for_each_items (items : list pyval) (acc : list Prediction) :
  for_each
    (fun acc item =>
       match item with
       | PDict i => p <- prediction_of' i ;; Ok (acc ++ [p])%list
       | _ => Ok acc
       end) items acc
  = (ps <- map_result prediction_of' (dict_items items) ;; Ok (acc ++ ps)%list).
Proof.
  revert acc; induction items as [|item items IH]; intros acc; simpl.
  - now rewrite app_nil_r.
  - destruct item; simpl; try apply IH.
    destruct (prediction_of' d) as [p|e]; simpl; [|reflexivity].
    rewrite IH. destruct (map_result _ (dict_items items)); simpl; [|reflexivity].
    now rewrite <- app_assoc.
Qed.

(** Extraction from a dict whose [error] value is not truthy. *)
Lemma extract_dict (d : list (string * pyval)) :
  truthy (get_or_none d "error") = false ->
  extract (PDict d) =
  (ps <- map_result prediction_of' (raw_entries d) ;;
   match ps with
   | [] => Raise (DeepstackClientError "DeepStack returned no predictions for this image."
                    502 [("response", PDict d)])
   | _ => Ok (sorted_reverse confidence_percent ps)
   end).
Proof.
  intros Herr. unfold _extract_predictions, raw_entries. rewrite Herr.
  rewrite map_result_app.
  destruct (dict_has d "label"); simpl.
  - destruct (prediction_of' d) as [p|e]; simpl; [|reflexivity].
    destruct (get_or_none d "predictions"); simpl; try reflexivity.
    rewrite for_each_items.
    destruct (map_result _ (dict_items l)); reflexivity.
  - destruct (get_or_none d "predictions"); simpl; try reflexivity.
    rewrite for_each_items.
    destruct (map_result _ (dict_items l)); reflexivity.
Qed.

(** C10: a payload that is not a dict makes [_extract_predictions], and so
    [build_prediction_response], fail with a [DeepstackClientError] of status
    502; no prediction list is returned. *)
Theorem non_dict_payload_fails_502 (payload : pyval) (now : string)
        (env_url : option string) (endpoint model_name : string) :
  is_dict payload = false ->
  extract payload
  = Raise (DeepstackClientError "DeepStack response format is invalid." 502 [])
  /\ build_prediction_response float_of_string py_repr now env_url
       payload endpoint model_name
     = Raise (DeepstackClientError "DeepStack response format is invalid." 502 []).
Proof.
  intros H. unfold build_prediction_response.
  destruct payload; simpl in H; try discriminate; split; reflexivity.
Qed.

(** C5, amended: a dict payload whose top-level [error] value is truthy makes
    extraction fail with a [DeepstackClientError] of status 502 whose details
    hold the payload, whatever else the payload holds. *)
Theorem truthy_error_fails_502 (d : list (string * pyval)) :
  truthy (get_or_none d "error") = true ->
  extract (PDict d)
  = Raise (DeepstackClientError
             ("DeepStack reported an error: " ++ py_str py_repr (get_or_none d "error"))
             502 [("response", PDict d)]).
Proof. intros H. unfold _extract_predictions. now rewrite H. Qed.

End Extraction.

(** C5 at the payload [{"error": "model busy"}]. *)
Lemma truthy_error_fails_502_witness :
  _extract_predictions (fun _ => None) (fun _ => EmptyString)
    (PDict [("error", PStr "model busy")])
  = Raise (DeepstackClientError "DeepStack reported an error: model busy" 502
             [("response", PDict [("error", PStr "model busy")])]).
Proof.
  apply (truthy_error_fails_502 (fun _ => None) (fun _ => EmptyString)
           [("error", PStr "model busy")]).
  reflexivity.
Defined.

(** C10 at the payload [[]] (a JSON array). *)
Lemma non_dict_payload_fails_502_witness :
  _extract_predictions (fun _ => None) (fun _ => EmptyString) (PList [])
  = Raise (DeepstackClientError "DeepStack response format is invalid." 502 [])
  /\ build_prediction_response (fun _ => None) (fun _ => EmptyString)
       "2024-01-01T00:00:00+00:00" None (PList []) "http://localhost:5050" "Fruits"
     = Raise (DeepstackClientError "DeepStack response format is invalid." 502 []).
Proof.
  apply (non_dict_payload_fails_502 (fun _ => None) (fun _ => EmptyString)).
  reflexivity.
Defined.

(** C5 as stated fails: with an [error] field that is present and empty, the
    payload [{"error": "", "label": "Apple", "confidence": 0.92}] yields a
    prediction list, not an error. *)
Lemma present_falsy_error_is_ignored :
  for_every_library (fun float_of_string py_repr =>
    dict_has [("error", PStr EmptyString); ("label", PStr "Apple");
              ("confidence", PFloat (F64.div (F64.of_Z 92) (F64.of_Z 100)))] "error" = true
    /\ _extract_predictions float_of_string py_repr
         (PDict [("error", PStr EmptyString); ("label", PStr "Apple");
                 ("confidence", PFloat (F64.div (F64.of_Z 92) (F64.of_Z 100)))])
       = Ok [{| label := "Apple";
                confidence := F64.div (F64.of_Z 92) (F64.of_Z 100);
                confidence_percent := F64.of_Z 92 |}]).
Proof. intros fos repr. split; vm_compute; reflexivity. Qed.

(** ** The order of floats *)

Lemma compare_cont_Eq (m1 m2 : positive) : Pos.compare_cont Eq m1 m2 = Pos.compare m1 m2.
Proof. reflexivity. Qed.

Lemma SFcompare_antisym (a b : spec_float) :
  SFcompare b a = option_map CompOpp (SFcompare a b).
Proof.
  destruct a as [s1|s1| |s1 m1 e1], b as [s2|s2| |s2 m2 e2]; simpl; try reflexivity;
    try (destruct s1; reflexivity); try (destruct s2; reflexivity);
    try (destruct s1, s2; reflexivity).
  rewrite !compare_cont_Eq, (Z.compare_antisym e1 e2), (Pos.compare_antisym m1 m2).
  destruct s1, s2; simpl; try reflexivity;
    destruct (e1 ?= e2); simpl; try reflexivity;
    destruct (m1 ?= m2)%positive; reflexivity.
Qed.

Lemma SFcompare_rank (a b : spec_float) :
  F64.is_nan a = false -> F64.is_nan b = false -> SFcompare a b = Some (lex (rank a) (rank b)).
Proof.
  destruct a as [s1|s1| |s1 m1 e1], b as [s2|s2| |s2 m2 e2]; simpl; intros; try discriminate;
    try (destruct s1; reflexivity); try (destruct s2; reflexivity);
    try (destruct s1, s2; reflexivity).
  rewrite compare_cont_Eq.
  destruct s1, s2; unfold lex; simpl; try reflexivity.
  - destruct (Z.compare_spec e1 e2), (Z.compare_spec (- e1) (- e2)); try lia;
      try reflexivity.
Qed.

Lemma lex_trans_le (x y z : Z * (Z * Z)) :
  lex x y <> Gt -> lex y z <> Gt -> lex x z <> Gt.
Proof.
  destruct x as [x1 [x2 x3]], y as [y1 [y2 y3]], z as [z1 [z2 z3]]; unfold lex; simpl.
  destruct (Z.compare_spec x1 y1), (Z.compare_spec y1 z1), (Z.compare_spec x1 z1);
    try lia; try congruence;
  destruct (Z.compare_spec x2 y2), (Z.compare_spec y2 z2), (Z.compare_spec x2 z2);
    try lia; try congruence;
  destruct (Z.compare_spec x3 y3), (Z.compare_spec y3 z3), (Z.compare_spec x3 z3);
    try lia; congruence.
Qed.

Lemma SFleb_not_nan (a b : spec_float) :
  SFleb a b = true -> F64.is_nan a = false /\ F64.is_nan b = false.
Proof. destruct a, b; simpl; try discriminate; auto. Qed.

Lemma SFleb_rank (a b : spec_float) :
  SFleb a b = true <-> F64.is_nan a = false /\ F64.is_nan b = false /\ lex (rank a) (rank b) <> Gt.
Proof.
  split.
  - intros H. destruct (SFleb_not_nan _ _ H) as [Ha Hb]. repeat split; auto.
    unfold SFleb in H. rewrite (SFcompare_rank a b Ha Hb) in H.
    destruct (lex (rank a) (rank b)); congruence.
  - intros (Ha & Hb & H). unfold SFleb. rewrite (SFcompare_rank a b Ha Hb).
    destruct (lex (rank a) (rank b)); congruence.
Qed.

Lemma SFleb_trans (a b c : spec_float) :
  SFleb a b = true -> SFleb b c = true -> SFleb a c = true.
Proof.
  rewrite !SFleb_rank. intros (Ha & Hb & H1) (_ & Hc & H2). repeat split; auto.
  eapply lex_trans_le; eauto.
Qed.

Lemma SFltb_leb (a b : spec_float) : SFltb a b = true -> SFleb a b = true.
Proof. unfold SFltb, SFleb. destruct (SFcompare a b) as [[]|]; congruence. Qed.

Lemma SFltb_false_leb (a b : spec_float) :
  F64.is_nan a = false -> F64.is_nan b = false -> SFltb a b = false -> SFleb b a = true.
Proof.
  intros Ha Hb. unfold SFltb, SFleb. rewrite (SFcompare_antisym a b).
  rewrite (SFcompare_rank a b Ha Hb).
  destruct (lex (rank a) (rank b)); simpl; intros; congruence.
Qed.

Lemma lex_eq (x y : Z * (Z * Z)) : lex x y = Eq -> x = y.
Proof.
  destruct x as [x1 [x2 x3]], y as [y1 [y2 y3]]; unfold lex; simpl.
  destruct (Z.compare_spec x1 y1); try discriminate.
  destruct (Z.compare_spec x2 y2); try discriminate.
  destruct (Z.compare_spec x3 y3); try discriminate. intros _. congruence.
Qed.

Lemma SFeqb_rank (a b : spec_float) :
  SFeqb a b = true <-> F64.is_nan a = false /\ F64.is_nan b = false /\ rank a = rank b.
Proof.
  split.
  - intros H.
    assert (Ha : F64.is_nan a = false) by (destruct a, b; cbv in H |- *; congruence).
    assert (Hb : F64.is_nan b = false) by (destruct a, b; cbv in H |- *; congruence).
    repeat split; auto. unfold SFeqb in H. rewrite (SFcompare_rank a b Ha Hb) in H.
    apply lex_eq. destruct (lex (rank a) (rank b)); congruence.
  - intros (Ha & Hb & H). unfold SFeqb. rewrite (SFcompare_rank a b Ha Hb), H.
    destruct (rank b) as [x1 [x2 x3]]. unfold lex; simpl. now rewrite !Z.compare_refl.
Qed.

Lemma SFltb_not_eq_class (k a b : spec_float) :
  SFltb a b = true -> SFeqb k b = true -> SFeqb k a = false.
Proof.
  intros Hlt Hkb. destruct (SFeqb k a) eqn:Hka; [|reflexivity].
  apply SFeqb_rank in Hkb, Hka. destruct Hkb as (Hk & Hb & Hkb), Hka as (_ & Ha & Hka).
  unfold SFltb in Hlt. rewrite (SFcompare_rank a b Ha Hb), <- Hka, Hkb in Hlt.
  destruct (rank b) as [x1 [x2 x3]]. unfold lex in Hlt; simpl in Hlt.
  rewrite !Z.compare_refl in Hlt. discriminate.
Qed.

Lemma SFleb_refl (a : spec_float) : F64.is_nan a = false -> SFleb a a = true.
Proof.
  intros Ha. apply SFltb_false_leb; try assumption.
  unfold SFltb. rewrite (SFcompare_rank a a Ha Ha).
  destruct (rank a) as [x1 [x2 x3]]. unfold lex; simpl. now rewrite !Z.compare_refl.
Qed.

Lemma SFleb_total (a b : spec_float) :
  F64.is_nan a = false -> F64.is_nan b = false -> SFleb a b = false -> SFleb b a = true.
Proof.
  intros Ha Hb H. apply SFltb_false_leb; try assumption.
  destruct (SFltb a b) eqn:Hlt; [|reflexivity].
  apply SFltb_leb in Hlt. congruence.
Qed.

(** ** Local engine: normalisation *)

Lemma map_pixels_ext (f g : float32 -> float32) (a : image) :
  (forall x, f x = g x) -> map_pixels f a = map_pixels g a.
Proof.
  intros H. unfold map_pixels.
  apply map_ext; intros row. apply map_ext; intros px. now apply map_ext.
Qed.

(** C3, amended: every pixel is normalised by the dual-mode rule, except
    that in the first mode ([std >= 10] and [0 < mean < 1]) the divisor is
    [max(mean, 1e-6)]: [(pixel/std - mean) / mean] when the mean is at least
    [1e-6], and [(pixel/std - mean) / 1e-6] below; in every other case
    [(pixel - mean) / std]. *)
Theorem normalize_image_floored (mean std : float64) (image_array : image) :
  normalize_image mean std image_array
  = map_pixels (floored_normalize_pixel mean std) image_array.
Proof.
  unfold normalize_image, floored_normalize_pixel, spec_normalize_pixel.
  destruct (F64.ge std F64.ten && (F64.lt F64.zero mean && F64.lt mean F64.one))%bool;
    cbn [andb]; [|reflexivity].
  apply map_pixels_ext; intros x.
  unfold py_max, F64.gt, F64.lt.
  destruct (SFltb mean F64.micro); reflexivity.
Qed.

(** Where the mean is not below [1e-6], the code follows the rule as the
    specification words it. *)
Lemma normalize_image_as_specified (mean std : float64) (image_array : image) :
  F64.lt mean F64.micro = false ->
  normalize_image mean std image_array
  = map_pixels (spec_normalize_pixel mean std) image_array.
Proof.
  intros H. unfold normalize_image, spec_normalize_pixel.
  destruct (F64.ge std F64.ten && (F64.lt F64.zero mean && F64.lt mean F64.one))%bool;
    [|reflexivity].
  apply map_pixels_ext; intros x.
  unfold py_max, F64.gt. unfold F64.lt in H. now rewrite H.
Qed.

(** C3 as stated fails: with [std = 16] and [mean = 2^-20] (below [1e-6]) the
    pixel value 16 is divided by [1e-6], not by the mean. *)
Lemma small_mean_divides_by_floor :
  normalize_image (S754_finite false 4503599627370496 (-72)) (F64.of_Z 16)
    [[[F32.of_Z 16]]]
  <> map_pixels
       (spec_normalize_pixel (S754_finite false 4503599627370496 (-72)) (F64.of_Z 16))
       [[[F32.of_Z 16]]].
Proof. vm_compute. discriminate. Qed.

(** ** Local engine: softmax *)

Section Softmax.
Variable exp_finite : float32 -> float32.
Variable np_sum : list float32 -> float32.

Abbreviation softmax_run := (_softmax_run exp_finite np_sum).
Abbreviation softmax := (_softmax exp_finite np_sum).

Lemma fold_np_maximum_in (xs : list float32) (x : float32) :
  In (fold_left np_maximum xs x) (x :: xs).
Proof.
  revert x; induction xs as [|y xs IH]; intros x; simpl.
  - now left.
  - destruct (IH (np_maximum x y)) as [H|H]; [|now right; right].
    rewrite <- H. unfold np_maximum.
    destruct (F32.ge x y || F32.is_nan x)%bool; [now left | now right; left].
Qed.

(** Without NaN among the logits the result of [np.max] is at least every
    logit. *)
Lemma fold_np_maximum_ge (xs : list float32) :
  forall x,
    F32.is_nan x = false -> Forall (fun y => F32.is_nan y = false) xs ->
    F32.is_nan (fold_left np_maximum xs x) = false
    /\ F32.le x (fold_left np_maximum xs x) = true
    /\ Forall (fun y => F32.le y (fold_left np_maximum xs x) = true) xs.
Proof.
  induction xs as [|y xs IH]; intros x Hx Hxs; simpl.
  - split; [exact Hx|]. split; [now apply SFleb_refl | constructor].
  - inversion Hxs as [|? ? Hy Hxs']; subst.
    assert (Hm : F32.is_nan (np_maximum x y) = false
                 /\ F32.le x (np_maximum x y) = true
                 /\ F32.le y (np_maximum x y) = true).
    { unfold np_maximum, F32.ge, F32.le.
      replace (F32.is_nan x) with false by (symmetry; exact Hx). rewrite orb_false_r.
      destruct (SFleb y x) eqn:Hle.
      - split; [exact Hx|]. split; [now apply SFleb_refl | exact Hle].
      - split; [exact Hy|]. split; [now apply SFleb_total | now apply SFleb_refl]. }
    destruct Hm as (Hn & Hxm & Hym).
    destruct (IH (np_maximum x y) Hn Hxs') as (Hn' & Hle' & Hall).
    split; [exact Hn'|].
    split; [eapply SFleb_trans; eassumption|].
    constructor; [eapply SFleb_trans; eassumption | exact Hall].
Qed.

Lemma le_zero_of_zero (d : float32) :
  F32.is_zero d = true -> F32.le d F32.zero = true.
Proof. destruct d; simpl; try discriminate. reflexivity. Qed.

(** C7, amended: on every non-empty logits vector [_softmax] returns: it
    takes the maximum [m] of the vector (one of its elements, and at least
    every element when none is NaN), exponentiates the differences to [m],
    and sums them; when the sum is [<= 0] the result
    is the all-zero vector and nothing is divided; otherwise every
    exponential is divided by the sum, which is then not a zero.  The result
    has the length of the input. *)
Theorem softmax_total_on_nonempty (logits : list float32) :
  logits <> [] ->
  exists m probs divisors,
    np_max logits = Ok m /\ In m logits
    /\ (Forall (fun y => F32.is_nan y = false) logits ->
        Forall (fun y => F32.le y m = true) logits)
    /\ softmax_run logits = Ok (probs, divisors)
    /\ softmax logits = Ok probs
    /\ List.length probs = List.length logits
    /\ Forall (fun d => F32.is_zero d = false) divisors
    /\ let exp_values := map (np_exp exp_finite) (map (fun x => F32.sub x m) logits) in
       let denominator := np_sum exp_values in
       if F32.le denominator F32.zero
       then probs = repeat F32.zero (List.length logits) /\ divisors = []
       else probs = map (fun x => F32.div x denominator) exp_values
            /\ divisors = [denominator].
Proof.
  intros Hne. destruct logits as [|x xs]; [congruence|].
  set (logits := x :: xs).
  set (m := fold_left np_maximum xs x).
  set (exps := map (np_exp exp_finite) (map (fun y => F32.sub y m) logits)).
  assert (Hrun : softmax_run logits =
                 if F32.le (np_sum exps) F32.zero
                 then Ok (map (fun _ => F32.zero) logits, [])
                 else Ok (map (fun y => F32.div y (np_sum exps)) exps, [np_sum exps]))
    by reflexivity.
  assert (Hin : In m logits) by apply fold_np_maximum_in.
  assert (Hmax : Forall (fun y => F32.is_nan y = false) logits ->
                 Forall (fun y => F32.le y m = true) logits).
  { intros Hn. inversion Hn as [|? ? Hx Hxs]; subst.
    destruct (fold_np_maximum_ge xs x Hx Hxs) as (_ & H1 & H2). now constructor. }
  destruct (F32.le (np_sum exps) F32.zero) eqn:Hle.
  - exists m, (map (fun _ => F32.zero) logits), [].
    repeat split; auto.
    + unfold _softmax. fold softmax_run. now rewrite Hrun.
    + now rewrite length_map.
    + cbv zeta. fold logits m exps. rewrite Hle. split; [|reflexivity].
      clear. induction logits; simpl; congruence.
  - exists m, (map (fun y => F32.div y (np_sum exps)) exps), [np_sum exps].
    repeat split; auto.
    + unfold _softmax. fold softmax_run. now rewrite Hrun.
    + unfold exps. now rewrite !length_map.
    + constructor; [|constructor].
      destruct (F32.is_zero (np_sum exps)) eqn:Hz; [|reflexivity].
      apply le_zero_of_zero in Hz. congruence.
    + cbv zeta. fold logits m exps. rewrite Hle. now split.
Qed.

End Softmax.

(** C7 at the logits [[1; 1; 1]]. *)
Lemma softmax_total_on_nonempty_witness :
  for_every_numpy (fun exp_finite np_sum =>
    exists probs, _softmax exp_finite np_sum [F32.one; F32.one; F32.one] = Ok probs
                  /\ List.length probs = 3%nat).
Proof.
  intros exp_finite np_sum.
  destruct (softmax_total_on_nonempty exp_finite np_sum [F32.one; F32.one; F32.one])
    as (m & probs & divisors & _ & _ & _ & _ & Hs & Hl & _).
  - discriminate.
  - exists probs. split; [exact Hs | exact Hl].
Defined.

(** C7 as stated fails: on the empty vector the maximum does not exist and
    [_softmax] raises instead of returning. *)
Lemma softmax_of_empty_raises :
  for_every_numpy (fun exp_finite np_sum =>
    _softmax exp_finite np_sum []
    = Raise (ValueError
               "zero-size array to reduction operation maximum which has no identity")).
Proof. intros exp_finite np_sum. reflexivity. Qed.

(** A NaN among the logits is the maximum. *)
Lemma np_maximum_nan_l (b : float32) : np_maximum S754_nan b = S754_nan.
Proof. unfold np_maximum. cbn. now rewrite orb_true_r. Qed.

Lemma fold_np_maximum_nan_start (xs : list float32) :
  fold_left np_maximum xs S754_nan = S754_nan.
Proof. induction xs as [|x xs IH]; simpl; [reflexivity|]. now rewrite np_maximum_nan_l. Qed.

Lemma fold_np_maximum_nan (xs : list float32) (x : float32) :
  In S754_nan (x :: xs) -> fold_left np_maximum xs x = S754_nan.
Proof.
  revert x. induction xs as [|y xs IH]; intros x [Hx | Hin].
  - now subst.
  - contradiction.
  - subst. apply fold_np_maximum_nan_start.
  - simpl. apply IH. unfold np_maximum.
    destruct Hin as [-> | Hin].
    + left. destruct x; reflexivity.
    + right. exact Hin.
Qed.

Lemma sub_nan (x : float32) : F32.sub x S754_nan = S754_nan.
Proof. destruct x; reflexivity. Qed.

(** ** Rounding: the number of binary digits *)

Lemma pow2_succ_pred (d : Z) : 0 < d -> 2 ^ (Z.succ d - 1) = 2 * 2 ^ (d - 1).
Proof. intros Hd. rewrite <- Z.pow_succ_r by lia. f_equal. lia. Qed.

Lemma digits2_pos_bounds (p : positive) :
  2 ^ (Zpos (digits2_pos p) - 1) <= Zpos p < 2 ^ Zpos (digits2_pos p).
Proof.
  induction p as [p IH|p IH|]; cbn [digits2_pos].
  - rewrite Pos2Z.inj_succ, Pos2Z.inj_xI.
    rewrite (pow2_succ_pred (Zpos (digits2_pos p))) by lia.
    rewrite (Z.pow_succ_r 2 (Zpos (digits2_pos p))) by lia.
    revert IH. generalize (2 ^ (Zpos (digits2_pos p) - 1)) (2 ^ Zpos (digits2_pos p)). lia.
  - rewrite Pos2Z.inj_succ. change (Zpos p~0) with (2 * Zpos p).
    rewrite (pow2_succ_pred (Zpos (digits2_pos p))) by lia.
    rewrite (Z.pow_succ_r 2 (Zpos (digits2_pos p))) by lia.
    revert IH. generalize (2 ^ (Zpos (digits2_pos p) - 1)) (2 ^ Zpos (digits2_pos p)). lia.
  - simpl. lia.
Qed.

Lemma Zdigits2_nonneg (m : Z) : 0 <= Zdigits2 m.
Proof. destruct m; simpl; lia. Qed.

Lemma Zdigits2_bounds (m : Z) :
  0 < m -> 2 ^ (Zdigits2 m - 1) <= m < 2 ^ Zdigits2 m.
Proof. destruct m; try lia. intros _. apply digits2_pos_bounds. Qed.

(** A number below [2^k] has at most [k] digits. *)
Lemma Zdigits2_le (m k : Z) : 0 <= m -> 0 <= k -> m < 2 ^ k -> Zdigits2 m <= k.
Proof.
  intros Hm Hk Hlt. destruct (Z.eq_dec m 0) as [->|Hne]; [simpl; lia|].
  destruct (Zdigits2_bounds m ltac:(lia)) as [Hlo _].
  destruct (Z_le_gt_dec (Zdigits2 m) k) as [|Hgt]; [assumption|].
  assert (2 ^ k <= 2 ^ (Zdigits2 m - 1)) by (apply Z.pow_le_mono_r; lia). lia.
Qed.

(** A number from [2^(k-1)] on has at least [k] digits. *)
Lemma Zdigits2_ge (m k : Z) : 0 < k -> 2 ^ (k - 1) <= m -> k <= Zdigits2 m.
Proof.
  intros Hk Hle.
  assert (Hm : 0 < m) by (pose proof (Z.pow_pos_nonneg 2 (k - 1)); lia).
  destruct (Zdigits2_bounds m Hm) as [_ Hhi].
  destruct (Z_le_gt_dec k (Zdigits2 m)) as [|Hgt]; [assumption|].
  assert (2 ^ Zdigits2 m <= 2 ^ (k - 1))
    by (apply Z.pow_le_mono_r; pose proof (Zdigits2_nonneg m); lia). lia.
Qed.

(** ** Rounding: shifting right *)

Lemma shr_1_spec (mrs : shr_record) :
  0 <= shr_m mrs ->
  shr_m (shr_1 mrs) = shr_m mrs / 2
  /\ shr_r (shr_1 mrs) = Z.odd (shr_m mrs)
  /\ shr_s (shr_1 mrs) = (shr_r mrs || shr_s mrs)%bool.
Proof.
  destruct mrs as [m r s]; simpl. intros Hm.
  rewrite <- Z.div2_div.
  destruct m as [|[p|p|]|p]; try lia; repeat split; reflexivity.
Qed.

Lemma iter_pos_invariant {A : Type} (f : A -> A) (P : Z -> A -> Prop) :
  (forall k x, 0 <= k -> P k x -> P (k + 1) (f x)) ->
  forall p k x, 0 <= k -> P k x -> P (k + Zpos p) (iter_pos f p x).
Proof.
  intros Hstep. induction p as [p IH|p IH|]; intros k x Hk Hx; cbn [iter_pos].
  - replace (k + Zpos p~1) with (k + 1 + Zpos p + Zpos p) by lia.
    apply IH; [lia|]. apply IH; [lia|]. now apply Hstep.
  - replace (k + Zpos p~0) with (k + Zpos p + Zpos p) by lia.
    apply IH; [lia|]. now apply IH.
  - now apply Hstep.
Qed.

Lemma shifted_step (m0 : Z) (exact0 : bool) (k : Z) (mrs : shr_record) :
  0 <= m0 -> 0 <= k -> shifted m0 exact0 k mrs -> shifted m0 exact0 (k + 1) (shr_1 mrs).
Proof.
  intros Hm0 Hk [Hm Hex].
  assert (Hpow : 0 < 2 ^ k) by (apply Z.pow_pos_nonneg; lia).
  assert (Hnn : 0 <= shr_m mrs) by (rewrite Hm; apply Z.div_pos; lia).
  destruct (shr_1_spec mrs Hnn) as (H1 & H2 & H3).
  unfold shifted. rewrite Z.pow_add_r by lia. change (2 ^ 1) with 2.
  split.
  - rewrite H1, Hm. rewrite Z.div_div by lia. reflexivity.
  - intros He Hmod. rewrite H2, H3.
    assert (Hdiv : m0 = 2 ^ k * 2 * (m0 / (2 ^ k * 2))).
    { pose proof (Z.div_mod m0 (2 ^ k * 2) ltac:(lia)). lia. }
    assert (Hmodk : m0 mod 2 ^ k = 0).
    { rewrite Hdiv. replace (2 ^ k * 2 * (m0 / (2 ^ k * 2)))
        with ((2 * (m0 / (2 ^ k * 2))) * 2 ^ k) by lia.
      apply Z.mod_mul. lia. }
    destruct (Hex He Hmodk) as [-> ->]. split; [|reflexivity].
    rewrite Hm. rewrite Hdiv at 1.
    replace (2 ^ k * 2 * (m0 / (2 ^ k * 2))) with ((2 * (m0 / (2 ^ k * 2))) * 2 ^ k) by lia.
    rewrite Z.div_mul by lia. rewrite Z.odd_mul. reflexivity.
Qed.

Lemma loc_of_shr_record_exact (mrs : shr_record) :
  shr_r mrs = false -> shr_s mrs = false -> loc_of_shr_record mrs = loc_Exact.
Proof. destruct mrs as [m r s]; simpl. intros -> ->. reflexivity. Qed.

Lemma shr_record_of_loc_m (m : Z) (l : location) : shr_m (shr_record_of_loc m l) = m.
Proof. destruct l as [|[]]; reflexivity. Qed.

Lemma shr_record_of_loc_exact (m : Z) (l : location) :
  loc_exact l = true ->
  shr_r (shr_record_of_loc m l) = false /\ shr_s (shr_record_of_loc m l) = false.
Proof. destruct l as [|[]]; simpl; intros; try discriminate; auto. Qed.

(** [shr] by [n] places, [n <= 0] meaning none. *)
Lemma shr_spec (m : Z) (l : location) (e n : Z) :
  0 <= m ->
  exists mrs,
    shr (shr_record_of_loc m l) e n = (mrs, e + Z.max 0 n)
    /\ shr_m mrs = m / 2 ^ (Z.max 0 n)
    /\ (loc_exact l = true -> m mod 2 ^ (Z.max 0 n) = 0 ->
        loc_of_shr_record mrs = loc_Exact).
Proof.
  intros Hm. destruct n as [|p|p]; simpl shr.
  - exists (shr_record_of_loc m l). rewrite Z.add_0_r. simpl Z.max.
    rewrite Z.pow_0_r, Z.div_1_r, shr_record_of_loc_m. repeat split.
    intros Hl _. destruct (shr_record_of_loc_exact m l Hl).
    now apply loc_of_shr_record_exact.
  - exists (iter_pos shr_1 p (shr_record_of_loc m l)).
    replace (Z.max 0 (Zpos p)) with (Zpos p) by lia.
    assert (H : shifted m (loc_exact l) (0 + Zpos p)
                  (iter_pos shr_1 p (shr_record_of_loc m l))).
    { apply (iter_pos_invariant shr_1 (shifted m (loc_exact l))); [|lia|].
      - intros k x Hk. now apply shifted_step.
      - split; [now rewrite Z.pow_0_r, Z.div_1_r, shr_record_of_loc_m|].
        intros Hl _. now apply shr_record_of_loc_exact. }
    rewrite Z.add_0_l in H. destruct H as [H1 H2]. repeat split; [exact H1|].
    intros Hl Hmod. destruct (H2 Hl Hmod). now apply loc_of_shr_record_exact.
  - exists (shr_record_of_loc m l). rewrite Z.add_0_r. simpl Z.max.
    rewrite Z.pow_0_r, Z.div_1_r, shr_record_of_loc_m. repeat split.
    intros Hl _. destruct (shr_record_of_loc_exact m l Hl).
    now apply loc_of_shr_record_exact.
Qed.

Lemma round_nearest_even_bounds (m : Z) (l : location) :
  m <= round_nearest_even m l <= m + 1
  /\ (l = loc_Exact -> round_nearest_even m l = m).
Proof.
  destruct l as [|[]]; simpl; try (split; [lia | congruence]).
  destruct (Z.even m); split; try lia; congruence.
Qed.

(** ** Rounding: a representable upper bound is kept *)

Section Rounding.
Variables prec emax : Z.
Hypothesis Hprec : 0 < prec.

Lemma fexp_mono (e1 e2 : Z) : e1 <= e2 -> fexp prec emax e1 <= fexp prec emax e2.
Proof. unfold fexp. lia. Qed.

Lemma shr_fexp_spec (m e : Z) (l : location) :
  0 <= m ->
  exists mrs,
    shr_fexp prec emax m e l
    = (mrs, e + Z.max 0 (fexp prec emax (Zdigits2 m + e) - e))
    /\ shr_m mrs = m / 2 ^ (Z.max 0 (fexp prec emax (Zdigits2 m + e) - e))
    /\ (loc_exact l = true ->
        m mod 2 ^ (Z.max 0 (fexp prec emax (Zdigits2 m + e) - e)) = 0 ->
        loc_of_shr_record mrs = loc_Exact).
Proof. intros Hm. unfold shr_fexp. now apply shr_spec. Qed.

Lemma bounded_canonical (mb : positive) (eb : Z) :
  bounded prec emax mb eb = true ->
  fexp prec emax (Zpos (digits2_pos mb) + eb) = eb /\ eb <= emax - prec.
Proof.
  unfold bounded, canonical_mantissa. rewrite andb_true_iff, Z.eqb_eq, Z.leb_le. tauto.
Qed.

Lemma SFleb_finite_pos (m1 m2 : positive) (e1 e2 : Z) :
  e1 < e2 \/ (e1 = e2 /\ Zpos m1 <= Zpos m2) ->
  SFleb (S754_finite false m1 e1) (S754_finite false m2 e2) = true.
Proof.
  unfold SFleb, SFcompare. intros [Hlt | [-> Hle]].
  - apply Z.compare_lt_iff in Hlt. now rewrite Hlt.
  - rewrite Z.compare_refl. change (Pos.compare_cont Eq m1 m2) with (m1 ?= m2)%positive.
    destruct (Pos.compare_spec m1 m2); try reflexivity. lia.
Qed.

(** The magnitude bound behind every comparison of exponents: a number
    that is at most [mb * 2^g] has at most [digits mb + g] digits. *)
Lemma digits_le_of_bound (m g : Z) (mb : positive) :
  0 <= m -> 0 <= g -> m <= Zpos mb * 2 ^ g ->
  Zdigits2 m <= Zpos (digits2_pos mb) + g.
Proof.
  intros Hm Hg Hle. apply Zdigits2_le; [assumption | lia |].
  rewrite Z.pow_add_r by lia.
  pose proof (digits2_pos_bounds mb) as [_ Hhi].
  assert (0 < 2 ^ g) by (apply Z.pow_pos_nonneg; lia).
  nia.
Qed.

Lemma binary_round_aux_le (M E : Z) (l : location) (mb : positive) (eb : Z) :
  0 <= M ->
  E <= fexp prec emax (Zdigits2 M + E) ->
  E <= eb ->
  bounded prec emax mb eb = true ->
  M + (if loc_exact l then 0 else 1) <= Zpos mb * 2 ^ (eb - E) ->
  SFleb (binary_round_aux prec emax false M E l) (S754_finite false mb eb) = true.
Proof.
  intros HM HE HEb Hb Hval.
  destruct (bounded_canonical mb eb Hb) as [Hcan Hmax].
  set (db := Zpos (digits2_pos mb)) in *.
  assert (HMle : M <= Zpos mb * 2 ^ (eb - E)) by (destruct (loc_exact l); lia).
  (* first shift *)
  set (e1 := fexp prec emax (Zdigits2 M + E)) in *.
  assert (He1 : e1 <= eb).
  { rewrite <- Hcan. apply fexp_mono.
    pose proof (digits_le_of_bound M (eb - E) mb HM ltac:(lia) HMle). fold db in H. lia. }
  destruct (shr_fexp_spec M E l HM) as (mrs1 & Hs1 & Hm1 & Hex1).
  fold e1 in Hs1, Hm1, Hex1.
  replace (Z.max 0 (e1 - E)) with (e1 - E) in * by lia.
  replace (E + (e1 - E)) with e1 in Hs1 by lia.
  set (n1 := e1 - E) in *.
  assert (Hpn1 : 0 < 2 ^ n1) by (apply Z.pow_pos_nonneg; lia).
  set (K1 := Zpos mb * 2 ^ (eb - e1)).
  assert (HK1 : Zpos mb * 2 ^ (eb - E) = K1 * 2 ^ n1).
  { unfold K1, n1. rewrite <- Z.mul_assoc, <- Z.pow_add_r by lia. do 2 f_equal. lia. }
  rewrite HK1 in Hval, HMle.
  set (m1 := shr_m mrs1) in *.
  assert (Hm1lo : 0 <= m1) by (rewrite Hm1; apply Z.div_pos; lia).
  assert (Hm1M : m1 * 2 ^ n1 <= M).
  { rewrite Hm1, Z.mul_comm. apply Z.mul_div_le. lia. }
  assert (Hm1K : m1 <= K1).
  { rewrite Hm1. apply Z.div_le_upper_bound; lia. }
  set (m2 := round_nearest_even m1 (loc_of_shr_record mrs1)).
  assert (Hm2 : 0 <= m2 <= K1).
  { destruct (round_nearest_even_bounds m1 (loc_of_shr_record mrs1)) as [Hb2 Hex2].
    fold m2 in Hb2, Hex2. split; [lia|].
    destruct (Z.eq_dec m1 K1) as [Heq|Hne]; [|lia].
    assert (HMeq : M = m1 * 2 ^ n1) by (destruct (loc_exact l); nia).
    rewrite Hex2; [lia|]. apply Hex1.
    - destruct (loc_exact l); [reflexivity | nia].
    - rewrite HMeq. apply Z.mod_mul. lia. }
  (* second shift *)
  destruct (shr_fexp_spec m2 e1 loc_Exact (proj1 Hm2)) as (mrs2 & Hs2 & Hm3 & _).
  set (n2 := Z.max 0 (fexp prec emax (Zdigits2 m2 + e1) - e1)) in *.
  assert (Hpn2 : 0 < 2 ^ n2) by (apply Z.pow_pos_nonneg; lia).
  assert (He3 : e1 + n2 <= eb).
  { destruct (Z.eq_dec n2 0) as [->|Hn2]; [lia|].
    replace (e1 + n2) with (fexp prec emax (Zdigits2 m2 + e1)) by lia.
    rewrite <- Hcan. apply fexp_mono.
    pose proof (digits_le_of_bound m2 (eb - e1) mb (proj1 Hm2) ltac:(lia) (proj2 Hm2)).
    fold db in H. lia. }
  unfold binary_round_aux. rewrite Hs1. fold m1 m2. rewrite Hs2.
  assert (Hm3lo : 0 <= shr_m mrs2) by (rewrite Hm3; apply Z.div_pos; lia).
  destruct (shr_m mrs2) as [|q|q] eqn:Hq; [reflexivity | | lia].
  replace (e1 + n2 <=? emax - prec) with true by (symmetry; apply Z.leb_le; lia).
  apply SFleb_finite_pos.
  destruct (Z.eq_dec (e1 + n2) eb) as [Heq|Hne]; [right | left; lia].
  split; [assumption|].
  rewrite Hm3. apply Z.div_le_upper_bound; [lia|].
  assert (HK : K1 = Zpos mb * 2 ^ n2) by (unfold K1; do 2 f_equal; lia).
  destruct Hm2 as [_ Hm2]. rewrite HK in Hm2. lia.
Qed.

(** Rounding a non-negative mantissa never gives NaN and never a negative
    number. *)
Lemma binary_round_aux_nonneg (M E : Z) (l : location) :
  0 <= M -> SFleb (S754_zero false) (binary_round_aux prec emax false M E l) = true.
Proof.
  intros HM.
  destruct (shr_fexp_spec M E l HM) as (mrs1 & Hs1 & Hm1 & _).
  set (m2 := round_nearest_even (shr_m mrs1) (loc_of_shr_record mrs1)).
  assert (Hm2 : 0 <= m2).
  { pose proof (round_nearest_even_bounds (shr_m mrs1) (loc_of_shr_record mrs1)) as [Hb2 _].
    fold m2 in Hb2.
    assert (0 <= shr_m mrs1); [|lia].
    rewrite Hm1. apply Z.div_pos; [lia|]. apply Z.pow_pos_nonneg; lia. }
  destruct (shr_fexp_spec m2 (E + Z.max 0 (fexp prec emax (Zdigits2 M + E) - E))
              loc_Exact Hm2) as (mrs2 & Hs2 & Hm3 & _).
  unfold binary_round_aux. rewrite Hs1. fold m2. rewrite Hs2.
  assert (Hm3lo : 0 <= shr_m mrs2).
  { rewrite Hm3. apply Z.div_pos; [lia|]. apply Z.pow_pos_nonneg; lia. }
  destruct (shr_m mrs2) as [|q|q]; [reflexivity | | lia].
  match goal with |- context [if ?c then _ else _] => destruct c end; reflexivity.
Qed.

End Rounding.

(** ** binary64: products and quotients by one hundred *)

Lemma fexp64 (e : Z) : fexp 53 1024 e = Z.max (e - 53) (-1074).
Proof. reflexivity. Qed.

Lemma valid_finite_digits (s : bool) (m : positive) (e : Z) :
  valid_binary 53 1024 (S754_finite s m e) = true ->
  Zpos m < 2 ^ 53 /\ -1074 <= e /\ (-1074 < e -> 2 ^ 52 <= Zpos m).
Proof.
  intros Hv. apply (bounded_canonical 53 1024) in Hv. destruct Hv as [Hc _].
  rewrite fexp64 in Hc.
  pose proof (digits2_pos_bounds m) as [Hlo Hhi].
  assert (Hd : Zpos (digits2_pos m) <= 53) by lia.
  repeat split.
  - assert (2 ^ Zpos (digits2_pos m) <= 2 ^ 53) by (apply Z.pow_le_mono_r; lia). lia.
  - lia.
  - intros He. assert (Hd' : Zpos (digits2_pos m) = 53) by lia.
    rewrite Hd' in Hlo. exact Hlo.
Qed.

Lemma SFleb_finite_inv (m1 m2 : positive) (e1 e2 : Z) :
  SFleb (S754_finite false m1 e1) (S754_finite false m2 e2) = true ->
  e1 < e2 \/ (e1 = e2 /\ Zpos m1 <= Zpos m2).
Proof.
  unfold SFleb, SFcompare.
  change (Pos.compare_cont Eq m1 m2) with (m1 ?= m2)%positive.
  destruct (Z.compare_spec e1 e2); try discriminate; [|auto].
  destruct (Pos.compare_spec m1 m2); try discriminate; intros _; right; split; lia.
Qed.

Lemma SFltb_finite_inv (m1 m2 : positive) (e1 e2 : Z) :
  SFltb (S754_finite false m1 e1) (S754_finite false m2 e2) = true ->
  e1 < e2 \/ (e1 = e2 /\ Zpos m1 < Zpos m2).
Proof.
  unfold SFltb, SFcompare.
  change (Pos.compare_cont Eq m1 m2) with (m1 ?= m2)%positive.
  destruct (Z.compare_spec e1 e2); try discriminate; [|auto].
  destruct (Pos.compare_spec m1 m2); try discriminate; intros _; right; split; lia.
Qed.

(** A score in [0, 1] times 100 is a percentage in [0, 100]. *)
Lemma mul_hundred_bounds (c : spec_float) :
  valid_binary 53 1024 c = true ->
  SFleb (S754_zero false) c = true -> SFleb c F64.one = true ->
  SFleb (S754_zero false) (SFmul 53 1024 c F64.hundred) = true
  /\ SFleb (SFmul 53 1024 c F64.hundred) F64.hundred = true.
Proof.
  intros Hv H0 H1. destruct c as [s|s| |s m e]; try discriminate.
  - split; reflexivity.
  - destruct s; discriminate.
  - destruct s; [discriminate|].
    destruct (valid_finite_digits false m e Hv) as (Hm & He & _).
    apply SFleb_finite_inv in H1.
    unfold SFmul, F64.hundred. cbn [xorb].
    assert (H252 : 2 ^ 52 = 4503599627370496) by reflexivity.
    assert (H253 : 2 ^ 53 = 9007199254740992) by reflexivity.
    split.
    + apply binary_round_aux_nonneg; lia.
    + apply binary_round_aux_le; try lia; try reflexivity.
      * rewrite fexp64.
        assert (53 <= Zdigits2 (Zpos (m * 7036874417766400))); [|lia].
        apply Zdigits2_ge; [lia|]. change (2 ^ (53 - 1)) with 4503599627370496. lia.
      * cbn [loc_exact]. replace (-46 - (e + -46)) with (- e) by lia.
        rewrite Pos2Z.inj_mul.
        assert (Zpos m <= 2 ^ (- e)); [|nia].
        destruct H1 as [Hlt | [-> Hle]]; [|change (2 ^ (- -52)) with 4503599627370496; lia].
        assert (2 ^ 53 <= 2 ^ (- e)) by (apply Z.pow_le_mono_r; lia). lia.
Qed.

Lemma new_location_exact (nb k : Z) : loc_exact (new_location nb k) = (k =? 0).
Proof.
  unfold new_location, new_location_even, new_location_odd.
  destruct (Z.even nb), (k =? 0); reflexivity.
Qed.

(** A percentage in (1, 100] over 100 is a score in [0, 1]. *)
Lemma div_hundred_bounds (p : spec_float) :
  valid_binary 53 1024 p = true ->
  SFltb F64.one p = true -> SFleb p F64.hundred = true ->
  SFleb (S754_zero false) (SFdiv 53 1024 p F64.hundred) = true
  /\ SFleb (SFdiv 53 1024 p F64.hundred) F64.one = true.
Proof.
  intros Hv H1 H100. destruct p as [s|s| |s m e]; try discriminate.
  { destruct s; discriminate. }
  destruct s; [discriminate|].
  destruct (valid_finite_digits false m e Hv) as (Hm & He & Hn).
  apply SFltb_finite_inv in H1. apply SFleb_finite_inv in H100.
  assert (H252 : 2 ^ 52 = 4503599627370496) by reflexivity.
  assert (H253 : 2 ^ 53 = 9007199254740992) by reflexivity.
  assert (Hlo : 2 ^ 52 <= Zpos m) by (apply Hn; lia).
  assert (Hd : Zdigits2 (Zpos m) = 53).
  { apply Z.le_antisymm; [apply Zdigits2_le; lia | apply Zdigits2_ge; [lia|exact Hlo]]. }
  assert (Hrange : -52 <= e <= -46) by lia.
  unfold SFdiv, F64.hundred, SFdiv_core_binary. cbn [xorb]. rewrite Hd.
  change (Zdigits2 7036874417766400) with 53.
  replace (Z.min (fexp 53 1024 (53 + e - (53 + -46))) (e - -46)) with (e - 7)
    by (rewrite fexp64; lia).
  replace (e - -46 - (e - 7)) with 53 by lia.
  rewrite Z.shiftl_mul_pow2 by lia. rewrite H253.
  pose proof (Z_div_mod (Zpos m * 9007199254740992) 7036874417766400 ltac:(lia)) as Hdm.
  destruct (Z.div_eucl (Zpos m * 9007199254740992) 7036874417766400) as [q r].
  destruct Hdm as [Hq Hr].
  assert (Hq0 : 2 ^ 52 <= q) by (rewrite H252; nia).
  assert (Hq1 : q < 2 ^ 54) by (change (2 ^ 54) with 18014398509481984; nia).
  split.
  - apply binary_round_aux_nonneg; lia.
  - unfold F64.one. apply binary_round_aux_le; try lia; try reflexivity.
    + rewrite fexp64. assert (53 <= Zdigits2 q); [|lia].
      apply Zdigits2_ge; [lia | exact Hq0].
    + rewrite new_location_exact.
      replace (-52 - (e - 7)) with (-45 - e) by lia.
      destruct (Z.eq_dec e (-46)) as [->|Hne].
      * change (2 ^ (-45 - -46)) with 2.
        destruct H100 as [Hlt | [_ Hle]]; [lia|].
        destruct (Z.eqb_spec r 0); nia.
      * assert (2 ^ 2 <= 2 ^ (-45 - e)) by (apply Z.pow_le_mono_r; lia).
        change (2 ^ 2) with 4 in *. change (2 ^ 54) with 18014398509481984 in Hq1.
        destruct (r =? 0); nia.
Qed.

(** ** Rounding gives well-formed floats *)

Lemma Zdigits2_unique (m d : Z) : 0 < d -> 2 ^ (d - 1) <= m < 2 ^ d -> Zdigits2 m = d.
Proof.
  intros Hd [Hlo Hhi]. apply Z.le_antisymm.
  - pose proof (Z.pow_pos_nonneg 2 (d - 1)). apply Zdigits2_le; lia.
  - now apply Zdigits2_ge.
Qed.

(** Dropping [n] low digits of a number of more than [n] digits. *)
Lemma Zdigits2_shift (m n : Z) :
  0 < m -> 0 <= n < Zdigits2 m -> Zdigits2 (m / 2 ^ n) = Zdigits2 m - n.
Proof.
  intros Hm Hn. destruct (Zdigits2_bounds m Hm) as [Hlo Hhi].
  assert (Hp : 0 < 2 ^ n) by (apply Z.pow_pos_nonneg; lia).
  apply Zdigits2_unique; [lia|]. split.
  - apply Z.div_le_lower_bound; [lia|].
    rewrite <- Z.pow_add_r by lia. replace (n + (Zdigits2 m - n - 1)) with (Zdigits2 m - 1) by lia.
    exact Hlo.
  - apply Z.div_lt_upper_bound; [lia|].
    rewrite <- Z.pow_add_r by lia. replace (n + (Zdigits2 m - n)) with (Zdigits2 m) by lia.
    exact Hhi.
Qed.

Lemma Zdigits2_mono (a b : Z) : 0 <= a <= b -> Zdigits2 a <= Zdigits2 b.
Proof.
  intros [Ha Hab]. destruct (Z.eq_dec a 0) as [->|Hne]; [apply Zdigits2_nonneg|].
  destruct (Zdigits2_bounds a ltac:(lia)) as [Hlo _].
  apply Zdigits2_ge; try lia.
  all: destruct a; simpl; lia.
Qed.

Section Validity.
Variables prec emax : Z.
Hypothesis Hprec : 0 < prec.

Lemma binary_round_aux_valid (s : bool) (M E : Z) (l : location) :
  0 <= M ->
  E <= fexp prec emax (Zdigits2 M + E) ->
  valid_binary prec emax (binary_round_aux prec emax s M E l) = true.
Proof.
  intros HM HE.
  set (d := Zdigits2 M) in *.
  set (e1 := fexp prec emax (d + E)) in *.
  assert (Hemin : emin prec emax <= e1) by (unfold e1, fexp; lia).
  destruct (shr_fexp_spec prec emax M E l HM) as (mrs1 & Hs1 & Hm1 & _).
  fold d e1 in Hs1, Hm1.
  replace (Z.max 0 (e1 - E)) with (e1 - E) in * by lia.
  replace (E + (e1 - E)) with e1 in Hs1 by lia.
  set (n1 := e1 - E) in *.
  assert (Hpn1 : 0 < 2 ^ n1) by (apply Z.pow_pos_nonneg; lia).
  set (m1 := shr_m mrs1) in *.
  assert (Hm1lo : 0 <= m1) by (rewrite Hm1; apply Z.div_pos; lia).
  set (m2 := round_nearest_even m1 (loc_of_shr_record mrs1)).
  assert (Hm2 : m1 <= m2).
  { pose proof (round_nearest_even_bounds m1 (loc_of_shr_record mrs1)) as [Hb _].
    fold m2 in Hb. lia. }
  (* the digits of [m2] reach the exponent [e1] *)
  assert (Hd2 : 0 < m2 -> e1 <= fexp prec emax (Zdigits2 m2 + e1)).
  { intros Hpos. destruct (Z.eq_dec m1 0) as [Hz|Hnz].
    - (* everything was shifted out: the exponent is the least one *)
      assert (He1 : e1 = emin prec emax).
      { destruct (Z.eq_dec M 0) as [HM0|HM0].
        - unfold e1, d in *. rewrite HM0 in *. simpl in *. unfold fexp in *. lia.
        - destruct (Zdigits2_bounds M ltac:(lia)) as [Hlo _]. fold d in Hlo.
          assert (HMlt : M < 2 ^ n1).
          { destruct (Z_lt_le_dec M (2 ^ n1)) as [|Hge]; [assumption|].
            assert (1 <= M / 2 ^ n1) by (apply Z.div_le_lower_bound; lia). lia. }
          assert (d - 1 < n1).
          { apply (Z.pow_lt_mono_r_iff 2); try lia. }
          unfold n1, e1, fexp in *. lia. }
      rewrite He1. unfold fexp. lia.
    - assert (Hn1 : n1 < d).
      { destruct (Z_lt_le_dec n1 d) as [|Hge]; [assumption|].
        assert (HM0 : 0 < M) by (destruct (Z.eq_dec M 0) as [->|]; [now rewrite Z.div_0_l in Hm1 by lia | lia]).
        destruct (Zdigits2_bounds M HM0) as [_ Hhi]. fold d in Hhi.
        assert (2 ^ d <= 2 ^ n1) by (apply Z.pow_le_mono_r; lia).
        assert (M / 2 ^ n1 = 0) by (apply Z.div_small; lia). lia. }
      assert (HM0 : 0 < M) by (destruct (Z.eq_dec M 0) as [->|]; [now rewrite Z.div_0_l in Hm1 by lia | lia]).
      assert (Hd1 : Zdigits2 m1 = d - n1) by (rewrite Hm1; apply Zdigits2_shift; lia).
      pose proof (Zdigits2_mono m1 m2 ltac:(lia)) as Hmono.
      assert (Hfe : fexp prec emax (Zdigits2 m1 + e1) = e1).
      { rewrite Hd1. unfold n1. replace (d - (e1 - E) + e1) with (d + E) by lia.
        reflexivity. }
      apply Z.le_trans with (fexp prec emax (Zdigits2 m1 + e1)); [lia|].
      apply fexp_mono. lia. }
  assert (Hm2lo : 0 <= m2) by lia.
  destruct (shr_fexp_spec prec emax m2 e1 loc_Exact Hm2lo) as (mrs2 & Hs2 & Hm3 & _).
  set (n2 := Z.max 0 (fexp prec emax (Zdigits2 m2 + e1) - e1)) in *.
  assert (Hpn2 : 0 < 2 ^ n2) by (apply Z.pow_pos_nonneg; lia).
  unfold binary_round_aux. rewrite Hs1. fold m1 m2. rewrite Hs2.
  destruct (shr_m mrs2) as [|q|q] eqn:Hq; try reflexivity.
  destruct (e1 + n2 <=? emax - prec) eqn:Hof; [|reflexivity].
  cbn [valid_binary]. unfold bounded. rewrite Hof, andb_true_r.
  unfold canonical_mantissa. apply Z.eqb_eq.
  change (Zpos (digits2_pos q)) with (Zdigits2 (Zpos q)).
  assert (Hm2pos : 0 < m2).
  { destruct (Z.eq_dec m2 0) as [Hz|]; [|lia].
    rewrite Hz, Z.div_0_l in Hm3 by lia. lia. }
  specialize (Hd2 Hm2pos).
  destruct (Z.eq_dec n2 0) as [Hn0|Hn0].
  - rewrite Hn0, Z.pow_0_r, Z.div_1_r in Hm3. rewrite Hm3, Hn0, Z.add_0_r.
    unfold n2 in Hn0. lia.
  - assert (Hn2 : n2 = Zdigits2 m2 - prec) by (unfold n2, fexp in *; lia).
    assert (Hn2lt : 0 <= n2 < Zdigits2 m2) by lia.
    rewrite Hm3, (Zdigits2_shift m2 n2 Hm2pos Hn2lt).
    replace (Zdigits2 m2 - n2 + (e1 + n2)) with (Zdigits2 m2 + e1) by lia.
    unfold n2 in *. lia.
Qed.

End Validity.

Lemma pos_iter_xO (m d : positive) : Zpos (Pos.iter xO m d) = Zpos m * 2 ^ Zpos d.
Proof.
  induction d as [|d IH] using Pos.peano_ind.
  - simpl. lia.
  - rewrite Pos.iter_succ, Pos2Z.inj_succ, Z.pow_succ_r by lia.
    change (Zpos (Pos.iter xO m d)~0) with (2 * Zpos (Pos.iter xO m d)). lia.
Qed.

Lemma binary_round_valid (prec emax : Z) (s : bool) (m : positive) (e : Z) :
  0 < prec -> valid_binary prec emax (binary_round prec emax s m e) = true.
Proof.
  intros Hprec. unfold binary_round, shl_align.
  set (e' := fexp prec emax (Zpos (digits2_pos m) + e)).
  destruct (e' - e) as [|d|d] eqn:Hd.
  - apply binary_round_aux_valid; [assumption | lia |]. simpl Zdigits2. fold e'. lia.
  - apply binary_round_aux_valid; [assumption | lia |]. simpl Zdigits2. fold e'. lia.
  - apply binary_round_aux_valid; [assumption | lia |].
    assert (Hdig : Zdigits2 (Zpos (Pos.iter xO m d)) = Zpos (digits2_pos m) + Zpos d).
    { apply Zdigits2_unique; [lia|]. rewrite pos_iter_xO.
      pose proof (digits2_pos_bounds m) as [Hlo Hhi].
      assert (0 < 2 ^ Zpos d) by (apply Z.pow_pos_nonneg; lia).
      replace (Zpos (digits2_pos m) + Zpos d - 1) with (Zpos (digits2_pos m) - 1 + Zpos d) by lia.
      rewrite !Z.pow_add_r by lia. nia. }
    rewrite Hdig. replace (Zpos (digits2_pos m) + Zpos d + e') with (Zpos (digits2_pos m) + e) by lia.
    fold e'. lia.
Qed.

Lemma binary_normalize_valid (prec emax : Z) (z e : Z) (s : bool) :
  0 < prec -> valid_binary prec emax (binary_normalize prec emax z e s) = true.
Proof.
  intros Hprec. destruct z; simpl; [reflexivity | |]; now apply binary_round_valid.
Qed.

Lemma mul_hundred_valid (c : spec_float) :
  valid_binary 53 1024 (SFmul 53 1024 c F64.hundred) = true.
Proof.
  destruct c as [s|s| |s m e]; try reflexivity.
  unfold SFmul, F64.hundred. apply binary_round_aux_valid; [lia | lia |].
  rewrite fexp64.
  assert (53 <= Zdigits2 (Zpos (m * 7036874417766400))); [|lia].
  apply Zdigits2_ge; [lia|]. change (2 ^ (53 - 1)) with 4503599627370496. lia.
Qed.

Lemma SFdiv_valid (prec emax : Z) (x y : spec_float) :
  0 < prec -> valid_binary prec emax (SFdiv prec emax x y) = true.
Proof.
  intros Hprec.
  destruct x as [sx|sx| |sx mx ex], y as [sy|sy| |sy my ey]; try reflexivity.
  unfold SFdiv, SFdiv_core_binary.
  set (d1 := Zdigits2 (Zpos mx)). set (d2 := Zdigits2 (Zpos my)).
  set (D := d1 + ex - (d2 + ey)).
  set (e' := Z.min (fexp prec emax D) (ex - ey)).
  set (sh := ex - ey - e').
  assert (Hsh : 0 <= sh) by (unfold sh, e'; lia).
  set (m' := match sh with Z.pos _ => Z.shiftl (Zpos mx) sh | Z0 => Zpos mx | Z.neg _ => 0 end).
  assert (Hm' : m' = Zpos mx * 2 ^ sh).
  { unfold m'. destruct sh as [|p|p] eqn:Hs; [simpl; lia | | lia].
    rewrite Z.shiftl_mul_pow2 by lia. reflexivity. }
  pose proof (Z_div_mod m' (Zpos my) ltac:(lia)) as Hdm.
  destruct (Z.div_eucl m' (Zpos my)) as [q r]. destruct Hdm as [Hq Hr].
  assert (Hpsh : 0 < 2 ^ sh) by (apply Z.pow_pos_nonneg; lia).
  assert (Hq0 : 0 <= q) by nia.
  apply binary_round_aux_valid; [assumption | assumption |].
  destruct (Zdigits2_bounds (Zpos mx) ltac:(lia)) as [Hlo1 _]. fold d1 in Hlo1.
  destruct (Zdigits2_bounds (Zpos my) ltac:(lia)) as [_ Hhi2]. fold d2 in Hhi2.
  assert (Hd1 : 0 < d1) by (unfold d1; simpl; lia).
  assert (Hd2 : 0 < d2) by (unfold d2; simpl; lia).
  destruct (Z_lt_le_dec (d1 + sh - 1) d2) as [Hsmall | Hbig].
  - (* few quotient digits: the exponent is the least one *)
    assert (He' : e' <= emin prec emax).
    { unfold sh in Hsmall. unfold e', fexp, D in *. lia. }
    unfold fexp. lia.
  - assert (Hdq : d1 + sh - d2 <= Zdigits2 q).
    { destruct (Z.eq_dec (d1 + sh - d2) 0) as [Hz|Hnz]; [rewrite Hz; apply Zdigits2_nonneg|].
      apply Zdigits2_ge; [lia|].
      assert (Hpow : 2 ^ (d1 + sh - 1) = 2 ^ (d1 + sh - d2 - 1) * 2 ^ d2).
      { rewrite <- Z.pow_add_r by lia. f_equal. lia. }
      assert (Hm'lo : 2 ^ (d1 + sh - 1) <= m').
      { rewrite Hm'. replace (d1 + sh - 1) with (d1 - 1 + sh) by lia.
        rewrite Z.pow_add_r by lia. nia. }
      assert (Hpp : 0 < 2 ^ (d1 + sh - d2 - 1)) by (apply Z.pow_pos_nonneg; lia).
      destruct (Z_lt_le_dec q (2 ^ (d1 + sh - d2 - 1))) as [Hlt|]; [|assumption].
      exfalso.
      assert (q + 1 <= 2 ^ (d1 + sh - d2 - 1)) by lia.
      assert (m' < 2 ^ (d1 + sh - d2 - 1) * Zpos my) by nia.
      nia. }
    apply Z.le_trans with (fexp prec emax D); [unfold e'; lia|].
    apply fexp_mono. unfold D, sh in *. lia.
Qed.

(** ** Results that are numbers *)

Lemma binary_round_aux_shape (prec emax : Z) (s : bool) (M E : Z) (l : location) :
  0 <= M ->
  binary_round_aux prec emax s M E l = S754_zero s
  \/ binary_round_aux prec emax s M E l = S754_infinity s
  \/ exists q e, binary_round_aux prec emax s M E l = S754_finite s q e.
Proof.
  intros HM.
  destruct (shr_fexp_spec prec emax M E l HM) as (mrs1 & Hs1 & Hm1 & _).
  set (m2 := round_nearest_even (shr_m mrs1) (loc_of_shr_record mrs1)).
  assert (Hm2 : 0 <= m2).
  { pose proof (round_nearest_even_bounds (shr_m mrs1) (loc_of_shr_record mrs1)) as [Hb2 _].
    fold m2 in Hb2.
    assert (0 <= shr_m mrs1); [|lia].
    rewrite Hm1. apply Z.div_pos; [lia|]. apply Z.pow_pos_nonneg; lia. }
  destruct (shr_fexp_spec prec emax m2
              (E + Z.max 0 (fexp prec emax (Zdigits2 M + E) - E))
              loc_Exact Hm2) as (mrs2 & Hs2 & Hm3 & _).
  unfold binary_round_aux. rewrite Hs1. fold m2. rewrite Hs2.
  assert (Hm3lo : 0 <= shr_m mrs2).
  { rewrite Hm3. apply Z.div_pos; [lia|]. apply Z.pow_pos_nonneg; lia. }
  destruct (shr_m mrs2) as [|q|q]; [now left | | lia].
  match goal with |- context [if ?c then _ else _] => destruct c end; eauto.
Qed.

Lemma binary_round_aux_number (prec emax : Z) (s : bool) (M E : Z) (l : location) :
  0 <= M -> F64.is_nan (binary_round_aux prec emax s M E l) = false.
Proof.
  intros HM.
  destruct (binary_round_aux_shape prec emax s M E l HM) as [-> | [-> | (q & e & ->)]];
    reflexivity.
Qed.

Lemma SFmul_number (prec emax : Z) (x : spec_float) (s : bool) (m : positive) (e : Z) :
  F64.is_nan x = false -> F64.is_nan (SFmul prec emax x (S754_finite s m e)) = false.
Proof.
  destruct x as [sx|sx| |sx mx ex]; simpl; intros H; try reflexivity; try discriminate.
  apply binary_round_aux_number. lia.
Qed.

Lemma SFdiv_core_binary_nonneg (prec emax : Z) (m1 m2 : positive) (e1 e2 : Z) :
  0 <= fst (fst (SFdiv_core_binary prec emax (Zpos m1) e1 (Zpos m2) e2)).
Proof.
  unfold SFdiv_core_binary.
  set (sh := e1 - e2 - _).
  set (m' := match sh with Z.pos _ => _ | _ => _ end).
  assert (Hm' : 0 <= m').
  { unfold m'. destruct sh; try lia. apply Z.shiftl_nonneg. lia. }
  pose proof (Z_div_mod m' (Zpos m2) ltac:(lia)) as Hdm.
  destruct (Z.div_eucl m' (Zpos m2)) as [q r]. simpl. nia.
Qed.

Lemma SFdiv_number (prec emax : Z) (x : spec_float) (s : bool) (m : positive) (e : Z) :
  F64.is_nan x = false -> F64.is_nan (SFdiv prec emax x (S754_finite s m e)) = false.
Proof.
  destruct x as [sx|sx| |sx mx ex]; simpl; intros H; try reflexivity; try discriminate.
  pose proof (SFdiv_core_binary_nonneg prec emax mx m ex e) as Hq.
  destruct (SFdiv_core_binary prec emax (Zpos mx) ex (Zpos m) e) as [[q e'] l].
  apply binary_round_aux_number. exact Hq.
Qed.

(** Rounding to decimal places keeps a number a number. *)
Lemma py_round_number (x : float64) (ndigits : Z) :
  F64.is_nan x = false -> F64.is_nan (py_round x ndigits) = false.
Proof.
  destruct x as [s|s| |s m e]; intros H; try reflexivity; try discriminate.
  unfold py_round. cbv zeta.
  destruct (if 0 <=? e then _ else _); try reflexivity.
  unfold F64.div. apply SFdiv_number. reflexivity.
Qed.

(** Rounding to decimal places gives a binary64 value. *)
Lemma py_round_valid (x : float64) (ndigits : Z) :
  F64.valid x = true -> F64.valid (py_round x ndigits) = true.
Proof.
  destruct x as [s|s| |s m e]; intros H; try reflexivity.
  unfold py_round. cbv zeta.
  destruct (if 0 <=? e then _ else _); try reflexivity.
  unfold F64.div. apply SFdiv_valid. reflexivity.
Qed.

(** ** Rounding: how far the result is from the number rounded *)

Section Nearness.
Variables prec emax : Z.
Hypothesis Hprec : 0 < prec.

(** What [binary_round_aux] does to a non-negative mantissa: it drops the
    digits below the exponent [e1] the format gives the number, rounds the
    rest [m1] to [m1] or [m1 + 1], and renormalises without losing a
    digit. *)
Lemma binary_round_aux_steps (M E : Z) (l : location) :
  0 <= M ->
  E <= fexp prec emax (Zdigits2 M + E) ->
  let e1 := fexp prec emax (Zdigits2 M + E) in
  let m1 := M / 2 ^ (e1 - E) in
  exists m2,
    m1 <= m2 <= m1 + 1
    /\ (loc_exact l = true -> M mod 2 ^ (e1 - E) = 0 -> m2 = m1)
    /\ match binary_round_aux prec emax false M E l with
       | S754_zero _ => m2 = 0
       | S754_infinity _ => True
       | S754_nan => False
       | S754_finite s m3 e3 => s = false /\ e1 <= e3 /\ Zpos m3 * 2 ^ (e3 - e1) = m2
       end.
Proof.
  intros HM HE e1 m1.
  set (d := Zdigits2 M) in *.
  assert (Hemin : emin prec emax <= e1) by (unfold e1, fexp; lia).
  destruct (shr_fexp_spec prec emax M E l HM) as (mrs1 & Hs1 & Hm1 & Hex1).
  fold d e1 in Hs1, Hm1, Hex1.
  replace (Z.max 0 (e1 - E)) with (e1 - E) in * by lia.
  replace (E + (e1 - E)) with e1 in Hs1 by lia.
  set (n1 := e1 - E) in *.
  assert (Hpn1 : 0 < 2 ^ n1) by (apply Z.pow_pos_nonneg; lia).
  fold m1 in Hm1.
  assert (Hm1lo : 0 <= m1) by (unfold m1; apply Z.div_pos; lia).
  set (m2 := round_nearest_even (shr_m mrs1) (loc_of_shr_record mrs1)).
  destruct (round_nearest_even_bounds (shr_m mrs1) (loc_of_shr_record mrs1)) as [Hb2 Hex2].
  fold m2 in Hb2, Hex2. rewrite Hm1 in Hb2, Hex2.
  exists m2. split; [exact Hb2|]. split.
  { intros Hl Hmod. rewrite <- Hm1. rewrite Hm1. apply Hex2. now apply Hex1. }
  (* the rounded mantissa has at most [prec] digits, or is [2 ^ prec] *)
  assert (Hm1hi : m1 < 2 ^ prec).
  { unfold m1. apply Z.div_lt_upper_bound; [lia|].
    destruct (Z.eq_dec M 0) as [->|HM0].
    - assert (0 < 2 ^ prec) by (apply Z.pow_pos_nonneg; lia). lia.
    - destruct (Zdigits2_bounds M ltac:(lia)) as [_ Hhi]. fold d in Hhi.
      rewrite <- Z.pow_add_r by lia.
      assert (2 ^ d <= 2 ^ (n1 + prec)); [|lia].
      apply Z.pow_le_mono_r; [lia|]. unfold n1, e1, fexp. lia. }
  assert (Hm2lo : 0 <= m2) by lia.
  destruct (shr_fexp_spec prec emax m2 e1 loc_Exact Hm2lo) as (mrs2 & Hs2 & Hm3 & _).
  set (n2 := Z.max 0 (fexp prec emax (Zdigits2 m2 + e1) - e1)) in *.
  assert (Hn2 : (m2 < 2 ^ prec /\ n2 = 0) \/ (m2 = 2 ^ prec /\ n2 = 1)).
  { destruct (Z.eq_dec m2 (2 ^ prec)) as [Heq|Hne].
    - right. split; [exact Heq|].
      assert (Hd : Zdigits2 m2 = prec + 1).
      { apply Zdigits2_unique; [lia|]. rewrite Heq.
        replace (prec + 1 - 1) with prec by lia. split; [lia|].
        apply Z.pow_lt_mono_r; lia. }
      unfold n2. rewrite Hd. unfold fexp. unfold emin in *. lia.
    - left. split; [lia|].
      assert (Hd : Zdigits2 m2 <= prec) by (apply Zdigits2_le; lia).
      unfold n2, fexp. unfold emin in *. lia. }
  unfold binary_round_aux. rewrite Hs1. fold m2. rewrite Hs2.
  assert (Hexact : shr_m mrs2 * 2 ^ n2 = m2).
  { rewrite Hm3. destruct Hn2 as [[_ ->] | [-> ->]].
    - rewrite Z.pow_0_r, Z.div_1_r. lia.
    - change (2 ^ 1) with 2.
      replace prec with (prec - 1 + 1) at 1 2 by lia.
      rewrite Z.pow_add_r by lia. change (2 ^ 1) with 2.
      rewrite Z.div_mul by lia. reflexivity. }
  destruct (shr_m mrs2) as [|q|q] eqn:Hq.
  - lia.
  - destruct (e1 + n2 <=? emax - prec); [|exact I].
    split; [reflexivity|]. split; [lia|].
    replace (e1 + n2 - e1) with n2 by lia. exact Hexact.
  - assert (0 < 2 ^ n2) by (apply Z.pow_pos_nonneg; lia). nia.
Qed.

End Nearness.

(** ** The numbers floats stand for *)

Lemma Qpower2_pos (e : Z) : (0 < Qpower 2 e)%Q.
Proof. apply Qpower_0_lt. reflexivity. Qed.

(** A positive float over a smaller exponent. *)
Lemma Q_of_float_scaled (m : positive) (e E : Z) :
  E <= e ->
  (Q_of_float (S754_finite false m e) == inject_Z (Zpos m * 2 ^ (e - E)) * Qpower 2 E)%Q.
Proof.
  intros HE. unfold Q_of_float. cbn [cond_Zopp].
  replace e with ((e - E) + E) at 1 by lia.
  rewrite Qpower_plus by discriminate.
  rewrite inject_Z_mult, Zpower_Qpower by lia.
  change (inject_Z 2) with 2%Q. ring.
Qed.

(** Nearness of two numbers over a common exponent, from their mantissas. *)
Lemma within_rounding_scaled (A B E : Z) :
  0 <= B ->
  Z.abs (100 * A - B) * 2 ^ 52 <= B ->
  within_rounding (inject_Z A * Qpower 2 E * 100) (inject_Z B * Qpower 2 E).
Proof.
  intros HB H. unfold within_rounding.
  pose proof (Qpower2_pos E) as HP.
  set (P := Qpower 2 E) in *.
  assert (HBq : (0 <= inject_Z B)%Q)
    by (change (inject_Z 0 <= inject_Z B)%Q; rewrite <- Zle_Qle; exact HB).
  rewrite (Qabs_pos (inject_Z B * P)) by nra.
  change (Qpower 2 (-52)) with (1 # 4503599627370496)%Q.
  apply Qabs_Qle_condition.
  change (2 ^ 52) with 4503599627370496 in H.
  assert (H1 : (100 * A - B) * 4503599627370496 <= B) by lia.
  assert (H2 : - B <= (100 * A - B) * 4503599627370496) by lia.
  rewrite Zle_Qle in H1, H2.
  rewrite ?inject_Z_mult, ?inject_Z_opp, ?inject_Z_plus in H1, H2.
  unfold Z.sub in H1, H2.
  rewrite ?inject_Z_mult, ?inject_Z_opp, ?inject_Z_plus, ?inject_Z_mult, ?inject_Z_opp in H1, H2.
  change (inject_Z 100) with 100%Q in *.
  change (inject_Z 4503599627370496) with 4503599627370496%Q in *.
  set (a := inject_Z A) in *. set (b := inject_Z B) in *.
  split; nra.
Qed.

Lemma within_rounding_zero : within_rounding (0 * 100) 0.
Proof. unfold within_rounding. vm_compute. discriminate. Qed.

(** A score times 100, rounded, is within one rounding of the product. *)
Lemma mul_hundred_near (c : spec_float) :
  valid_binary 53 1024 c = true ->
  SFleb (S754_zero false) c = true -> SFleb c F64.one = true ->
  within_rounding (Q_of_float c * 100) (Q_of_float (SFmul 53 1024 c F64.hundred)).
Proof.
  intros Hv H0 H1.
  destruct (mul_hundred_bounds c Hv H0 H1) as [Hlo Hhi].
  destruct c as [s|s| |s m e].
  - exact within_rounding_zero.
  - destruct s; discriminate.
  - discriminate.
  - destruct s; [discriminate|].
    destruct (valid_finite_digits false m e Hv) as (Hm & He & _).
    unfold SFmul, F64.hundred in *. cbn [xorb] in *.
    set (M := Zpos (m * 7036874417766400)) in *.
    set (E := e + -46) in *.
    assert (HM : M = Zpos m * 7036874417766400) by (unfold M; lia).
    assert (Hd : 53 <= Zdigits2 M).
    { apply Zdigits2_ge; [lia|]. change (2 ^ (53 - 1)) with 4503599627370496. lia. }
    assert (HE : E <= fexp 53 1024 (Zdigits2 M + E)) by (rewrite fexp64; lia).
    destruct (binary_round_aux_steps 53 1024 ltac:(lia) M E loc_Exact ltac:(lia) HE)
      as (m2 & Hm2 & Hex & Hres).
    set (e1 := fexp 53 1024 (Zdigits2 M + E)) in *.
    set (n := e1 - E) in *.
    assert (Hn : 0 <= n) by (unfold n; lia).
    assert (Hpn : 0 < 2 ^ n) by (apply Z.pow_pos_nonneg; lia).
    destruct (Zdigits2_bounds M ltac:(lia)) as [Hdlo Hdhi].
    pose proof (Z.mul_div_le M (2 ^ n) Hpn) as Hq1.
    pose proof (Z.mul_succ_div_gt M (2 ^ n) Hpn) as Hq2.
    set (m1 := M / 2 ^ n) in *.
    assert (Hnear : Z.abs (100 * (Zpos m * 2 ^ 46) - m2 * 2 ^ n) * 2 ^ 52 <= m2 * 2 ^ n
                    /\ 0 < m2).
    { change (2 ^ 46) with 70368744177664. change (2 ^ 52) with 4503599627370496.
      replace (100 * (Zpos m * 70368744177664)) with M by lia.
      destruct (Z_le_gt_dec (-1074) (Zdigits2 M + E - 53)) as [Hnorm | Hsub].
      - (* a normal result *)
        assert (Hn' : n = Zdigits2 M - 53) by (unfold n, e1; rewrite fexp64; lia).
        assert (Hp : 2 ^ (Zdigits2 M - 1) = 4503599627370496 * 2 ^ n).
        { rewrite Hn'. replace (Zdigits2 M - 1) with (52 + (Zdigits2 M - 53)) by lia.
          rewrite Z.pow_add_r by lia. reflexivity. }
        assert (Hm1 : 4503599627370496 <= m1).
        { unfold m1. apply Z.div_le_lower_bound; lia. }
        assert (Hp1 : 4503599627370496 * 2 ^ n <= m1 * 2 ^ n) by nia.
        assert (Hp2 : m1 * 2 ^ n <= m2 * 2 ^ n) by nia.
        assert (Hp3 : m2 * 2 ^ n <= m1 * 2 ^ n + 2 ^ n) by nia.
        unfold Z.succ in Hq2.
        split; [|lia]. lia.
      - (* a subnormal result: nothing is rounded away *)
        assert (Hn' : n = -1028 - e) by (unfold n, e1, E; rewrite fexp64; lia).
        assert (Hmod : M mod 2 ^ n = 0).
        { rewrite HM. change 7036874417766400 with (100 * 2 ^ 46).
          replace 46 with (46 - n + n) by lia. rewrite Z.pow_add_r by lia.
          replace (Zpos m * (100 * (2 ^ (46 - n) * 2 ^ n)))
            with (Zpos m * 100 * 2 ^ (46 - n) * 2 ^ n) by ring.
          apply Z.mod_mul. lia. }
        rewrite (Hex eq_refl Hmod).
        assert (HMeq : M = m1 * 2 ^ n).
        { unfold m1. pose proof (Z.div_mod M (2 ^ n) ltac:(lia)). lia. }
        rewrite <- HMeq. replace (M - M) with 0 by lia. simpl Z.abs.
        split; [lia|]. nia. }
    destruct Hnear as [Hnear Hm2pos].
    destruct (binary_round_aux 53 1024 false M E loc_Exact) as [s|s| |s m3 e3];
      try contradiction; try lia.
    { destruct s; discriminate. }
    destruct Hres as (-> & He3 & Hm3).
    unfold within_rounding.
    rewrite (Q_of_float_scaled m e E) by (unfold E; lia).
    rewrite (Q_of_float_scaled m3 e3 E) by lia.
    replace (e - E) with 46 by (unfold E; lia).
    replace (Zpos m3 * 2 ^ (e3 - E)) with (m2 * 2 ^ n).
    + apply within_rounding_scaled; [nia | exact Hnear].
    + rewrite <- Hm3. replace (e3 - E) with ((e3 - e1) + n) by (unfold n; lia).
      rewrite Z.pow_add_r by lia. ring.
Qed.

(** A percentage over 100, rounded, times 100 is within one rounding of the
    percentage. *)
Lemma div_hundred_near (p : spec_float) :
  valid_binary 53 1024 p = true ->
  SFltb F64.one p = true -> SFleb p F64.hundred = true ->
  within_rounding (Q_of_float (SFdiv 53 1024 p F64.hundred) * 100) (Q_of_float p).
Proof.
  intros Hv H1 H100.
  destruct (div_hundred_bounds p Hv H1 H100) as [Hlo Hhi].
  destruct p as [s|s| |s m e];
    [discriminate H1 | destruct s; discriminate | discriminate H1 |].
  destruct s; [discriminate|].
  destruct (valid_finite_digits false m e Hv) as (Hm & He & Hn).
  apply SFltb_finite_inv in H1. apply SFleb_finite_inv in H100.
  assert (H252 : 2 ^ 52 = 4503599627370496) by reflexivity.
  assert (H253 : 2 ^ 53 = 9007199254740992) by reflexivity.
  assert (Hmlo : 2 ^ 52 <= Zpos m) by (apply Hn; lia).
  assert (Hd : Zdigits2 (Zpos m) = 53).
  { apply Z.le_antisymm; [apply Zdigits2_le; lia | apply Zdigits2_ge; [lia|exact Hmlo]]. }
  assert (Hrange : -52 <= e <= -46) by lia.
  unfold SFdiv, F64.hundred, SFdiv_core_binary in *. cbn [xorb] in *. rewrite Hd in *.
  change (Zdigits2 7036874417766400) with 53 in *.
  replace (Z.min (fexp 53 1024 (53 + e - (53 + -46))) (e - -46)) with (e - 7) in *
    by (rewrite fexp64; lia).
  replace (e - -46 - (e - 7)) with 53 in * by lia.
  rewrite Z.shiftl_mul_pow2 in * by lia. rewrite H253 in *.
  pose proof (Z_div_mod (Zpos m * 9007199254740992) 7036874417766400 ltac:(lia)) as Hdm.
  destruct (Z.div_eucl (Zpos m * 9007199254740992) 7036874417766400) as [q r].
  destruct Hdm as [Hq Hr].
  assert (Hq0 : 2 ^ 52 <= q) by (rewrite H252; nia).
  assert (Hq1 : q < 2 ^ 54) by (change (2 ^ 54) with 18014398509481984; nia).
  set (E := e - 7) in *.
  set (l := new_location 7036874417766400 r) in *.
  assert (Hdq : 53 <= Zdigits2 q) by (apply Zdigits2_ge; [lia | exact Hq0]).
  assert (Hdq' : Zdigits2 q <= 54) by (apply Zdigits2_le; lia).
  assert (HE : E <= fexp 53 1024 (Zdigits2 q + E)) by (rewrite fexp64; lia).
  destruct (binary_round_aux_steps 53 1024 ltac:(lia) q E l ltac:(lia) HE)
    as (m2 & Hm2 & _ & Hres).
  set (e1 := fexp 53 1024 (Zdigits2 q + E)) in *.
  set (n := e1 - E) in *.
  assert (Hn' : n = Zdigits2 q - 53) by (unfold n, e1, E; rewrite fexp64; lia).
  assert (Hpn : 0 < 2 ^ n) by (apply Z.pow_pos_nonneg; lia).
  pose proof (Z.mul_div_le q (2 ^ n) Hpn) as Hq2.
  pose proof (Z.mul_succ_div_gt q (2 ^ n) Hpn) as Hq3.
  set (m1 := q / 2 ^ n) in *.
  assert (Hnear : Z.abs (100 * (m2 * 2 ^ n) - Zpos m * 2 ^ 7) * 2 ^ 52 <= Zpos m * 2 ^ 7
                  /\ 0 < m2).
  { change (2 ^ 7) with 128. rewrite H252 in *.
    destruct (Z.eq_dec (Zdigits2 q) 53) as [H53 | H54].
    - assert (n = 0) by lia. replace (2 ^ n) with 1 in * by (subst n; now rewrite H).
      unfold Z.succ in Hq3.
      split; [|lia]. lia.
    - assert (n = 1) by lia. replace (2 ^ n) with 2 in * by (subst n; now rewrite H).
      assert (9007199254740992 <= q).
      { destruct (Z_lt_le_dec q 9007199254740992) as [Hlt|]; [|assumption].
        assert (Zdigits2 q <= 53) by (apply Zdigits2_le; lia). lia. }
      unfold Z.succ in Hq3.
      split; [|lia]. lia. }
  destruct Hnear as [Hnear Hm2pos].
  destruct (binary_round_aux 53 1024 false q E l) as [s|s| |s m3 e3];
    try contradiction; try lia.
  { destruct s; discriminate. }
  destruct Hres as (-> & He3 & Hm3).
  unfold within_rounding.
  rewrite (Q_of_float_scaled m e E) by (unfold E; lia).
  rewrite (Q_of_float_scaled m3 e3 E) by lia.
  replace (e - E) with 7 by (unfold E; lia).
  replace (Zpos m3 * 2 ^ (e3 - E)) with (m2 * 2 ^ n).
  - apply within_rounding_scaled; [lia | exact Hnear].
  - rewrite <- Hm3. replace (e3 - E) with ((e3 - e1) + n) by (unfold n; lia).
    rewrite Z.pow_add_r by lia. ring.
Qed.

(** ** Confidence normaliser *)

Section Normaliser.
Variable float_of_string : string -> option float64.

Lemma py_float_raises (v : pyval) (e : exn) :
  py_float float_of_string v = Raise e ->
  (exists m, e = TypeError m) \/ (exists m, e = ValueError m)
  \/ (exists m, e = OverflowError m).
Proof.
  destruct v; simpl; intros H; try discriminate;
    try (inversion H; subst; eauto; fail).
  - unfold float_of_int in H. destruct (F64.of_Z z); inversion H; subst; eauto.
  - destruct (float_of_string s); inversion H; subst; eauto.
Qed.

Lemma le_zero_of_gt_zero (x : float64) :
  F64.le F64.zero (if F64.gt x F64.zero then x else F64.zero) = true.
Proof.
  destruct (F64.gt x F64.zero) eqn:H; [|reflexivity].
  apply SFltb_leb. exact H.
Qed.

Lemma py_float_valid (v : pyval) (f : float64) :
  float_input_valid float_of_string v ->
  py_float float_of_string v = Ok f -> F64.valid f = true.
Proof.
  destruct v; simpl; intros Hv H; try discriminate.
  - inversion H. destruct b; reflexivity.
  - unfold float_of_int in H.
    assert (Hz : F64.valid (F64.of_Z z) = true)
      by (apply binary_normalize_valid; reflexivity).
    destruct (F64.of_Z z); inversion H; subst; exact Hz.
  - inversion H; subst. exact Hv.
  - destruct (float_of_string s) as [g|] eqn:Hs; inversion H; subst. now apply Hv.
Qed.

(** Whenever coercing the input does not overflow (an integer beyond the
    float range), [_normalize_confidence] returns a pair computed by: coerce
    to float, 0.0 on a [TypeError] or [ValueError]; replace what is not
    above 0.0 by 0.0; if the result is strictly above 1.0, clamp it to at
    most 100 as the percent and take score = percent / 100; otherwise take
    it as the score and percent = score * 100.  Both results are binary64
    values, the score is in [0, 1], the percent in [0, 100], the percent is
    score * 100 up to one rounding, and the input 1.0 gives score 1.0 and
    percent 100.0. *)
Lemma normalize_confidence_unless_overflow (v : pyval) :
  (forall m, py_float float_of_string v <> Raise (OverflowError m)) ->
  float_input_valid float_of_string v ->
  let x := match py_float float_of_string v with Ok f => f | Raise _ => F64.zero end in
  let c := if F64.gt x F64.zero then x else F64.zero in
  exists score percent,
    _normalize_confidence float_of_string v = Ok (score, percent)
    /\ (if F64.gt c F64.one
        then percent = (if F64.lt F64.hundred c then F64.hundred else c)
             /\ score = F64.div percent F64.hundred
        else score = c /\ percent = F64.mul score F64.hundred)
    /\ F64.valid score = true /\ F64.valid percent = true
    /\ F64.le F64.zero score = true /\ F64.le score F64.one = true
    /\ F64.le F64.zero percent = true /\ F64.le percent F64.hundred = true
    /\ within_rounding (Q_of_float score * 100) (Q_of_float percent)
    /\ (x = F64.one -> score = F64.one /\ percent = F64.hundred).
Proof.
  intros Hov Hvalid x c.
  assert (Hx : except_type_or_value (py_float float_of_string v) F64.zero = Ok x
               /\ F64.valid x = true).
  { unfold x. destruct (py_float float_of_string v) as [f|e] eqn:Hpf.
    - split; [reflexivity | now apply (py_float_valid v)].
    - destruct (py_float_raises v e Hpf) as [[m ->] | [[m ->] | [m ->]]];
        [split; reflexivity | split; reflexivity | now elim (Hov m)]. }
  destruct Hx as [Hx Hvx].
  assert (Hvc : F64.valid c = true) by (unfold c; destruct (F64.gt x F64.zero); auto).
  assert (Hc0 : F64.le F64.zero c = true) by apply le_zero_of_gt_zero.
  assert (Hcn : F64.is_nan c = false) by (apply SFleb_not_nan in Hc0; tauto).
  unfold _normalize_confidence. rewrite Hx. cbn [bind].
  change (py_max F64.zero x) with c.
  destruct (F64.gt c F64.one) eqn:Hgt.
  - (* a percentage *)
    set (percent := py_min c F64.hundred).
    assert (Hp : percent = if F64.lt F64.hundred c then F64.hundred else c) by reflexivity.
    assert (Hp1 : SFltb F64.one percent = true).
    { rewrite Hp. destruct (F64.lt F64.hundred c); [reflexivity | exact Hgt]. }
    assert (Hp100 : SFleb percent F64.hundred = true).
    { rewrite Hp. destruct (F64.lt F64.hundred c) eqn:Hlt; [reflexivity|].
      apply SFltb_false_leb; [reflexivity | exact Hcn | exact Hlt]. }
    assert (Hvp : F64.valid percent = true).
    { rewrite Hp. destruct (F64.lt F64.hundred c); [reflexivity | exact Hvc]. }
    destruct (div_hundred_bounds percent Hvp Hp1 Hp100) as [Hs0 Hs1].
    exists (F64.div percent F64.hundred), percent.
    split; [reflexivity|]. split; [now split|].
    split; [apply SFdiv_valid; reflexivity|]. split; [exact Hvp|].
    split; [exact Hs0|]. split; [exact Hs1|].
    split; [apply SFleb_trans with (b := F64.one); [reflexivity | now apply SFltb_leb]|].
    split; [exact Hp100|].
    split; [exact (div_hundred_near percent Hvp Hp1 Hp100)|].
    intros Hx1. exfalso. unfold c in Hgt. rewrite Hx1 in Hgt. discriminate.
  - (* a fractional score *)
    assert (Hc1 : SFleb c F64.one = true).
    { apply SFltb_false_leb; [reflexivity | exact Hcn | exact Hgt]. }
    destruct (mul_hundred_bounds c Hvc Hc0 Hc1) as [Hp0 Hp100].
    exists c, (F64.mul c F64.hundred).
    split; [reflexivity|]. split; [now split|].
    split; [exact Hvc|]. split; [apply mul_hundred_valid|].
    split; [exact Hc0|]. split; [exact Hc1|].
    split; [exact Hp0|]. split; [exact Hp100|].
    split; [exact (mul_hundred_near c Hvc Hc0 Hc1)|].
    intros Hx1. unfold c. rewrite Hx1. split; reflexivity.
Qed.

End Normaliser.

(** The normaliser at the inputs 85 (a percentage) and 1.0 (the boundary). *)
Lemma normalize_confidence_at_85_and_1 :
  for_every_parser (fun float_of_string =>
    (exists score percent,
        _normalize_confidence float_of_string (PInt 85) = Ok (score, percent)
        /\ F64.le F64.zero score = true /\ F64.le score F64.one = true
        /\ F64.le F64.zero percent = true /\ F64.le percent F64.hundred = true
        /\ within_rounding (Q_of_float score * 100) (Q_of_float percent))
    /\ _normalize_confidence float_of_string (PFloat F64.one)
       = Ok (F64.one, F64.hundred)).
Proof.
  intros float_of_string. split.
  - destruct (normalize_confidence_unless_overflow float_of_string (PInt 85))
      as (score & percent & Heq & _ & _ & _ & Hs0 & Hs1 & Hp0 & Hp100 & Hnear & _).
    + intros m. discriminate.
    + exact I.
    + exists score, percent. repeat split; assumption.
  - destruct (normalize_confidence_unless_overflow float_of_string (PFloat F64.one))
      as (score & percent & Heq & _ & _ & _ & _ & _ & _ & _ & _ & Hone).
    + intros m. discriminate.
    + reflexivity.
    + rewrite Heq. destruct (Hone eq_refl) as [-> ->]. reflexivity.
Qed.

(** The relation between percent and score is up to rounding and no more:
    for the input 7 the percent is 7.0 and the score is 7.0 / 100, and that
    score times 100 in binary64 is the next float above 7.0. *)
Lemma percent_is_score_times_hundred_up_to_rounding :
  for_every_parser (fun float_of_string =>
    exists score percent,
      _normalize_confidence float_of_string (PInt 7) = Ok (score, percent)
      /\ percent = F64.of_Z 7
      /\ F64.eq percent (F64.mul score F64.hundred) = false
      /\ within_rounding (Q_of_float score * 100) (Q_of_float percent)).
Proof.
  intros float_of_string.
  exists (F64.div (F64.of_Z 7) F64.hundred), (F64.of_Z 7).
  repeat split; vm_compute; try reflexivity. discriminate.
Qed.

(** C1 at the confidence [10**400], an integer beyond the float range:
    [float()] raises [OverflowError], which the [except (TypeError,
    ValueError)] clause does not catch, and [_normalize_confidence] raises
    it instead of returning the pair for 0.0 that the failed coercions of
    [None] and of a list give. *)
Theorem huge_confidence_escapes_normalisation :
  for_every_parser (fun float_of_string =>
    _normalize_confidence float_of_string (PInt (10 ^ 400))
    = Raise (OverflowError "int too large to convert to float")
    /\ _normalize_confidence float_of_string PNone = Ok (F64.zero, F64.zero)
    /\ _normalize_confidence float_of_string (PList []) = Ok (F64.zero, F64.zero)).
Proof.
  intros float_of_string. split; [vm_compute; reflexivity|].
  split; reflexivity.
Qed.

(** ** [sorted(..., reverse=True)]: permutation, order and stability *)

Section SortFacts.
Context {A : Type}.
Variable key : A -> float64.

Abbreviation le_key := (fun a b : A => F64.le (key a) (key b) = true).
Abbreviation ge_key := (fun a b : A => F64.ge (key a) (key b) = true).
Abbreviation number := (fun a : A => F64.is_nan (key a) = false).

Lemma insert_asc_perm (x : A) (l : list A) :
  Permutation (insert_asc key x l) (x :: l).
Proof.
  induction l as [|y l IH]; simpl; [reflexivity|].
  destruct (F64.lt (key y) (key x)); [|reflexivity].
  rewrite IH. apply perm_swap.
Qed.

Lemma sort_asc_perm (l : list A) : Permutation (sort_asc key l) l.
Proof.
  induction l as [|x l IH]; simpl; [reflexivity|].
  rewrite insert_asc_perm. now constructor.
Qed.

Lemma sorted_reverse_perm (l : list A) : Permutation (sorted_reverse key l) l.
Proof.
  unfold sorted_reverse.
  rewrite <- Permutation_rev, sort_asc_perm. symmetry. apply Permutation_rev.
Qed.

Lemma insert_asc_ties (k : float64) (x : A) (l : list A) :
  filter (fun a => F64.eq k (key a)) (insert_asc key x l)
  = filter (fun a => F64.eq k (key a)) (x :: l).
Proof.
  induction l as [|y l IH]; [reflexivity|].
  cbn [insert_asc]. destruct (F64.lt (key y) (key x)) eqn:Hlt; [|reflexivity].
  cbn [filter] in *. rewrite IH.
  destruct (F64.eq k (key x)) eqn:Hx; [|reflexivity].
  unfold F64.eq, F64.lt in *. now rewrite (SFltb_not_eq_class k _ _ Hlt Hx).
Qed.

Lemma sort_asc_ties (l : list A) : same_order_on_ties key (sort_asc key l) l.
Proof.
  intros k. induction l as [|x l IH]; [reflexivity|].
  cbn [sort_asc fold_right]. fold (sort_asc key l).
  rewrite insert_asc_ties. cbn [filter]. now rewrite IH.
Qed.

(** Equal keys keep their order through the two reversals. *)
Lemma sorted_reverse_ties (l : list A) : same_order_on_ties key (sorted_reverse key l) l.
Proof.
  intros k. unfold sorted_reverse.
  rewrite filter_rev, sort_asc_ties, filter_rev. apply rev_involutive.
Qed.

Lemma insert_asc_sorted (x : A) (l : list A) :
  number x -> Forall number l ->
  StronglySorted le_key l -> StronglySorted le_key (insert_asc key x l).
Proof.
  intros Hx Hl Hs. induction Hs as [|y l Hs IH Hy]; simpl.
  - repeat constructor.
  - inversion Hl as [|? ? Hny Hl']; subst.
    destruct (F64.lt (key y) (key x)) eqn:Hlt.
    + constructor; [now apply IH|].
      eapply Permutation_Forall; [symmetry; apply insert_asc_perm|].
      constructor; [|exact Hy]. now apply SFltb_leb.
    + assert (Hxy : F64.le (key x) (key y) = true)
        by (apply SFltb_false_leb; assumption).
      constructor; [now constructor|].
      constructor; [exact Hxy|].
      eapply Forall_impl; [|exact Hy]. intros z Hz. cbv beta in *.
      unfold F64.le in *. eapply SFleb_trans; eassumption.
Qed.

Lemma sort_asc_sorted (l : list A) :
  Forall number l -> StronglySorted le_key (sort_asc key l).
Proof.
  induction 1 as [|x l Hx Hl IH]; simpl; [constructor|].
  apply insert_asc_sorted; auto.
  eapply Permutation_Forall; [symmetry; apply sort_asc_perm | exact Hl].
Qed.

Lemma strongly_sorted_snoc (R : A -> A -> Prop) (l : list A) (a : A) :
  StronglySorted R l -> Forall (fun z => R z a) l -> StronglySorted R (l ++ [a]).
Proof.
  induction 1 as [|y l Hs IH Hy]; simpl; intros Ha.
  - repeat constructor.
  - inversion Ha; subst. constructor; [now apply IH|].
    apply Forall_app; split; [exact Hy | now repeat constructor].
Qed.

Lemma strongly_sorted_rev (R : A -> A -> Prop) (l : list A) :
  StronglySorted R l -> StronglySorted (fun a b => R b a) (rev l).
Proof.
  induction 1 as [|y l Hs IH Hy]; simpl; [constructor|].
  apply strongly_sorted_snoc; [exact IH|].
  apply Forall_rev. exact Hy.
Qed.

(** On keys that are numbers the result is in descending order. *)
Lemma sorted_reverse_descending (l : list A) :
  Forall number l -> descending key (sorted_reverse key l).
Proof.
  intros Hl. unfold descending, sorted_reverse, F64.ge.
  apply (strongly_sorted_rev le_key). apply sort_asc_sorted.
  now apply Forall_rev.
Qed.

End SortFacts.

(** ** The predict handler *)

Ltac bind_inv H :=
  let a := fresh "a" in
  let Ha := fresh "Ha" in
  apply bind_ok in H; destruct H as (a & Ha & H).

Section HandlerFacts.
Variable secure_filename : string -> string.
Variable float_of_string : string -> option float64.
Variable int_of_string : string -> option Z.
Variable py_repr : pyval -> string.
Variable exp_finite : float32 -> float32.
Variable np_sum : list float32 -> float32.
Variable http_post : string -> string -> string -> string -> Z -> post_outcome.
Variable now_utc_iso : string.
Variable env_deepstack_base_url : option string.
Variable config : AppConfig.

Abbreviation local_engine world f :=
  (predict_with_local_onnx float_of_string int_of_string py_repr exp_finite np_sum
     world f "Fruits.onnx" "config.json").
Abbreviation build_response :=
  (build_prediction_response float_of_string py_repr now_utc_iso env_deepstack_base_url).
Abbreviation handle world :=
  (predict secure_filename float_of_string int_of_string py_repr exp_finite np_sum
     http_post now_utc_iso env_deepstack_base_url world config).
Abbreviation attempt :=
  (remote_attempt secure_filename float_of_string py_repr http_post now_utc_iso
     env_deepstack_base_url config).

Lemma label_predictions_length (label_map : pyval) (probabilities : list float32) :
  forall i ps,
    label_predictions py_repr label_map i probabilities = Ok ps ->
    List.length ps = List.length probabilities.
Proof.
  induction probabilities as [|p probabilities IH]; simpl; intros i ps H.
  - now inversion H.
  - bind_inv H. bind_inv H. inversion H; subst. simpl. f_equal. eapply IH; eassumption.
Qed.

Lemma softmax_length (logits probs : list float32) :
  _softmax exp_finite np_sum logits = Ok probs ->
  logits <> [] /\ List.length probs = List.length logits.
Proof.
  intros H. destruct logits as [|x xs]; [discriminate|].
  split; [discriminate|].
  unfold _softmax, _softmax_run in H. cbn [np_max bind] in H.
  destruct (F32.le _ F32.zero); cbn [bind fst] in H; inversion H; subst;
    simpl; now rewrite ?length_map.
Qed.

Lemma softmax_returns (logits : list float32) :
  logits <> [] -> exists probs, _softmax exp_finite np_sum logits = Ok probs.
Proof.
  intros Hne. destruct logits as [|x xs]; [congruence|].
  unfold _softmax, _softmax_run. cbn [np_max bind].
  destruct (F32.le _ F32.zero); cbn [bind fst]; eauto.
Qed.

(** A successful local inference returns at least one prediction. *)
Lemma local_success_nonempty (world : LocalWorld) (f : UploadedFile)
      (preds : list LocalPrediction) :
  local_engine world f = Ok preds -> preds <> [].
Proof.
  unfold predict_with_local_onnx. intros H.
  do 16 bind_inv H.
  inversion H; subst preds; clear H.
  match goal with
  | Hs : _softmax _ _ _ = Ok ?probs, Hl : label_predictions _ _ _ ?probs = Ok ?ps |- _ =>
      apply softmax_length in Hs; destruct Hs as [Hne Hlen];
      apply label_predictions_length in Hl
  end.
  intros Hnil.
  match goal with
  | Hnil : sorted_reverse ?k ?ps = [] |- _ =>
      pose proof (Permutation_length (sorted_reverse_perm k ps)) as Hp;
      rewrite Hnil in Hp; simpl in Hp
  end.
  match goal with
  | Hne : ?l <> [] |- _ => destruct l; [congruence | simpl in *; congruence]
  end.
Qed.

Lemma normalize_float_ok (c : float64) :
  exists sp, _normalize_confidence float_of_string (PFloat c) = Ok sp.
Proof.
  unfold _normalize_confidence; simpl.
  destruct (F64.gt (py_max F64.zero c) F64.one); eauto.
Qed.

Lemma prediction_of_local (p : LocalPrediction) :
  exists q,
    prediction_of float_of_string py_repr
      [("label", PStr (lp_label p)); ("confidence", PFloat (lp_confidence p))] = Ok q.
Proof.
  unfold prediction_of.
  replace (get_or_none [("label", PStr (lp_label p));
                        ("confidence", PFloat (lp_confidence p))] "confidence")
    with (PFloat (lp_confidence p)) by reflexivity.
  destruct (normalize_float_ok (lp_confidence p)) as ([s pc] & ->).
  simpl. eauto.
Qed.

Lemma local_entries_ok (preds : list LocalPrediction) :
  exists ps,
    map_result (prediction_of float_of_string py_repr)
      (dict_items (map local_prediction_dict preds)) = Ok ps
    /\ List.length ps = List.length preds.
Proof.
  induction preds as [|p preds (ps & IH & Hlen)].
  - now exists [].
  - cbn [map dict_items flat_map local_prediction_dict app map_result].
    fold (dict_items (map local_prediction_dict preds)).
    destruct (prediction_of_local p) as (q & ->).
    rewrite IH. simpl. eexists; split; [reflexivity|]. simpl. now f_equal.
Qed.

(** The response builder accepts every non-empty local prediction list. *)
Lemma build_local_ok (preds : list LocalPrediction) (endpoint model_name : string) :
  preds <> [] ->
  exists data',
    build_response
      (PDict [("predictions", PList (map local_prediction_dict preds))])
      endpoint model_name = Ok data'.
Proof.
  intros Hne. unfold build_prediction_response.
  rewrite extract_dict by reflexivity.
  unfold raw_entries; simpl.
  destruct (local_entries_ok preds) as (ps & -> & Hlen); simpl.
  destruct ps as [|p ps].
  { destruct preds; [congruence | discriminate]. }
  simpl.
  pose proof (Permutation_length (sorted_reverse_perm confidence_percent (p :: ps))) as Hp.
  destruct (sorted_reverse confidence_percent (p :: ps)); [discriminate|].
  eauto.
Qed.

Lemma predict_after_validation (world : LocalWorld) (file : option UploadedFile)
      (f : UploadedFile) (lg : list log_entry) :
  validate_image_upload secure_filename file = (Some f, None) ->
  handle world file lg
  = h_try (attempt f)
      (fun exc =>
         match exc with
         | DeepstackClientError _ status_code exc_details =>
             Some (on_deepstack_error float_of_string int_of_string py_repr exp_finite
                     np_sum now_utc_iso env_deepstack_base_url world config
                     f exc status_code exc_details)
         | _ => Some (on_unexpected exc)
         end) lg.
Proof. intros Hv. unfold predict. now rewrite Hv. Qed.

(** A [DeepstackClientError] of [call_custom_model] is what the attempt raises. *)
Lemma attempt_raises_client_error (f : UploadedFile) (lg : list log_entry) (e : exn) :
  call_custom_model secure_filename http_post f (DEEPSTACK_BASE_URL config)
    (DEEPSTACK_MODEL_NAME config) (DEEPSTACK_TIMEOUT_SECONDS config) = Raise e ->
  attempt f lg = (lg, Raise e).
Proof. intros H. unfold remote_attempt, h_bind, h_lift. now rewrite H. Qed.


(** An exception of the remote attempt that is not a [DeepstackClientError]
    is answered with the generic 500 response. *)
Lemma unexpected_in_attempt_is_500 (world : LocalWorld) (file : option UploadedFile)
      (f : UploadedFile) (lg lg1 : list log_entry) (e : exn) :
  validate_image_upload secure_filename file = (Some f, None) ->
  attempt f lg = (lg1, Raise e) ->
  (forall m s d, e <> DeepstackClientError m s d) ->
  handle world file lg
  = ((lg1 ++ [LogException "Unexpected prediction error" e])%list, Ok (generic_500 e)).
Proof.
  intros Hv Ha Hne.
  rewrite (predict_after_validation world file f lg Hv).
  unfold h_try. rewrite Ha.
  destruct e; try reflexivity. now elim (Hne message status_code details0).
Qed.

End HandlerFacts.


(** C9 on the fallback path: the remote call answers 404, the fallback is
    enabled, and reading the configuration file raises a [ValueError]; the
    exception leaves [predict]: neither clause of its [try] statement
    answers it, and no response is built. *)
Theorem fallback_exception_leaves_predict
        (float_of_string : string -> option float64)
        (int_of_string : string -> option Z) (py_repr : pyval -> string)
        (exp_finite : float32 -> float32) (np_sum : list float32 -> float32)
        (lg : list log_entry) :
  predict secure_filename_ascii float_of_string int_of_string py_repr
    exp_finite np_sum http_404 "2024-01-01T00:00:00+00:00" None
    broken_config_world (sample_config true) (Some sample_file) lg
  = (lg, Raise (ValueError "Expecting value: line 1 column 1 (char 0)")).
Proof. reflexivity. Qed.

(** ** The order of the mantissas of well-formed floats *)

Lemma shl_align_value (m : positive) (e ez : Z) :
  ez <= e -> Zpos (fst (shl_align m e ez)) = Zpos m * 2 ^ (e - ez).
Proof.
  intros H. unfold shl_align.
  destruct (ez - e) as [|d|d] eqn:Hd; cbn [fst]; try lia.
  - replace (e - ez) with 0 by lia. lia.
  - rewrite pos_iter_xO. replace (e - ez) with (Zpos d) by lia. reflexivity.
Qed.

Section Aligned.
Variables prec emax : Z.
Hypothesis Hprec : 0 < prec.

Lemma valid_mantissa (s : bool) (m : positive) (e : Z) :
  valid_binary prec emax (S754_finite s m e) = true ->
  Zpos m < 2 ^ prec /\ emin prec emax <= e
  /\ (emin prec emax < e -> 2 ^ (prec - 1) <= Zpos m).
Proof.
  intros Hv. apply (bounded_canonical prec emax) in Hv. destruct Hv as [Hc _].
  unfold fexp in Hc.
  pose proof (digits2_pos_bounds m) as [Hlo Hhi].
  assert (Hd : Zpos (digits2_pos m) <= prec) by lia.
  repeat split.
  - assert (2 ^ Zpos (digits2_pos m) <= 2 ^ prec) by (apply Z.pow_le_mono_r; lia). lia.
  - lia.
  - intros He. assert (Hd' : Zpos (digits2_pos m) = prec) by lia.
    rewrite Hd' in Hlo. exact Hlo.
Qed.

(** The order of two well-formed finite floats is the order of their
    mantissas over the smaller exponent. *)
Lemma SFleb_aligned (sx sy : bool) (mx my : positive) (ex ey : Z) :
  valid_binary prec emax (S754_finite sx mx ex) = true ->
  valid_binary prec emax (S754_finite sy my ey) = true ->
  SFleb (S754_finite sx mx ex) (S754_finite sy my ey) = true ->
  cond_Zopp sx (Zpos (fst (shl_align mx ex (Z.min ex ey))))
  <= cond_Zopp sy (Zpos (fst (shl_align my ey (Z.min ex ey)))).
Proof.
  intros Hvx Hvy Hle.
  destruct (valid_mantissa sx mx ex Hvx) as (Hxhi & Hxe & Hxlo).
  destruct (valid_mantissa sy my ey Hvy) as (Hyhi & Hye & Hylo).
  rewrite !shl_align_value by lia.
  apply SFleb_rank in Hle. destruct Hle as (_ & _ & Hle).
  assert (Hp : 2 ^ prec = 2 * 2 ^ (prec - 1)).
  { replace prec with (prec - 1 + 1) at 1 by lia. rewrite Z.pow_add_r by lia. lia. }
  assert (Hgrow : forall k, 0 < k -> 2 <= 2 ^ k).
  { intros k Hk. change 2 with (2 ^ 1) at 1. apply Z.pow_le_mono_r; lia. }
  destruct sx, sy; cbn [cond_Zopp rank] in *.
  - (* both negative *)
    unfold lex in Hle. cbn [fst snd] in Hle.
    destruct (Z.compare_spec (-1) (-1)) as [_| |]; try lia.
    destruct (Z.compare_spec (- ex) (- ey)) as [He|He|He]; try congruence.
    + assert (ex = ey) by lia. subst ey.
      rewrite Z.min_id, Z.sub_diag, Z.pow_0_r.
      destruct (Z.compare_spec (- Zpos mx) (- Zpos my)); try congruence; lia.
    + replace (Z.min ex ey) with ey by lia. rewrite Z.sub_diag, Z.pow_0_r.
      specialize (Hxlo ltac:(lia)). specialize (Hgrow (ex - ey) ltac:(lia)). nia.
  - pose proof (Z.pow_pos_nonneg 2 (ex - Z.min ex ey) ltac:(lia) ltac:(lia)).
    pose proof (Z.pow_pos_nonneg 2 (ey - Z.min ex ey) ltac:(lia) ltac:(lia)). nia.
  - exfalso. apply Hle. reflexivity.
  - (* both positive *)
    unfold lex in Hle. cbn [fst snd] in Hle.
    destruct (Z.compare_spec 1 1) as [_| |]; try lia.
    destruct (Z.compare_spec ex ey) as [He|He|He]; try congruence.
    + subst ey. rewrite Z.min_id, Z.sub_diag, Z.pow_0_r.
      destruct (Z.compare_spec (Zpos mx) (Zpos my)); try congruence; lia.
    + replace (Z.min ex ey) with ex by lia. rewrite Z.sub_diag, Z.pow_0_r.
      specialize (Hylo ltac:(lia)). specialize (Hgrow (ey - ex) ltac:(lia)). nia.
Qed.

End Aligned.

(** ** The sign of a difference *)

Lemma binary_round_sign (prec emax : Z) (s : bool) (m : positive) (e : Z) :
  binary_round prec emax s m e = S754_zero s
  \/ binary_round prec emax s m e = S754_infinity s
  \/ exists q e', binary_round prec emax s m e = S754_finite s q e'.
Proof.
  unfold binary_round.
  destruct (shl_align m e (fexp prec emax (Zpos (digits2_pos m) + e))) as [mz ez].
  apply binary_round_aux_shape. lia.
Qed.

(** Subtracting from a number one that is at least as large gives no
    positive number. *)
Lemma sub_from_smaller (x y : float32) :
  valid_binary F32.prec F32.emax x = true ->
  valid_binary F32.prec F32.emax y = true ->
  F32.le x y = true ->
  nonpositive_or_nan (F32.sub x y) = true.
Proof.
  intros Hvx Hvy Hle. unfold F32.le in Hle.
  destruct x as [sx|sx| |sx mx ex], y as [sy|sy| |sy my ey];
    try discriminate Hle; cbn [F32.sub SFsub nonpositive_or_nan];
    try reflexivity;
    try (destruct sx, sy; try discriminate Hle; reflexivity);
    try (destruct sx; try discriminate Hle; reflexivity);
    try (destruct sy; try discriminate Hle; reflexivity).
  pose proof (SFleb_aligned F32.prec F32.emax ltac:(reflexivity) _ _ _ _ _ _ Hvx Hvy Hle)
    as Hord.
  unfold F32.sub, SFsub.
  set (X := cond_Zopp sx (Zpos (fst (shl_align mx ex (Z.min ex ey))))) in *.
  set (Y := cond_Zopp sy (Zpos (fst (shl_align my ey (Z.min ex ey))))) in *.
  destruct (X - Y) as [|p|p] eqn:Hd; [reflexivity | lia |].
  cbn [binary_normalize].
  destruct (binary_round_sign F32.prec F32.emax true p (Z.min ex ey))
    as [-> | [-> | (q & e' & ->)]]; reflexivity.
Qed.

(** ** Softmax gives numbers for every class, or NaN for every class *)

Section SoftmaxAllOrNone.
Variable exp_finite : float32 -> float32.
Variable np_sum : list float32 -> float32.
Hypothesis Hnumpy : numpy_sound exp_finite np_sum.

Lemma np_exp_of_nonpositive (x : float32) :
  nonpositive_or_nan x = true ->
  F32.is_nan (np_exp exp_finite x) = false ->
  finite_or_zero (np_exp exp_finite x) = true.
Proof.
  destruct Hnumpy as [_ Hexp].
  destruct x as [s|s| |s m e]; cbn [nonpositive_or_nan np_exp]; intros Hx Hn;
    try reflexivity; try discriminate.
  - destruct s; [reflexivity | discriminate].
  - destruct s; [apply Hexp | discriminate].
Qed.

Lemma div_by_nan (xs : list float32) :
  Forall (fun p => F32.is_nan p = true) (map (fun x => F32.div x S754_nan) xs).
Proof.
  induction xs as [|x xs IH]; constructor; [|exact IH].
  destruct x; reflexivity.
Qed.

Lemma div_number (x d : float32) :
  finite_or_zero x = true -> F32.is_nan d = false -> F32.le d F32.zero = false ->
  F32.is_nan (F32.div x d) = false.
Proof.
  intros Hx Hd Hle.
  destruct d as [sd|sd| |sd md ed]; try discriminate.
  - destruct x as [sx|sx| |sx mx ex]; try discriminate; reflexivity.
  - destruct x as [sx|sx| |sx mx ex]; try discriminate; [reflexivity|].
    apply (SFdiv_number F32.prec F32.emax). reflexivity.
Qed.

Lemma not_in_nan (xs : list float32) :
  ~ In S754_nan xs -> Forall (fun x => F32.is_nan x = false) xs.
Proof.
  induction xs as [|x xs IH]; intros H; constructor.
  - destruct x; try reflexivity. exfalso. apply H. now left.
  - apply IH. intros Hin. apply H. now right.
Qed.

(** On binary32 logits [_softmax] returns NaN for every class or for
    none. *)
Lemma softmax_all_or_none (logits probs : list float32) :
  Forall (fun x => valid_binary F32.prec F32.emax x = true) logits ->
  _softmax exp_finite np_sum logits = Ok probs ->
  Forall (fun p => F32.is_nan p = true) probs
  \/ Forall (fun p => F32.is_nan p = false) probs.
Proof.
  intros Hvalid H. destruct logits as [|x xs]; [discriminate|].
  set (logits := x :: xs) in *.
  set (m := fold_left np_maximum xs x).
  set (exps := map (np_exp exp_finite) (map (fun y => F32.sub y m) logits)).
  change (_softmax exp_finite np_sum logits)
    with (bind (if F32.le (np_sum exps) F32.zero
                then Ok (map (fun _ : float32 => F32.zero) logits, [])
                else Ok (map (fun y => F32.div y (np_sum exps)) exps, [np_sum exps]))
               (fun r => Ok (fst r))) in H.
  destruct (F32.le (np_sum exps) F32.zero) eqn:Hle; cbv [bind fst] in H.
  { right. replace probs with (map (fun _ : float32 => F32.zero) logits) by congruence.
    rewrite Forall_map. apply Forall_forall. intros; reflexivity. }
  replace probs with (map (fun y => F32.div y (np_sum exps)) exps) by congruence.
  clear H.
  destruct (F32.is_nan (np_sum exps)) eqn:Hd.
  { left. destruct (np_sum exps); try discriminate. apply (div_by_nan exps). }
  right.
  (* the sum is a number: no exponential is NaN, so no logit is *)
  assert (Hexps : ~ In S754_nan exps).
  { intros Hin. rewrite (proj1 Hnumpy exps Hin) in Hd. discriminate. }
  assert (Hlogits : Forall (fun y => F32.is_nan y = false) logits).
  { apply not_in_nan. intros Hin. apply Hexps.
    assert (Hm : m = S754_nan) by (apply fold_np_maximum_nan; exact Hin).
    unfold exps. rewrite Hm. left. destruct x; reflexivity. }
  assert (Hmax : F32.is_nan m = false /\ Forall (fun y => F32.le y m = true) logits).
  { inversion Hlogits as [|? ? Hx Hxs]; subst.
    destruct (fold_np_maximum_ge xs x Hx Hxs) as (Hn & H1 & H2).
    split; [exact Hn | now constructor]. }
  destruct Hmax as [Hmn Hmax].
  assert (Hmv : valid_binary F32.prec F32.emax m = true).
  { pose proof (fold_np_maximum_in xs x) as Hin. fold m logits in Hin.
    rewrite Forall_forall in Hvalid. now apply Hvalid. }
  assert (Hfin : Forall (fun v => finite_or_zero v = true) exps).
  { apply not_in_nan in Hexps. unfold exps in *. rewrite !Forall_map in *.
    rewrite Forall_forall in *. intros y Hy.
    apply np_exp_of_nonpositive; [|now apply Hexps].
    apply sub_from_smaller; [now apply Hvalid | exact Hmv | now apply Hmax]. }
  rewrite Forall_map. eapply Forall_impl; [|exact Hfin].
  intros v Hv. cbv beta. now apply div_number.
Qed.

End SoftmaxAllOrNone.

(** ** A ranking whose keys are all NaN *)

Lemma to_f64_nan (x : float32) : F64.is_nan (F32.to_f64 x) = F32.is_nan x.
Proof.
  destruct x as [s|s| |s m e]; try reflexivity.
  cbn [F32.to_f64 F32.is_nan].
  destruct (binary_round_sign F64.prec F64.emax s m e) as [-> | [-> | (q & e' & ->)]];
    reflexivity.
Qed.

Lemma by_class_confidences (py_repr : pyval -> string) (label_map : list (string * pyval))
      (probabilities : list float32) :
  forall first,
    map lp_confidence (by_class py_repr label_map first probabilities)
    = map F32.to_f64 probabilities.
Proof.
  unfold by_class.
  induction probabilities as [|p ps IH]; intros first; [reflexivity|].
  cbn [List.length seq combine map lp_confidence snd]. f_equal. apply IH.
Qed.

Section SortedNaN.
Context {A : Type}.
Variable key : A -> float64.

Lemma insert_asc_nan (x : A) (l : list A) :
  F64.is_nan (key x) = true -> insert_asc key x l = x :: l.
Proof.
  intros Hx. destruct l as [|y l]; [reflexivity|]. cbn [insert_asc].
  unfold F64.lt. destruct (key x); try discriminate. destruct (key y); reflexivity.
Qed.

Lemma sort_asc_nan (l : list A) :
  Forall (fun a => F64.is_nan (key a) = true) l -> sort_asc key l = l.
Proof.
  unfold sort_asc. induction 1 as [|x l Hx _ IH]; [reflexivity|].
  cbn [fold_right]. rewrite IH. now apply insert_asc_nan.
Qed.

(** A list whose keys are all NaN is returned as it is. *)
Lemma sorted_reverse_nan (l : list A) :
  Forall (fun a => F64.is_nan (key a) = true) l -> sorted_reverse key l = l.
Proof.
  intros H. unfold sorted_reverse. rewrite sort_asc_nan; [apply rev_involutive|].
  now apply Forall_rev.
Qed.

Lemma never_ascending_nan (l : list A) :
  Forall (fun a => F64.is_nan (key a) = true) l -> never_ascending key l.
Proof.
  unfold never_ascending. induction 1 as [|x l Hx _ IH]; constructor; [exact IH|].
  rewrite Forall_forall. intros b _. unfold F64.lt. destruct (key x); try discriminate.
  reflexivity.
Qed.

Lemma descending_never_ascending (l : list A) :
  descending key l -> never_ascending key l.
Proof.
  unfold descending, never_ascending.
  induction 1 as [|x l _ IH Hx]; constructor; [exact IH|].
  eapply Forall_impl; [|exact Hx]. cbv beta. intros b Hge.
  unfold F64.ge, F64.lt, SFleb, SFltb in *.
  rewrite (SFcompare_antisym (key x) (key b)) in Hge.
  destruct (SFcompare (key x) (key b)) as [[]|]; simpl in *; congruence.
Qed.

End SortedNaN.

(** ** The local ranking in class order *)

Section Shape.
Variable float_of_string : string -> option float64.
Variable int_of_string : string -> option Z.
Variable py_repr : pyval -> string.
Variable exp_finite : float32 -> float32.
Variable np_sum : list float32 -> float32.

Lemma label_predictions_by_class (label_map : list (string * pyval))
      (probabilities : list float32) :
  forall first,
    label_predictions py_repr (PDict label_map) first probabilities
    = Ok (by_class py_repr label_map first probabilities).
Proof.
  induction probabilities as [|p probabilities IH]; intros first; [reflexivity|].
  cbn [label_predictions py_get bind]. rewrite IH. cbn [bind].
  unfold by_class. cbn [List.length seq combine map fst snd].
  do 3 f_equal. unfold class_label, get_or.
  destruct (dict_get label_map (str_of_nat first)) as [[]|]; reflexivity.
Qed.

Lemma label_predictions_needs_a_dict (label_map : pyval) (first : nat)
      (probabilities : list float32) (ps : list LocalPrediction) :
  probabilities <> [] ->
  label_predictions py_repr label_map first probabilities = Ok ps ->
  exists lm, label_map = PDict lm.
Proof.
  intros Hne. destruct probabilities as [|p rest]; [congruence|].
  destruct label_map; try discriminate. eauto.
Qed.

(** What a returned local inference went through: the configuration is a
    dict whose [map] is a dict, the session ran, and the list is the sorted
    list of the softmax probabilities in class order. *)
Lemma local_ranking_shape (world : LocalWorld) (f : UploadedFile)
      (model_path config_path : string) (ranked : list LocalPrediction) :
  predict_with_local_onnx float_of_string int_of_string py_repr exp_finite np_sum
    world f model_path config_path = Ok ranked ->
  exists d label_map session input_name tensor output probabilities,
    config_document world = Ok (PDict d)
    /\ get_or d "map" (PDict []) = PDict label_map
    /\ _load_session world model_path = Ok session
    /\ run session input_name tensor = Ok output
    /\ _softmax exp_finite np_sum output = Ok probabilities
    /\ ranked = sorted_reverse lp_confidence (by_class py_repr label_map 0 probabilities).
Proof.
  unfold predict_with_local_onnx. intros H. do 16 bind_inv H.
  injection H as <-.
  match goal with
  | Hs : _softmax _ _ ?out = Ok ?probs,
    Hl : label_predictions _ ?lm _ ?probs = Ok ?ps |- _ =>
      pose proof (softmax_length _ _ _ _ Hs) as [Hne Hlen];
      assert (Hpne : probs <> []) by (destruct probs, out; simpl in Hlen; congruence);
      destruct (label_predictions_needs_a_dict lm 0%nat probs ps Hpne Hl)
        as (label_map & ->);
      rewrite label_predictions_by_class in Hl; injection Hl as <-;
      rename out into output; rename probs into probabilities
  end.
  match goal with
  | Hc : _load_config _ _ = Ok ?c, Hm : py_get ?c "map" _ = Ok (PDict label_map) |- _ =>
      destruct c as [| | | | | |d]; try discriminate Hm;
      injection Hm as Hm;
      unfold _load_config in Hc; destruct (negb (config_exists world)); [discriminate|]
  end.
  match goal with
  | Hs : _load_session _ _ = Ok ?s,
    Hr : as_local_error _ (run ?s ?n ?t) = Ok output |- _ =>
      exists d, label_map, s, n, t, output, probabilities;
      assert (Hrun : run s n t = Ok output)
        by (destruct (run s n t); [exact Hr | discriminate Hr])
  end.
  repeat split; assumption.
Qed.

(** The local ranking, from the probabilities in class order. *)
Lemma local_ranking_order (label_map : list (string * pyval))
      (probabilities : list float32) :
  let in_class_order := by_class py_repr label_map 0 probabilities in
  let ranked := sorted_reverse lp_confidence in_class_order in
  Permutation ranked in_class_order
  /\ same_order_on_ties lp_confidence ranked in_class_order
  /\ (Forall (fun p => F64.is_nan (lp_confidence p) = false) ranked ->
      descending lp_confidence ranked)
  /\ (Forall (fun p => F64.is_nan (lp_confidence p) = true) ranked ->
      ranked = in_class_order).
Proof.
  intros in_class_order ranked.
  split; [apply sorted_reverse_perm|]. split; [apply sorted_reverse_ties|]. split.
  - intros Hn. apply sorted_reverse_descending.
    eapply Permutation_Forall; [apply sorted_reverse_perm | exact Hn].
  - intros Hn. apply sorted_reverse_nan.
    eapply Permutation_Forall; [apply sorted_reverse_perm | exact Hn].
Qed.

(** The confidences in class order are NaN where the probabilities are. *)
Lemma local_ranking_keys (label_map : list (string * pyval))
      (probabilities : list float32) (b : bool) :
  Forall (fun p => F32.is_nan p = b) probabilities ->
  Forall (fun p => F64.is_nan (lp_confidence p) = b)
         (sorted_reverse lp_confidence (by_class py_repr label_map 0 probabilities)).
Proof.
  intros Hb.
  eapply Permutation_Forall; [symmetry; apply sorted_reverse_perm|].
  rewrite <- (Forall_map lp_confidence (fun c => F64.is_nan c = b)).
  rewrite by_class_confidences, Forall_map.
  eapply Forall_impl; [|exact Hb]. cbv beta. intros p Hp. now rewrite to_f64_nan.
Qed.

End Shape.

(** ** Ranked lists *)

Section Ranked.
Variable float_of_string : string -> option float64.
Variable int_of_string : string -> option Z.
Variable py_repr : pyval -> string.
Variable exp_finite : float32 -> float32.
Variable np_sum : list float32 -> float32.

Lemma normalize_results_are_numbers (v : pyval) (score percent : float64) :
  _normalize_confidence float_of_string v = Ok (score, percent) ->
  F64.is_nan score = false /\ F64.is_nan percent = false.
Proof.
  unfold _normalize_confidence. intros H. bind_inv H.
  set (c := py_max F64.zero a) in H.
  assert (Hcn : F64.is_nan c = false).
  { pose proof (le_zero_of_gt_zero a) as H0. apply SFleb_not_nan in H0. tauto. }
  destruct (F64.gt c F64.one); inversion H; subst; clear H.
  - assert (Hp : F64.is_nan (py_min c F64.hundred) = false)
      by (unfold py_min; destruct (F64.lt F64.hundred c); [reflexivity | exact Hcn]).
    split; [|exact Hp]. now apply SFdiv_number.
  - split; [exact Hcn|]. now apply SFmul_number.
Qed.

Lemma prediction_of_number (d : list (string * pyval)) (p : Prediction) :
  prediction_of float_of_string py_repr d = Ok p ->
  F64.is_nan (confidence_percent p) = false.
Proof.
  unfold prediction_of. intros H. bind_inv H. destruct a as [score percent].
  inversion H; subst; clear H. cbn [confidence_percent].
  apply py_round_number. now apply normalize_results_are_numbers in Ha.
Qed.

(** The keys of the remote path are binary64 values, whatever the payload
    holds: the last operation on each is a correctly rounded division. *)
Lemma prediction_of_valid (d : list (string * pyval)) (p : Prediction) :
  prediction_of float_of_string py_repr d = Ok p ->
  F64.valid (confidence_percent p) = true.
Proof.
  unfold prediction_of, _normalize_confidence. intros H. bind_inv H. bind_inv Ha.
  destruct (F64.gt (py_max F64.zero a0) F64.one) eqn:Hgt;
    inversion Ha; subst; inversion H; subst; clear H Ha; cbn [confidence_percent].
  - unfold py_min. destruct (F64.lt F64.hundred (py_max F64.zero a0)) eqn:Hlt.
    + reflexivity.
    + (* a value in (1, 100] is finite: rounding it is a division *)
      destruct (py_max F64.zero a0) as [s|s| |s m e]; try reflexivity.
      unfold py_round. cbv zeta.
      destruct (if 0 <=? e then _ else _); try reflexivity.
      unfold F64.div. apply SFdiv_valid. reflexivity.
  - apply py_round_valid. apply mul_hundred_valid.
Qed.

Lemma map_result_Forall {A B : Type} (f : A -> result B) (P : B -> Prop)
      (l : list A) (ys : list B) :
  (forall x y, f x = Ok y -> P y) -> map_result f l = Ok ys -> Forall P ys.
Proof.
  intros HP. revert ys. induction l as [|x l IH]; simpl; intros ys H.
  - inversion H. constructor.
  - bind_inv H. bind_inv H. inversion H; subst. constructor; eauto.
Qed.

(** C6: the list [_extract_predictions] returns is a permutation of the
    predictions in first-seen order, its keys are binary64 values, it is in
    descending order of [confidence_percent], and equal keys are in
    first-seen order.  The list [predict_with_local_onnx] returns is the
    sorted list of the softmax probabilities of the session's output,
    labelled in class-index order: a permutation of them with equal keys in
    class-index order, in descending order of [confidence] when the
    confidences are numbers and in class-index order when they are all NaN,
    which no comparison tells apart.  With numpy's sum and exponential and
    binary32 output values the confidences are numbers or are all NaN, and
    no entry is followed by one of greater confidence. *)
Theorem ranked_lists_are_sorted :
  (forall payload ranked,
      _extract_predictions float_of_string py_repr payload = Ok ranked ->
      exists d first_seen,
        payload = PDict d
        /\ map_result (prediction_of float_of_string py_repr) (raw_entries d)
           = Ok first_seen
        /\ Permutation ranked first_seen
        /\ Forall (fun p => F64.valid (confidence_percent p) = true) ranked
        /\ descending confidence_percent ranked
        /\ same_order_on_ties confidence_percent ranked first_seen)
  /\ (forall world f model_path config_path ranked,
         predict_with_local_onnx float_of_string int_of_string py_repr exp_finite
           np_sum world f model_path config_path = Ok ranked ->
         exists d label_map session input_name tensor output probabilities,
           config_document world = Ok (PDict d)
           /\ get_or d "map" (PDict []) = PDict label_map
           /\ _load_session world model_path = Ok session
           /\ run session input_name tensor = Ok output
           /\ _softmax exp_finite np_sum output = Ok probabilities
           /\ let in_class_order := by_class py_repr label_map 0 probabilities in
              Permutation ranked in_class_order
              /\ same_order_on_ties lp_confidence ranked in_class_order
              /\ (Forall (fun p => F64.is_nan (lp_confidence p) = false) ranked ->
                  descending lp_confidence ranked)
              /\ (Forall (fun p => F64.is_nan (lp_confidence p) = true) ranked ->
                  ranked = in_class_order)
              /\ (numpy_sound exp_finite np_sum -> outputs_valid session ->
                  never_ascending lp_confidence ranked
                  /\ (Forall (fun p => F64.is_nan (lp_confidence p) = false) ranked
                      \/ Forall (fun p => F64.is_nan (lp_confidence p) = true) ranked))).
Proof.
  split.
  - intros payload ranked H.
    destruct payload as [| | | | | |d]; try discriminate.
    destruct (truthy (get_or_none d "error")) eqn:Herr.
    { unfold _extract_predictions in H. rewrite Herr in H. discriminate. }
    rewrite (extract_dict float_of_string py_repr d Herr) in H.
    bind_inv H. rename a into first_seen.
    destruct first_seen as [|p ps]; [discriminate|].
    inversion H; subst ranked; clear H.
    exists d, (p :: ps). split; [reflexivity|]. split; [exact Ha|].
    split; [apply sorted_reverse_perm|].
    split.
    { eapply Permutation_Forall; [symmetry; apply sorted_reverse_perm|].
      eapply map_result_Forall; [|exact Ha].
      intros x y. apply prediction_of_valid. }
    split; [|apply sorted_reverse_ties].
    apply sorted_reverse_descending.
    eapply map_result_Forall; [|exact Ha].
    intros x y. apply prediction_of_number.
  - intros world f model_path config_path ranked H.
    destruct (local_ranking_shape float_of_string int_of_string py_repr exp_finite
                np_sum world f model_path config_path ranked H)
      as (d & label_map & session & input_name & tensor & output & probabilities
          & Hc & Hm & Hs & Hr & Hp & ->).
    exists d, label_map, session, input_name, tensor, output, probabilities.
    repeat (split; [assumption|]).
    destruct (local_ranking_order py_repr label_map probabilities)
      as (Hperm & Hties & Hnum & Hnan).
    cbv zeta. repeat (split; [assumption|]).
    intros Hnumpy Hvalid.
    destruct (softmax_all_or_none exp_finite np_sum Hnumpy output probabilities
                (Hvalid input_name tensor output Hr) Hp) as [Hall | Hnone].
    + pose proof (local_ranking_keys py_repr label_map probabilities true Hall) as Hk.
      split; [now apply never_ascending_nan | now right].
    + pose proof (local_ranking_keys py_repr label_map probabilities false Hnone) as Hk.
      split; [apply descending_never_ascending; now apply Hnum | now left].
Qed.

End Ranked.

(** A left-to-right sum over an array that holds a NaN is NaN. *)
Lemma sum_sequential_nan_in (xs : list float32) :
  In S754_nan xs -> sum_sequential xs = S754_nan.
Proof.
  unfold sum_sequential. generalize F32.zero.
  induction xs as [|x xs IH]; intros acc Hin; [contradiction|].
  cbn [fold_left]. destruct Hin as [-> | Hin]; [|now apply IH].
  replace (F32.add acc S754_nan) with (S754_nan : float32) by (destruct acc; reflexivity).
  clear. induction xs as [|y ys IH]; [reflexivity | exact IH].
Qed.

(** C6 at the payload
    [{"predictions": [{"label": "Pear", "confidence": 30},
                      {"label": "Plum", "confidence": 70}]}], at a local
    model that answers one logit, and at one that answers NaN for its two
    classes. *)
Lemma ranked_lists_are_sorted_witness :
  for_every_library (fun float_of_string py_repr =>
    _extract_predictions float_of_string py_repr
      (PDict [("predictions",
               PList [PDict [("label", PStr "Pear"); ("confidence", PInt 30)];
                      PDict [("label", PStr "Plum"); ("confidence", PInt 70)]])])
    = Ok [{| label := "Plum"; confidence := F64.div (F64.of_Z 7) (F64.of_Z 10);
             confidence_percent := F64.of_Z 70 |};
          {| label := "Pear"; confidence := F64.div (F64.of_Z 3) (F64.of_Z 10);
             confidence_percent := F64.of_Z 30 |}]
    /\ descending confidence_percent
         [{| label := "Plum"; confidence := F64.div (F64.of_Z 7) (F64.of_Z 10);
             confidence_percent := F64.of_Z 70 |};
          {| label := "Pear"; confidence := F64.div (F64.of_Z 3) (F64.of_Z 10);
             confidence_percent := F64.of_Z 30 |}])
  /\ for_every_builtin (fun float_of_string int_of_string py_repr =>
       (exists ranked,
           predict_with_local_onnx float_of_string int_of_string py_repr
             (fun _ => F32.one) sum_sequential working_world sample_file
             "Fruits.onnx" "config.json" = Ok ranked
           /\ never_ascending lp_confidence ranked)
       /\ (exists ranked,
              predict_with_local_onnx float_of_string int_of_string py_repr
                (fun _ => F32.one) sum_sequential nan_world sample_file
                "Fruits.onnx" "config.json" = Ok ranked
              /\ never_ascending lp_confidence ranked)).
Proof.
  split.
  - intros float_of_string py_repr.
    assert (He : _extract_predictions float_of_string py_repr
                   (PDict [("predictions",
                            PList [PDict [("label", PStr "Pear"); ("confidence", PInt 30)];
                                   PDict [("label", PStr "Plum"); ("confidence", PInt 70)]])])
                 = Ok [{| label := "Plum"; confidence := F64.div (F64.of_Z 7) (F64.of_Z 10);
                          confidence_percent := F64.of_Z 70 |};
                       {| label := "Pear"; confidence := F64.div (F64.of_Z 3) (F64.of_Z 10);
                          confidence_percent := F64.of_Z 30 |}])
      by (vm_compute; reflexivity).
    split; [exact He|].
    destruct (proj1 (ranked_lists_are_sorted float_of_string (fun _ => None) py_repr
                       (fun x => x) (fun _ => F32.zero)) _ _ He)
      as (d & first_seen & _ & _ & _ & _ & Hd & _).
    exact Hd.
  - intros float_of_string int_of_string py_repr.
    assert (Hnumpy : numpy_sound (fun _ => F32.one) sum_sequential)
      by (split; [exact sum_sequential_nan_in | reflexivity]).
    split.
    + eexists. split; [vm_compute; reflexivity|].
      destruct (proj2 (ranked_lists_are_sorted float_of_string int_of_string py_repr
                         (fun _ => F32.one) sum_sequential)
                  working_world sample_file "Fruits.onnx" "config.json" _ eq_refl)
        as (d & label_map & session & input_name & tensor & output & probabilities
            & _ & _ & Hs & _ & _ & _ & _ & _ & _ & Hsound).
      injection Hs as <-.
      apply Hsound; [exact Hnumpy|].
      intros name tensor' out [= <-]. repeat constructor.
    + eexists. split; [vm_compute; reflexivity|].
      destruct (proj2 (ranked_lists_are_sorted float_of_string int_of_string py_repr
                         (fun _ => F32.one) sum_sequential)
                  nan_world sample_file "Fruits.onnx" "config.json" _ eq_refl)
        as (d & label_map & session & input_name & tensor & output & probabilities
            & _ & _ & Hs & _ & _ & _ & _ & _ & _ & Hsound).
      injection Hs as <-.
      apply Hsound; [exact Hnumpy|].
      intros name tensor' out [= <-]. repeat constructor.
Defined.

(** ** Extraction collects both shapes *)

Section Collect.
Variable float_of_string : string -> option float64.
Variable py_repr : pyval -> string.

Lemma prediction_of_total (e : list (string * pyval)) :
  (forall m, py_float float_of_string (get_or_none e "confidence")
             <> Raise (OverflowError m)) ->
  exists p, prediction_of float_of_string py_repr e = Ok p.
Proof.
  intros Hov. unfold prediction_of, _normalize_confidence.
  destruct (py_float float_of_string (get_or_none e "confidence")) as [x|ex] eqn:Hpf.
  - cbn [except_type_or_value bind].
    destruct (F64.gt (py_max F64.zero x) F64.one); cbn [bind]; eauto.
  - destruct (py_float_raises float_of_string _ ex Hpf) as [[m ->] | [[m ->] | [m ->]]];
      [| | now elim (Hov m)];
      cbn [except_type_or_value bind];
      destruct (F64.gt (py_max F64.zero F64.zero) F64.one); cbn [bind]; eauto.
Qed.

Lemma map_result_total {A B : Type} (f : A -> result B) (l : list A) :
  Forall (fun x => exists y, f x = Ok y) l ->
  exists ys, map_result f l = Ok ys /\ Forall2 (fun x y => f x = Ok y) l ys.
Proof.
  induction 1 as [|x l [y Hy] Hl (ys & IH & IH2)]; simpl.
  - exists []. split; [reflexivity | constructor].
  - rewrite Hy, IH. simpl. exists (y :: ys). split; [reflexivity | now constructor].
Qed.

(** What C4 says holds for every payload none of whose confidence values
    overflows the float range: without an [error] key, the top-level pair
    (when there is a [label] key) and the dict entries of the [predictions]
    list each give one prediction, and no entry at all is the 502 error
    whose details hold the payload. *)
Lemma extraction_collects_unless_overflow (d : list (string * pyval)) :
  dict_has d "error" = false ->
  Forall (fun e => forall m, py_float float_of_string (get_or_none e "confidence")
                             <> Raise (OverflowError m)) (raw_entries d) ->
  (raw_entries d = [] ->
   _extract_predictions float_of_string py_repr (PDict d)
   = Raise (DeepstackClientError "DeepStack returned no predictions for this image."
              502 [("response", PDict d)]))
  /\ (raw_entries d <> [] ->
      exists ranked collected,
        _extract_predictions float_of_string py_repr (PDict d) = Ok ranked
        /\ Forall2 (fun e p => prediction_of float_of_string py_repr e = Ok p)
                   (raw_entries d) collected
        /\ Permutation ranked collected).
Proof.
  intros Herr Hov.
  assert (Ht : truthy (get_or_none d "error") = false).
  { unfold dict_has in Herr. unfold get_or_none.
    destruct (dict_get d "error"); [discriminate | reflexivity]. }
  rewrite (extract_dict float_of_string py_repr d Ht).
  destruct (map_result_total (prediction_of float_of_string py_repr) (raw_entries d))
    as (ps & Hps & H2).
  { eapply Forall_impl; [|exact Hov]. intros e. apply prediction_of_total. }
  rewrite Hps. cbn [bind]. split.
  - intros Hnil. rewrite Hnil in H2. inversion H2. reflexivity.
  - intros Hne. destruct ps as [|p ps].
    + inversion H2 as [Hnil|]. now rewrite <- Hnil in Hne.
    + exists (sorted_reverse confidence_percent (p :: ps)), (p :: ps).
      split; [reflexivity|]. split; [exact H2 | apply sorted_reverse_perm].
Qed.

(** C4 on a confidence beyond the float range: [float()] raises
    [OverflowError], which [_normalize_confidence] does not catch, and the
    extraction raises it instead of collecting the prediction. *)
Theorem huge_confidence_escapes_extraction :
  dict_has [("label", PStr "Apple"); ("confidence", PInt (10 ^ 400))] "error" = false
  /\ _extract_predictions float_of_string py_repr
       (PDict [("label", PStr "Apple"); ("confidence", PInt (10 ^ 400))])
     = Raise (OverflowError "int too large to convert to float").
Proof. split; vm_compute; reflexivity. Qed.

End Collect.

(** ** Strings: stripping and lengths *)

Lemma rstrip_by_all (p : ascii -> bool) (t : string) :
  all_chars p t = true -> rstrip_by p t = EmptyString.
Proof.
  induction t as [|c t IH]; simpl; [reflexivity|].
  intros H. apply andb_true_iff in H. destruct H as [Hc Ht].
  rewrite (IH Ht), Hc. reflexivity.
Qed.

Lemma rstrip_by_app (p : ascii -> bool) (s t : string) :
  all_chars p t = true -> rstrip_by p (s ++ t) = rstrip_by p s.
Proof.
  intros Ht. induction s as [|c s IH]; simpl.
  - now apply rstrip_by_all.
  - now rewrite IH.
Qed.

Lemma rstrip_by_idem (p : ascii -> bool) (s : string) :
  rstrip_by p (rstrip_by p s) = rstrip_by p s.
Proof.
  induction s as [|c s IH]; simpl; [reflexivity|].
  destruct (rstrip_by p s) as [|c' t] eqn:Hr.
  - destruct (p c) eqn:Hc; simpl; [reflexivity|]. now rewrite Hc.
  - change (rstrip_by p (String c (String c' t)))
      with (match rstrip_by p (String c' t) with
            | EmptyString => if p c then EmptyString else String c EmptyString
            | u => String c u
            end).
    rewrite IH. reflexivity.
Qed.

Lemma length_rstrip_by (p : ascii -> bool) (s : string) :
  (String.length (rstrip_by p s) <= String.length s)%nat.
Proof.
  induction s as [|c s IH]; simpl; [lia|].
  destruct (rstrip_by p s); [destruct (p c)|]; simpl in *; lia.
Qed.

Lemma length_lstrip (s : string) : (String.length (lstrip s) <= String.length s)%nat.
Proof.
  induction s as [|c s IH]; simpl; [lia|]. destruct (is_space c); simpl; lia.
Qed.

Lemma length_newlines_to_spaces (s : string) :
  String.length (newlines_to_spaces s) = String.length s.
Proof. induction s; simpl; congruence. Qed.

Lemma length_substring_le (n m : nat) (s : string) :
  (String.length (substring n m s) <= m)%nat.
Proof.
  revert n m. induction s as [|c s IH]; intros [|n] [|m]; simpl; try lia.
  - specialize (IH 0%nat m). lia.
  - apply (IH n 0%nat).
  - apply (IH n (S m)).
Qed.

Lemma mem_char_rstrip_by (c : ascii) (p : ascii -> bool) (s : string) :
  mem_char c s = false -> mem_char c (rstrip_by p s) = false.
Proof.
  induction s as [|c' s IH]; simpl; [reflexivity|].
  intros H. apply orb_false_iff in H. destruct H as [Hc Hs].
  specialize (IH Hs).
  destruct (rstrip_by p s); [destruct (p c')|]; simpl in *; rewrite ?Hc; auto.
Qed.

Lemma mem_char_lstrip (c : ascii) (s : string) :
  mem_char c s = false -> mem_char c (lstrip s) = false.
Proof.
  induction s as [|c' s IH]; simpl; [reflexivity|].
  intros H. destruct (is_space c'); simpl; [|exact H].
  apply orb_false_iff in H. now apply IH.
Qed.

Lemma newlines_to_spaces_no_newline (s : string) :
  mem_char (ascii_of_nat 10) (newlines_to_spaces s) = false.
Proof.
  induction s as [|c s IH]; simpl; [reflexivity|].
  rewrite IH, orb_false_r.
  destruct (Ascii.eqb c (ascii_of_nat 10)) eqn:Hc; [reflexivity | exact Hc].
Qed.

Lemma lstrip_idem (s : string) : lstrip (lstrip s) = lstrip s.
Proof.
  induction s as [|c s IH]; simpl; [reflexivity|].
  destruct (is_space c) eqn:Hc; [exact IH|]. simpl. now rewrite Hc.
Qed.

(** What [rstrip] leaves of a string that does not start with a character
    to strip does not start with one either. *)
Lemma lstrip_rstrip (s : string) :
  lstrip s = s -> lstrip (rstrip_by is_space s) = rstrip_by is_space s.
Proof.
  destruct s as [|c s]; [reflexivity|].
  simpl. destruct (is_space c) eqn:Hc.
  - intros H. exfalso.
    pose proof (length_lstrip s) as Hl. rewrite H in Hl. simpl in Hl. lia.
  - intros _. destruct (rstrip_by is_space s); simpl; now rewrite Hc.
Qed.

Lemma strip_idem (s : string) : strip (strip s) = strip s.
Proof.
  unfold strip.
  rewrite (lstrip_rstrip (lstrip s) (lstrip_idem s)).
  apply rstrip_by_idem.
Qed.

Lemma lstrip_first (s : string) (c : ascii) :
  first_char (lstrip s) = Some c -> is_space c = false.
Proof.
  induction s as [|c' s IH]; simpl; [discriminate|].
  destruct (is_space c') eqn:Hc; [exact IH|].
  simpl. intros [= <-]. exact Hc.
Qed.

Lemma rstrip_by_first (p : ascii -> bool) (s : string) (c : ascii) :
  first_char (rstrip_by p s) = Some c -> first_char s = Some c.
Proof.
  destruct s as [|c' s]; simpl; [discriminate|].
  destruct (rstrip_by p s); [destruct (p c')|]; simpl; congruence.
Qed.

Lemma rstrip_by_last (p : ascii -> bool) (s : string) (c : ascii) :
  last_char (rstrip_by p s) = Some c -> p c = false.
Proof.
  induction s as [|c' s IH]; simpl; [discriminate|].
  destruct (rstrip_by p s) as [|c'' t] eqn:Hr.
  - destruct (p c') eqn:Hc; simpl; [discriminate|]. intros [= <-]. exact Hc.
  - exact IH.
Qed.

Lemma strip_ends (s : string) (c : ascii) :
  first_char (strip s) = Some c \/ last_char (strip s) = Some c -> is_space c = false.
Proof.
  unfold strip. intros [H | H].
  - apply rstrip_by_first in H. now apply lstrip_first in H.
  - now apply rstrip_by_last in H.
Qed.

(** ** The remote call *)

Lemma preview_one_short_line (text : string) :
  one_short_line (strip (newlines_to_spaces (substring 0 500 text))).
Proof.
  repeat split.
  - unfold strip.
    pose proof (length_rstrip_by is_space (lstrip (newlines_to_spaces (substring 0 500 text)))).
    pose proof (length_lstrip (newlines_to_spaces (substring 0 500 text))).
    pose proof (length_newlines_to_spaces (substring 0 500 text)).
    pose proof (length_substring_le 0 500 text). lia.
  - unfold strip. apply mem_char_rstrip_by, mem_char_lstrip, newlines_to_spaces_no_newline.
  - apply strip_ends.
Qed.

Section CallFacts.
Variable secure_filename : string -> string.
Variable http_post : string -> string -> string -> string -> Z -> post_outcome.

Abbreviation call := (call_custom_model secure_filename http_post).

(** X1: [call_custom_model] returns only for a 200 response with a JSON
    body, and then returns that body, the status 200 and the endpoint.  A
    [DeepstackClientError] it raises never has status 200 and its details
    name the endpoint: 503 when [requests.post] raised a
    [RequestException], 502 for a 200 response whose [json()] raised
    [ValueError], the response's own status otherwise.  An exception of
    another class that [requests.post], or [json()] of a 200 response,
    raises is not caught: it leaves [call_custom_model] as it is.  The file
    is posted under a name and a MIME type that are not empty. *)
Theorem call_custom_model_outcomes (f : UploadedFile) (base_url model_name : string)
        (timeout_seconds : Z) :
  exists name mt,
    is_empty name = false /\ is_empty mt = false
    /\ let posted := http_post (endpoint_of base_url model_name) name (stream f) mt
                               timeout_seconds in
       match call f base_url model_name timeout_seconds with
       | Ok r =>
           ds_endpoint r = endpoint_of base_url model_name
           /\ ds_status_code r = 200
           /\ exists response,
                posted = Responded response
                /\ resp_status_code response = 200
                /\ resp_json response = JsonValue (ds_payload r)
       | Raise (DeepstackClientError message status_code details) =>
           status_code <> 200
           /\ dict_get details "endpoint" = Some (PStr (endpoint_of base_url model_name))
           /\ match posted with
              | RequestException _ => status_code = 503
              | Responded response =>
                  if resp_status_code response =? 200
                  then status_code = 502 /\ resp_json response = JsonValueError
                  else status_code = resp_status_code response
              | PostFailure _ => False
              end
       | Raise _ => True
       end
       /\ match posted with
          | PostFailure message =>
              call f base_url model_name timeout_seconds = Raise (OtherException message)
          | Responded response =>
              if resp_status_code response =? 200 then
                match resp_json response with
                | JsonFailure message =>
                    call f base_url model_name timeout_seconds
                    = Raise (OtherException message)
                | _ => True
                end
              else True
          | RequestException _ => True
          end.
Proof.
  unfold call_custom_model. fold (endpoint_of base_url model_name).
  set (name := if is_empty (secure_filename (or_empty (filename f)))
               then "uploaded-image" else secure_filename (or_empty (filename f))).
  set (mt := if is_empty (or_empty (mimetype f))
             then "application/octet-stream" else or_empty (mimetype f)).
  exists name, mt.
  split; [unfold name; destruct (is_empty (secure_filename _)) eqn:H; [reflexivity | exact H]|].
  split; [unfold mt; destruct (is_empty (or_empty _)) eqn:H; [reflexivity | exact H]|].
  cbv zeta.
  destruct (http_post (endpoint_of base_url model_name) name (stream f) mt timeout_seconds)
    as [response | msg | msg].
  - destruct (resp_status_code response =? 404) eqn:H404.
    + apply Z.eqb_eq in H404. rewrite H404. repeat split; try reflexivity; lia.
    + destruct (resp_status_code response =? 200) eqn:H200; cbn [negb].
      * apply Z.eqb_eq in H200.
        destruct (resp_json response) as [payload| |msg] eqn:Hj.
        -- cbn [ds_endpoint ds_status_code ds_payload].
           repeat split; try assumption. exists response. repeat split; assumption.
        -- repeat split; lia.
        -- split; [exact I | reflexivity].
      * apply Z.eqb_neq in H200. repeat split; assumption.
  - repeat split; lia.
  - split; [exact I | reflexivity].
Qed.

(** X2: trailing slashes of the base URL do not matter: two base URLs that
    differ only by slashes at the end give the same request and the same
    result. *)
Theorem trailing_slashes_are_ignored (f : UploadedFile) (base_url slashes model_name : string)
        (timeout_seconds : Z) :
  all_chars is_slash slashes = true ->
  call f (base_url ++ slashes) model_name timeout_seconds
  = call f base_url model_name timeout_seconds.
Proof.
  intros H. unfold call_custom_model, rstrip_slash.
  change (fun c : ascii => Ascii.eqb c "/"%char) with is_slash.
  rewrite (rstrip_by_app is_slash base_url slashes H). reflexivity.
Qed.

(** X3: the response preview [call_custom_model] returns, or puts in the
    details of its [DeepstackClientError], is at most 500 characters long,
    holds no line feed, and neither starts nor ends with white space. *)
Theorem response_preview_is_one_short_line (f : UploadedFile) (base_url model_name : string)
        (timeout_seconds : Z) :
  match call f base_url model_name timeout_seconds with
  | Ok r => one_short_line (ds_response_preview r)
  | Raise (DeepstackClientError _ _ details) =>
      forall v, dict_get details "response_preview" = Some v ->
                exists p, v = PStr p /\ one_short_line p
  | Raise _ => True
  end.
Proof.
  unfold call_custom_model.
  destruct (http_post _ _ _ _ _) as [response | msg | msg]; [| |exact I].
  - pose proof (preview_one_short_line (resp_text response)) as Hp.
    destruct (resp_status_code response =? 404).
    + intros v Hv. inversion Hv. eauto.
    + destruct (negb (resp_status_code response =? 200)).
      * intros v Hv. inversion Hv. eauto.
      * destruct (resp_json response); [exact Hp | | exact I].
        intros v Hv. inversion Hv. eauto.
  - intros v Hv. discriminate Hv.
Qed.

End CallFacts.

(** ** The validator's decision on the extension *)

Lemma has_dot_app (base ext : string) : has_dot (base ++ "." ++ ext) = true.
Proof.
  induction base as [|c base IH]; simpl; [reflexivity|].
  destruct (Ascii.eqb c "."%char); [reflexivity | exact IH].
Qed.

Lemma after_last_dot_app (base ext : string) :
  has_dot ext = false -> after_last_dot (base ++ "." ++ ext) = ext.
Proof.
  intros Hext. induction base as [|c base IH]; simpl.
  - now rewrite Hext.
  - pose proof (has_dot_app base ext) as Hd. simpl in Hd. rewrite Hd.
    destruct (Ascii.eqb c "."%char); exact IH.
Qed.

Lemma app_not_empty (s t : string) : is_empty t = false -> is_empty (s ++ t) = false.
Proof. destruct s; simpl; auto. Qed.

(** The validator returns the file it was given and no message, or no file
    and a message that is not empty. *)
Lemma validate_shape (sf : string -> string) (file : option UploadedFile) :
  (exists f, file = Some f /\ validate_image_upload sf file = (Some f, None))
  \/ (exists message, validate_image_upload sf file = (None, Some message)
                      /\ is_empty message = false).
Proof.
  destruct file as [f|]; [|right; eexists; split; reflexivity].
  unfold validate_image_upload.
  destruct (is_empty (sf (or_empty (filename f))));
    [right; eexists; split; reflexivity|].
  destruct (negb (has_dot (sf (or_empty (filename f)))));
    [right; eexists; split; reflexivity|].
  cbv zeta.
  destruct (negb (mem_string _ ALLOWED_EXTENSIONS));
    [right; eexists; split; reflexivity|].
  destruct (negb (is_empty (or_empty (mimetype f))) && _)%bool;
    [right; eexists; split; reflexivity|].
  left. exists f. split; reflexivity.
Qed.

(** X4: when the sanitised name is [base.ext] with no dot in [ext], the
    verdict of [validate_image_upload] depends on the name only through
    [ext] in lower case: outside the allow-list it is the allow-list
    message for that extension, whatever [base] holds (other dots and
    extensions included); inside it, the MIME check decides. *)
Theorem extension_is_what_follows_the_last_dot
        (sf : string -> string) (f : UploadedFile) (base ext : string) :
  sf (or_empty (filename f)) = base ++ "." ++ ext ->
  has_dot ext = false ->
  validate_image_upload sf (Some f)
  = if mem_string (lower ext) ALLOWED_EXTENSIONS then
      if (negb (is_empty (or_empty (mimetype f)))
          && negb (startswith (or_empty (mimetype f)) "image/"))%bool
      then (None, Some ("Invalid file MIME type '" ++ or_empty (mimetype f)
                          ++ "'. Only images are supported."))
      else (Some f, None)
    else (None, Some ("Unsupported file type '" ++ lower ext
                        ++ "'. Allowed: bmp, gif, jpeg, jpg, png, webp.")).
Proof.
  intros Hname Hext. unfold validate_image_upload. rewrite Hname.
  rewrite has_dot_app, (after_last_dot_app base ext Hext).
  replace (is_empty (base ++ "." ++ ext)) with false
    by (symmetry; apply app_not_empty; reflexivity).
  cbn [negb]. cbv zeta.
  destruct (mem_string (lower ext) ALLOWED_EXTENSIONS); reflexivity.
Qed.

(** X4 at the names [holiday.jpg.exe] and [scan.v2.PNG]. *)
Lemma extension_is_what_follows_the_last_dot_witness :
  validate_image_upload secure_filename_ascii
    (Some {| filename := Some "holiday.jpg.exe"; mimetype := Some "image/jpeg";
             stream := "MZ" |})
  = (None, Some "Unsupported file type 'exe'. Allowed: bmp, gif, jpeg, jpg, png, webp.")
  /\ validate_image_upload secure_filename_ascii
       (Some {| filename := Some "scan.v2.PNG"; mimetype := None; stream := "PNG" |})
     = (Some {| filename := Some "scan.v2.PNG"; mimetype := None; stream := "PNG" |}, None).
Proof.
  split.
  - exact (extension_is_what_follows_the_last_dot secure_filename_ascii
             {| filename := Some "holiday.jpg.exe"; mimetype := Some "image/jpeg";
                stream := "MZ" |} "holiday.jpg" "exe" eq_refl eq_refl).
  - exact (extension_is_what_follows_the_last_dot secure_filename_ascii
             {| filename := Some "scan.v2.PNG"; mimetype := None; stream := "PNG" |}
             "scan.v2" "PNG" eq_refl eq_refl).
Defined.

(** ** Confidence tiers *)

(** X5: the tier of [_confidence_profile] never goes down when the percent
    goes up: from [p <= q], high at [p] gives high at [q], medium at [p]
    gives at least medium at [q], and low at [q] gives low at [p]. *)
Theorem confidence_tier_is_monotone (p q : float64) :
  F64.le p q = true ->
  (level (_confidence_profile p) = "high" -> level (_confidence_profile q) = "high")
  /\ (level (_confidence_profile p) = "medium" -> level (_confidence_profile q) <> "low")
  /\ (level (_confidence_profile q) = "low" -> level (_confidence_profile p) = "low").
Proof.
  intros Hpq. unfold _confidence_profile, F64.ge.
  destruct (SFleb F64.eighty p) eqn:H80p.
  - rewrite (SFleb_trans _ _ _ H80p Hpq). cbn. repeat split; try discriminate; auto.
  - destruct (SFleb F64.fifty p) eqn:H50p.
    + pose proof (SFleb_trans _ _ _ H50p Hpq) as H50q. rewrite H50q.
      destruct (SFleb F64.eighty q); cbn; repeat split; try discriminate; auto.
    + destruct (SFleb F64.eighty q), (SFleb F64.fifty q); cbn;
        repeat split; try discriminate; auto.
Qed.

(** ** How extraction fails *)

Section ExtractionFailures.
Variable float_of_string : string -> option float64.
Variable py_repr : pyval -> string.

Lemma map_result_raises {A B : Type} (f : A -> result B) (l : list A) (e : exn) :
  map_result f l = Raise e -> exists x, In x l /\ f x = Raise e.
Proof.
  induction l as [|x l IH]; simpl; [discriminate|].
  destruct (f x) as [y|e'] eqn:Hx; cbn [bind].
  - destruct (map_result f l) as [ys|e'']; cbn [bind]; [discriminate|].
    intros H. inversion H; subst. destruct (IH eq_refl) as (x' & Hin & Hx').
    exists x'. auto.
  - intros H. inversion H; subst. exists x. auto.
Qed.

Lemma normalize_raises (v : pyval) (e : exn) :
  _normalize_confidence float_of_string v = Raise e ->
  exists m, e = OverflowError m /\ py_float float_of_string v = Raise (OverflowError m).
Proof.
  unfold _normalize_confidence.
  destruct (py_float float_of_string v) as [x|ex] eqn:Hpf.
  - cbn [except_type_or_value bind].
    destruct (F64.gt (py_max F64.zero x) F64.one); discriminate.
  - destruct (py_float_raises float_of_string v ex Hpf) as [[m ->] | [[m ->] | [m ->]]];
      cbn [except_type_or_value bind].
    + destruct (F64.gt (py_max F64.zero F64.zero) F64.one); discriminate.
    + destruct (F64.gt (py_max F64.zero F64.zero) F64.one); discriminate.
    + intros H. inversion H; subst. eauto.
Qed.

Lemma prediction_of_raises (d : list (string * pyval)) (e : exn) :
  prediction_of float_of_string py_repr d = Raise e ->
  exists m, e = OverflowError m
            /\ py_float float_of_string (get_or_none d "confidence")
               = Raise (OverflowError m).
Proof.
  unfold prediction_of.
  destruct (_normalize_confidence float_of_string (get_or_none d "confidence"))
    as [[score percent]|e'] eqn:Hn; cbn [bind]; [discriminate|].
  intros H. inversion H; subst. now apply normalize_raises.
Qed.

Lemma sorted_reverse_nonempty {A : Type} (key : A -> float64) (l : list A) :
  l <> [] -> sorted_reverse key l <> [].
Proof.
  intros Hne Hnil.
  pose proof (Permutation_length (sorted_reverse_perm key l)) as Hp.
  rewrite Hnil in Hp. destruct l; [congruence | discriminate].
Qed.

(** What extraction does on a dict payload, in one equation. *)
Lemma extract_outcomes (payload : pyval) :
  match _extract_predictions float_of_string py_repr payload with
  | Ok ranked =>
      ranked <> []
      /\ exists d first_seen,
           payload = PDict d
           /\ truthy (get_or_none d "error") = false
           /\ map_result (prediction_of float_of_string py_repr) (raw_entries d)
              = Ok first_seen
           /\ ranked = sorted_reverse confidence_percent first_seen
  | Raise e =>
      (exists message exc_details, e = DeepstackClientError message 502 exc_details)
      \/ (exists d entry m,
             payload = PDict d /\ In entry (raw_entries d)
             /\ py_float float_of_string (get_or_none entry "confidence")
                = Raise (OverflowError m)
             /\ e = OverflowError m)
  end.
Proof.
  destruct payload as [| | | | | |d]; try (left; do 2 eexists; reflexivity).
  destruct (truthy (get_or_none d "error")) eqn:Herr.
  { unfold _extract_predictions. rewrite Herr. left. do 2 eexists. reflexivity. }
  rewrite (extract_dict float_of_string py_repr d Herr).
  destruct (map_result (prediction_of float_of_string py_repr) (raw_entries d))
    as [ps|e] eqn:Hm; cbn [bind].
  - destruct ps as [|p ps]; [left; do 2 eexists; reflexivity|].
    split; [apply sorted_reverse_nonempty; discriminate|].
    exists d, (p :: ps). auto.
  - right. apply map_result_raises in Hm. destruct Hm as (entry & Hin & He).
    apply prediction_of_raises in He. destruct He as (m & -> & Hpf).
    exists d, entry, m. auto.
Qed.

End ExtractionFailures.

(** ** Rounding to decimal places keeps a bound *)

Lemma div_half_even_nonneg (n d : Z) : 0 <= n -> 0 < d -> 0 <= div_half_even n d.
Proof.
  intros Hn Hd. unfold div_half_even.
  assert (0 <= n / d) by (apply Z.div_pos; lia).
  destruct (2 * (n mod d) ?= d); [destruct (Z.even (n / d))| |]; lia.
Qed.

(** The nearest integer to a quotient that is at most the integer [k] is
    at most [k]. *)
Lemma div_half_even_le (n d k : Z) :
  0 <= n -> 0 < d -> n <= k * d -> div_half_even n d <= k.
Proof.
  intros Hn Hd Hle. unfold div_half_even.
  pose proof (Z_div_mod_eq_full n d) as Hdm.
  pose proof (Z.mod_pos_bound n d Hd) as Hr.
  assert (Hq : n / d <= k) by (apply Z.div_le_upper_bound; lia).
  destruct (Z.eq_dec (n / d) k) as [Heq|Hne].
  - assert (Hr0 : n mod d = 0) by nia.
    rewrite Hr0. replace (2 * 0 ?= d) with Lt by (symmetry; apply Z.compare_lt_iff; lia).
    lia.
  - destruct (2 * (n mod d) ?= d); [destruct (Z.even (n / d))| |]; lia.
Qed.

(** A quotient of two integers that is at most a float is rounded to at
    most that float. *)
Lemma SFdiv_ints_le (n p mb : positive) (eb : Z) :
  bounded 53 1024 mb eb = true ->
  eb <= 0 ->
  Zpos n < 2 ^ 53 -> Zpos p < 2 ^ 53 ->
  Zdigits2 (Zpos n) - Zdigits2 (Zpos p) - 53 <= eb ->
  Zpos n * 2 ^ (- eb) <= Zpos mb * Zpos p ->
  SFleb (SFdiv 53 1024 (S754_finite false n 0) (S754_finite false p 0))
        (S754_finite false mb eb) = true.
Proof.
  intros Hb Heb Hn Hp HE Hle.
  destruct (Zdigits2_bounds (Zpos n) ltac:(lia)) as [Hn1 Hn2].
  destruct (Zdigits2_bounds (Zpos p) ltac:(lia)) as [Hp1 Hp2].
  assert (Hdn : 1 <= Zdigits2 (Zpos n) <= 53).
  { split; [simpl; lia | apply Zdigits2_le; lia]. }
  assert (Hdp : 1 <= Zdigits2 (Zpos p) <= 53).
  { split; [simpl; lia | apply Zdigits2_le; lia]. }
  set (d1 := Zdigits2 (Zpos n)) in *. set (d2 := Zdigits2 (Zpos p)) in *.
  unfold SFdiv, SFdiv_core_binary. cbn [xorb]. fold d1 d2.
  replace (Z.min (fexp 53 1024 (d1 + 0 - (d2 + 0))) (0 - 0)) with (d1 - d2 - 53)
    by (rewrite fexp64; lia).
  set (E := d1 - d2 - 53) in *.
  assert (HEneg : E < 0) by (unfold E; lia).
  assert (Hs : 0 - 0 - E = Zpos (Z.to_pos (- E))) by (rewrite Z2Pos.id; lia).
  rewrite Hs. rewrite Z.shiftl_mul_pow2 by lia. rewrite Z2Pos.id by lia.
  pose proof (Z_div_mod (Zpos n * 2 ^ (- E)) (Zpos p) ltac:(lia)) as Hdm.
  destruct (Z.div_eucl (Zpos n * 2 ^ (- E)) (Zpos p)) as [q r].
  destruct Hdm as [Hq Hr].
  assert (HpE : 0 < 2 ^ (- E)) by (apply Z.pow_pos_nonneg; lia).
  assert (Hsplit : 2 ^ (- E) * 2 ^ (d1 - 1) = 2 ^ 52 * 2 ^ d2).
  { rewrite <- !Z.pow_add_r by lia. f_equal. unfold E. lia. }
  assert (Hq0 : 2 ^ 52 <= q).
  { assert (Hnp : 2 ^ 52 * Zpos p <= Zpos n * 2 ^ (- E)).
    { assert (0 < 2 ^ 52) by reflexivity. nia. }
    assert (0 < 2 ^ 52) by reflexivity. nia. }
  apply binary_round_aux_le; try lia; try assumption.
  - rewrite fexp64. assert (53 <= Zdigits2 q); [|lia].
    apply Zdigits2_ge; [lia | exact Hq0].
  - rewrite new_location_exact.
    set (K := Zpos mb * 2 ^ (eb - E)).
    assert (HK : Zpos n * 2 ^ (- E) <= K * Zpos p).
    { unfold K. replace (- E) with (- eb + (eb - E)) by lia.
      rewrite Z.pow_add_r by lia.
      assert (0 < 2 ^ (eb - E)) by (apply Z.pow_pos_nonneg; lia). nia. }
    destruct (Z.eqb_spec r 0); nia.
Qed.

Lemma SFdiv_ints_nonneg (n p : positive) :
  SFleb (S754_zero false)
        (SFdiv 53 1024 (S754_finite false n 0) (S754_finite false p 0)) = true.
Proof.
  unfold SFdiv. cbn [xorb].
  pose proof (SFdiv_core_binary_nonneg 53 1024 n p 0 0) as Hq.
  destruct (SFdiv_core_binary 53 1024 (Zpos n) 0 (Zpos p) 0) as [[q e'] l].
  simpl in Hq. apply binary_round_aux_nonneg; lia.
Qed.

(** Rounding a float in [[0, B]] to [nd] decimal places gives a float in
    [[0, B]], for an integer [B] that is the float [mb * 2^eb]. *)
Lemma py_round_bounds (x : float64) (nd B : Z) (mb : positive) (eb : Z) :
  0 <= nd -> 0 < B -> eb < 0 ->
  bounded 53 1024 mb eb = true -> 2 ^ 52 <= Zpos mb ->
  Zpos mb = B * 2 ^ (- eb) ->
  B * 10 ^ nd < 2 ^ 53 ->
  Zdigits2 (B * 10 ^ nd) - Zdigits2 (10 ^ nd) - 53 <= eb ->
  F64.valid x = true ->
  SFleb (S754_zero false) x = true -> SFleb x (S754_finite false mb eb) = true ->
  SFleb (S754_zero false) (py_round x nd) = true
  /\ SFleb (py_round x nd) (S754_finite false mb eb) = true.
Proof.
  intros Hnd HB Heb Hb Hmb52 Hmb HBp HE Hv H0 HxB.
  destruct x as [s|s| |s m e]; try discriminate.
  - split; [exact H0 | exact HxB].
  - destruct s; discriminate.
  - destruct s; [discriminate|].
    destruct (valid_finite_digits false m e Hv) as (Hm & He & _).
    apply SFleb_finite_inv in HxB.
    set (p := 10 ^ nd) in *.
    assert (Hp : 0 < p) by (apply Z.pow_pos_nonneg; lia).
    assert (Hpe : 0 < 2 ^ (- e)) by (apply Z.pow_pos_nonneg; lia).
    assert (Hpb : 0 < 2 ^ (- eb)) by (apply Z.pow_pos_nonneg; lia).
    (* the float is at most B *)
    assert (HmB : Zpos m <= B * 2 ^ (- e)).
    { destruct HxB as [Hlt | [-> Hle]]; [|lia].
      replace (- e) with (- eb + (eb - e)) by lia. rewrite Z.pow_add_r by lia.
      assert (2 ^ 1 <= 2 ^ (eb - e)) by (apply Z.pow_le_mono_r; lia).
      change (2 ^ 1) with 2 in *. change (2 ^ 53) with (2 * 2 ^ 52) in Hm.
      rewrite Z.mul_assoc, <- Hmb. nia. }
    assert (Hneg : (0 <=? e) = false) by (apply Z.leb_gt; lia).
    unfold py_round. fold p. rewrite Hneg.
    set (n := div_half_even (Zpos m * p) (2 ^ (- e))).
    assert (Hn0 : 0 <= n) by (apply div_half_even_nonneg; lia).
    assert (HnB : n <= B * p) by (apply div_half_even_le; nia).
    destruct n as [|n'|n'] eqn:Hn; [split; reflexivity| |lia].
    unfold F64.div. split; [apply SFdiv_ints_nonneg|].
    apply SFdiv_ints_le; rewrite ?Z2Pos.id by lia.
    + exact Hb.
    + lia.
    + lia.
    + assert (1 * p <= B * p) by (apply Z.mul_le_mono_nonneg_r; lia). lia.
    + pose proof (Zdigits2_mono (Zpos n') (B * p) ltac:(lia)). lia.
    + rewrite Hmb. nia.
Qed.

Lemma py_round_score_bounds (x : float64) :
  F64.valid x = true -> F64.le F64.zero x = true -> F64.le x F64.one = true ->
  F64.le F64.zero (py_round x 4) = true /\ F64.le (py_round x 4) F64.one = true.
Proof.
  intros Hv H0 H1.
  apply (py_round_bounds x 4 1 4503599627370496 (-52)); try assumption;
    try reflexivity; try lia; vm_compute; congruence.
Qed.

Lemma py_round_percent_bounds (x : float64) :
  F64.valid x = true -> F64.le F64.zero x = true -> F64.le x F64.hundred = true ->
  F64.le F64.zero (py_round x 2) = true /\ F64.le (py_round x 2) F64.hundred = true.
Proof.
  intros Hv H0 H1.
  apply (py_round_bounds x 2 100 7036874417766400 (-46)); try assumption;
    try reflexivity; try lia; vm_compute; congruence.
Qed.

(** ** The response builder *)

Section ResponseFacts.
Variable float_of_string : string -> option float64.
Variable py_repr : pyval -> string.
Variable now_utc_iso : string.
Variable env_deepstack_base_url : option string.

Abbreviation extract := (_extract_predictions float_of_string py_repr).
Abbreviation build_response :=
  (build_prediction_response float_of_string py_repr now_utc_iso env_deepstack_base_url).

Lemma normalize_bounds (v : pyval) (score percent : float64) :
  float_input_valid float_of_string v ->
  _normalize_confidence float_of_string v = Ok (score, percent) ->
  F64.valid score = true /\ F64.valid percent = true
  /\ F64.le F64.zero score = true /\ F64.le score F64.one = true
  /\ F64.le F64.zero percent = true /\ F64.le percent F64.hundred = true.
Proof.
  intros Hvalid. unfold _normalize_confidence. intros H. bind_inv H. rename a into x.
  assert (Hvx : F64.valid x = true).
  { destruct (py_float float_of_string v) as [f|e] eqn:Hpf.
    - inversion Ha; subst. now apply (py_float_valid float_of_string v).
    - destruct e; inversion Ha; reflexivity. }
  set (c := py_max F64.zero x) in H.
  assert (Hvc : F64.valid c = true)
    by (unfold c, py_max; destruct (F64.gt x F64.zero); auto).
  assert (Hc0 : F64.le F64.zero c = true) by apply le_zero_of_gt_zero.
  assert (Hcn : F64.is_nan c = false) by (apply SFleb_not_nan in Hc0; tauto).
  destruct (F64.gt c F64.one) eqn:Hgt; inversion H; subst score percent; clear H.
  - set (percent := py_min c F64.hundred).
    assert (Hp : percent = if F64.lt F64.hundred c then F64.hundred else c) by reflexivity.
    assert (Hp1 : SFltb F64.one percent = true).
    { rewrite Hp. destruct (F64.lt F64.hundred c); [reflexivity | exact Hgt]. }
    assert (Hp100 : SFleb percent F64.hundred = true).
    { rewrite Hp. destruct (F64.lt F64.hundred c) eqn:Hlt; [reflexivity|].
      apply SFltb_false_leb; [reflexivity | exact Hcn | exact Hlt]. }
    assert (Hvp : F64.valid percent = true).
    { rewrite Hp. destruct (F64.lt F64.hundred c); [reflexivity | exact Hvc]. }
    destruct (div_hundred_bounds percent Hvp Hp1 Hp100) as [Hs0 Hs1].
    split; [apply SFdiv_valid; reflexivity|]. split; [exact Hvp|].
    split; [exact Hs0|]. split; [exact Hs1|].
    split; [|exact Hp100].
    apply SFleb_trans with (b := F64.one); [reflexivity | now apply SFltb_leb].
  - assert (Hc1 : SFleb c F64.one = true).
    { apply SFltb_false_leb; [reflexivity | exact Hcn | exact Hgt]. }
    destruct (mul_hundred_bounds c Hvc Hc0 Hc1) as [Hp0 Hp100].
    split; [exact Hvc|]. split; [apply mul_hundred_valid|].
    split; [exact Hc0|]. split; [exact Hc1|]. split; assumption.
Qed.

Lemma prediction_of_in_range (d : list (string * pyval)) (p : Prediction) :
  float_input_valid float_of_string (get_or_none d "confidence") ->
  prediction_of float_of_string py_repr d = Ok p -> in_range p.
Proof.
  intros Hvalid. unfold prediction_of. intros H. bind_inv H.
  destruct a as [score percent]. inversion H; subst p; clear H.
  destruct (normalize_bounds _ _ _ Hvalid Ha) as (Hvs & Hvp & Hs0 & Hs1 & Hp0 & Hp100).
  unfold in_range. cbn [confidence confidence_percent].
  destruct (py_round_score_bounds score Hvs Hs0 Hs1).
  destruct (py_round_percent_bounds percent Hvp Hp0 Hp100).
  auto.
Qed.

Lemma map_result_Forall_in {A B : Type} (f : A -> result B) (Q : A -> Prop)
      (P : B -> Prop) (l : list A) (ys : list B) :
  (forall x y, Q x -> f x = Ok y -> P y) ->
  Forall Q l -> map_result f l = Ok ys -> Forall P ys.
Proof.
  intros HP HQ. revert ys. induction HQ as [|x l Hx HQ IH]; simpl; intros ys H.
  - inversion H. constructor.
  - bind_inv H. bind_inv H. inversion H; subst. constructor; eauto.
Qed.

Lemma Forall_prefix {A : Type} (P : A -> Prop) (n : nat) (l : list A) :
  Forall P l -> Forall P (firstn n l).
Proof.
  intros H. revert n. induction H as [|x l Hx H IH]; intros [|n]; simpl; auto.
Qed.

(** The response builder in terms of the extraction. *)
Lemma build_of_extract (payload : pyval) (endpoint model_name : string) :
  build_response payload endpoint model_name
  = match extract payload with
    | Ok [] => Raise (OtherException "list index out of range")
    | Ok (top :: rest) =>
        Ok {| pr_model_name := model_name;
              pr_endpoint := endpoint;
              pr_fruit := label top;
              pr_confidence := confidence top;
              pr_confidence_percent := confidence_percent top;
              pr_confidence_level := level (_confidence_profile (confidence_percent top));
              pr_confidence_bar_class :=
                bar_class (_confidence_profile (confidence_percent top));
              pr_confidence_explanation :=
                explanation (_confidence_profile (confidence_percent top));
              pr_predictions := firstn 5 (top :: rest);
              pr_timestamp_utc := now_utc_iso;
              pr_runtime :=
                {| rt_deepstack_base_url :=
                     match env_deepstack_base_url with
                     | Some u => u
                     | None => "http://localhost:5050"
                     end;
                   rt_model_name := model_name |} |}
    | Raise e => Raise e
    end.
Proof.
  unfold build_prediction_response.
  destruct (extract payload) as [[|top rest]|e]; reflexivity.
Qed.

Lemma extract_descending (payload : pyval) (ranked : list Prediction) :
  extract payload = Ok ranked ->
  descending confidence_percent ranked
  /\ Forall (fun p => F64.is_nan (confidence_percent p) = false) ranked.
Proof.
  intros H. pose proof (extract_outcomes float_of_string py_repr payload) as Ho.
  rewrite H in Ho. destruct Ho as (_ & d & first_seen & _ & _ & Hm & ->).
  assert (Hn : Forall (fun p => F64.is_nan (confidence_percent p) = false) first_seen).
  { eapply map_result_Forall; [|exact Hm].
    intros x y Hxy.
    exact (prediction_of_number float_of_string (fun _ => None) py_repr (fun z => z)
             x y Hxy). }
  split; [now apply sorted_reverse_descending|].
  eapply Permutation_Forall; [symmetry; apply sorted_reverse_perm | exact Hn].
Qed.

(** X6: a response [build_prediction_response] returns reports the first
    entry of the ranked list: its label, score, percent and the tier of that
    percent; the listed predictions are the first five of the ranked list
    (at least one, at most five, the reported one first); no extracted
    prediction has a larger percent than the reported one; and among the
    predictions with that percent the reported one is the first the payload
    holds. *)
Theorem reported_fruit_is_the_best_prediction
        (payload : pyval) (endpoint model_name : string) :
  match build_response payload endpoint model_name with
  | Ok r =>
      exists top rest d first_seen,
        extract payload = Ok (top :: rest)
        /\ pr_fruit r = label top
        /\ pr_confidence r = confidence top
        /\ pr_confidence_percent r = confidence_percent top
        /\ pr_confidence_level r = level (_confidence_profile (confidence_percent top))
        /\ pr_predictions r = firstn 5 (top :: rest)
        /\ hd_error (pr_predictions r) = Some top
        /\ (1 <= List.length (pr_predictions r) <= 5)%nat
        /\ Forall (fun p => F64.le (confidence_percent p) (pr_confidence_percent r) = true)
                  (top :: rest)
        /\ payload = PDict d
        /\ map_result (prediction_of float_of_string py_repr) (raw_entries d)
           = Ok first_seen
        /\ hd_error (filter (fun p => F64.eq (confidence_percent top) (confidence_percent p))
                            first_seen) = Some top
  | Raise _ => True
  end.
Proof.
  rewrite build_of_extract.
  destruct (extract payload) as [[|top rest]|e] eqn:He; try exact I.
  destruct (extract_descending _ _ He) as [Hd Hn].
  pose proof (extract_outcomes float_of_string py_repr payload) as Ho.
  rewrite He in Ho. destruct Ho as (_ & d & first_seen & Hp & _ & Hm & Hr).
  exists top, rest, d, first_seen.
  cbn [pr_fruit pr_confidence pr_confidence_percent pr_confidence_level pr_predictions].
  inversion Hn as [|? ? Htop _]; subst.
  split; [reflexivity|]. split; [reflexivity|]. split; [reflexivity|].
  split; [reflexivity|]. split; [reflexivity|]. split; [reflexivity|].
  split; [reflexivity|].
  split; [split; [cbn [firstn List.length]; lia
                 | pose proof (firstn_le_length 5 (top :: rest)); lia]|].
  split.
  { apply StronglySorted_inv in Hd. destruct Hd as [_ Hd].
    constructor; [now apply SFleb_refl | exact Hd]. }
  split; [reflexivity|]. split; [exact Hm|].
  pose proof (sorted_reverse_ties confidence_percent first_seen
                (confidence_percent top)) as Ht.
  rewrite <- Hr in Ht. rewrite <- Ht. cbn [filter].
  replace (F64.eq (confidence_percent top) (confidence_percent top)) with true;
    [reflexivity|].
  symmetry. apply SFeqb_rank. auto.
Qed.

Lemma build_raises (payload : pyval) (endpoint model_name : string) (e : exn) :
  build_response payload endpoint model_name = Raise e ->
  extract payload = Raise e
  /\ ((exists message exc_details, e = DeepstackClientError message 502 exc_details)
      \/ (exists message, e = OverflowError message)).
Proof.
  rewrite build_of_extract.
  pose proof (extract_outcomes float_of_string py_repr payload) as Ho.
  destruct (extract payload) as [[|top rest]|e'].
  - now destruct Ho as [Hne _].
  - discriminate.
  - intros [= ->]. split; [reflexivity|].
    destruct Ho as [Hc | (d & entry & m & _ & _ & _ & ->)]; eauto.
Qed.

(** X7: [build_prediction_response] returns exactly when
    [_extract_predictions] returns, and otherwise raises the exception the
    extraction raised: a [DeepstackClientError] of status 502 or an
    [OverflowError].  The index error of [predictions[0]] cannot happen. *)
Theorem response_builder_fails_as_extraction_fails
        (payload : pyval) (endpoint model_name : string) :
  match build_response payload endpoint model_name with
  | Ok r => exists ranked, extract payload = Ok ranked
  | Raise e =>
      extract payload = Raise e
      /\ ((exists message exc_details, e = DeepstackClientError message 502 exc_details)
          \/ (exists message, e = OverflowError message))
  end.
Proof.
  destruct (build_response payload endpoint model_name) as [r|e] eqn:Hb.
  - rewrite build_of_extract in Hb.
    destruct (extract payload) as [ranked|e]; [eauto | discriminate].
  - exact (build_raises payload endpoint model_name e Hb).
Qed.

Lemma extract_in_range (payload : pyval) (ranked : list Prediction) :
  payload_floats_valid float_of_string payload ->
  extract payload = Ok ranked -> Forall in_range ranked.
Proof.
  intros Hvalid H.
  pose proof (extract_outcomes float_of_string py_repr payload) as Ho.
  rewrite H in Ho. destruct Ho as (_ & d & first_seen & -> & _ & Hm & ->).
  eapply Permutation_Forall; [symmetry; apply sorted_reverse_perm|].
  eapply map_result_Forall_in; [|exact Hvalid | exact Hm].
  intros x y Hx Hy. exact (prediction_of_in_range x y Hx Hy).
Qed.

Lemma build_in_range (payload : pyval) (endpoint model_name : string)
      (r : PredictionResponse) :
  payload_floats_valid float_of_string payload ->
  build_response payload endpoint model_name = Ok r ->
  F64.le F64.zero (pr_confidence r) = true
  /\ F64.le (pr_confidence r) F64.one = true
  /\ F64.le F64.zero (pr_confidence_percent r) = true
  /\ F64.le (pr_confidence_percent r) F64.hundred = true
  /\ Forall in_range (pr_predictions r).
Proof.
  intros Hvalid. rewrite build_of_extract.
  destruct (extract payload) as [[|top rest]|e] eqn:He; try discriminate.
  intros [= <-].
  cbn [pr_confidence pr_confidence_percent pr_predictions].
  pose proof (extract_in_range _ _ Hvalid He) as Hr.
  inversion Hr as [|? ? (H1 & H2 & H3 & H4) Hrest]; subst.
  split; [exact H1|]. split; [exact H2|]. split; [exact H3|]. split; [exact H4|].
  exact (Forall_prefix in_range 5 (top :: rest) Hr).
Qed.

(** X8: when the floats among the confidence values of a payload are
    binary64 values, every prediction [_extract_predictions] returns has a
    rounded score in [[0, 1]] and a rounded percent in [[0, 100]], and so
    have the reported fruit and the listed predictions of the response. *)
Theorem reported_confidences_are_in_range
        (payload : pyval) (endpoint model_name : string) :
  payload_floats_valid float_of_string payload ->
  (forall ranked, extract payload = Ok ranked -> Forall in_range ranked)
  /\ (forall r, build_response payload endpoint model_name = Ok r ->
                F64.le F64.zero (pr_confidence r) = true
                /\ F64.le (pr_confidence r) F64.one = true
                /\ F64.le F64.zero (pr_confidence_percent r) = true
                /\ F64.le (pr_confidence_percent r) F64.hundred = true
                /\ Forall in_range (pr_predictions r)).
Proof.
  intros Hvalid. split.
  - intros ranked. now apply extract_in_range.
  - intros r. now apply build_in_range.
Qed.

End ResponseFacts.

(** ** The local engine *)

Section LocalFacts.
Variable float_of_string : string -> option float64.
Variable int_of_string : string -> option Z.
Variable py_repr : pyval -> string.
Variable exp_finite : float32 -> float32.
Variable np_sum : list float32 -> float32.

Abbreviation engine world f model_path config_path :=
  (predict_with_local_onnx float_of_string int_of_string py_repr exp_finite np_sum
     world f model_path config_path).

(** X9: a list [predict_with_local_onnx] returns holds one prediction
    per output value of the session: the configuration is a dict whose
    [map] is a dict, the output is not empty, and the list is the sorted
    list of the softmax probabilities in class order, each labelled by the
    map's entry for its decimal class index or by [class_<index>]. *)
Theorem local_predictions_are_one_per_class
        (world : LocalWorld) (f : UploadedFile) (model_path config_path : string)
        (ranked : list LocalPrediction) :
  engine world f model_path config_path = Ok ranked ->
  exists d label_map session input_name tensor output probabilities,
    config_document world = Ok (PDict d)
    /\ get_or d "map" (PDict []) = PDict label_map
    /\ _load_session world model_path = Ok session
    /\ run session input_name tensor = Ok output
    /\ output <> []
    /\ _softmax exp_finite np_sum output = Ok probabilities
    /\ List.length probabilities = List.length output
    /\ ranked = sorted_reverse lp_confidence (by_class py_repr label_map 0 probabilities)
    /\ Permutation ranked (by_class py_repr label_map 0 probabilities)
    /\ List.length ranked = List.length output.
Proof.
  unfold predict_with_local_onnx. intros H. do 16 bind_inv H.
  injection H as <-.
  match goal with
  | Hs : _softmax _ _ ?out = Ok ?probs,
    Hl : label_predictions _ ?lm _ ?probs = Ok ?ps |- _ =>
      pose proof (softmax_length _ _ _ _ Hs) as [Hne Hlen];
      assert (Hpne : probs <> []) by (destruct probs, out; simpl in Hlen; congruence);
      destruct (label_predictions_needs_a_dict py_repr lm 0%nat probs ps Hpne Hl)
        as (label_map & ->);
      rewrite label_predictions_by_class in Hl; injection Hl as <-;
      rename out into output; rename probs into probabilities
  end.
  match goal with
  | Hc : _load_config _ _ = Ok ?c, Hm : py_get ?c "map" _ = Ok (PDict label_map) |- _ =>
      destruct c as [| | | | | |d]; try discriminate Hm;
      injection Hm as Hm;
      unfold _load_config in Hc; destruct (negb (config_exists world)); [discriminate|]
  end.
  match goal with
  | Hs : _load_session _ _ = Ok ?s,
    Hr : as_local_error _ (run ?s ?n ?t) = Ok output |- _ =>
      exists d, label_map, s, n, t, output, probabilities;
      assert (Hrun : run s n t = Ok output)
        by (destruct (run s n t); [exact Hr | discriminate Hr])
  end.
  repeat split; try assumption.
  - apply sorted_reverse_perm.
  - rewrite (Permutation_length (sorted_reverse_perm _ _)).
    unfold by_class. rewrite length_map, length_combine, length_seq. lia.
Qed.

Lemma safe_float_returns (v : pyval) (default : float64) :
  (forall m, py_float float_of_string v <> Raise (OverflowError m)) ->
  exists x, _safe_float float_of_string v default = Ok x.
Proof.
  intros Hov. unfold _safe_float.
  destruct (py_float float_of_string v) as [x|e] eqn:Hpf; [simpl; eauto|].
  destruct (py_float_raises float_of_string v e Hpf) as [[m ->] | [[m ->] | [m ->]]];
    simpl; eauto. now elim (Hov m).
Qed.

Lemma as_local_error_outcome {A : Type} (prefix : string) (body : result A) :
  (exists a, as_local_error prefix body = Ok a /\ body = Ok a)
  \/ (exists m, as_local_error prefix body = Raise (LocalModelError m)).
Proof. destruct body as [a|e]; simpl; eauto. Qed.

(** With a sound setup the local engine returns predictions or raises
    [LocalModelError]. *)
Lemma sound_engine_outcome (world : LocalWorld) (f : UploadedFile)
      (model_path config_path : string) :
  local_setup_sound float_of_string int_of_string world ->
  match engine world f model_path config_path with
  | Ok ranked => ranked <> []
  | Raise e => exists local_message, e = LocalModelError local_message
  end.
Proof.
  intros [Hconfig Hsession].
  unfold predict_with_local_onnx, _load_config, _load_session.
  destruct (config_exists world); cbn [negb]; [|cbn [bind]; eauto].
  destruct (Hconfig eq_refl) as (c & -> & d & -> & [w Hw] & [h Hh] & Hmean & Hstd & Hmap).
  cbn [bind].
  assert (Hs : (exists s, match cached_session world with
                          | Some s0 => Ok s0
                          | None => if negb (model_exists world)
                                    then Raise (LocalModelError
                                                  ("Local ONNX model file not found: "
                                                     ++ model_path))
                                    else new_session world
                          end = Ok s /\ session_sound s)
               \/ (cached_session world = None /\ model_exists world = false)).
  { destruct (cached_session world) as [s|]; [left; eauto|].
    destruct (model_exists world); [|right; auto].
    destruct (Hsession eq_refl) as (s & -> & Hs). left. exists s. cbn [negb]. auto. }
  destruct Hs as [(s & -> & Hin & Hrun) | [-> ->]]; [|cbn [negb bind]; eauto].
  cbn [bind py_get]. rewrite Hw. cbn [bind]. rewrite Hh. cbn [bind].
  destruct (safe_float_returns _ F64.default_mean Hmean) as (mean & ->). cbn [bind].
  destruct (safe_float_returns _ F64.default_std Hstd) as (std & ->). cbn [bind].
  destruct (get_or d "map" (PDict [])) as [| | | | | |label_map] eqn:Hlm; try discriminate.
  destruct (as_local_error_outcome "Could not read image for local ONNX inference: "
              (open_image world (stream f) w h)) as [(pixels & -> & _) | (m & ->)];
    [|cbn [bind]; eauto].
  cbn [bind].
  destruct (input_names s) as [|input_name rest]; [congruence|]. cbn [bind].
  match goal with
  | |- context [as_local_error ?p ?b] =>
      destruct (as_local_error_outcome p b) as [(output & -> & Hout) | (m & ->)];
        [|cbn [bind]; eauto]
  end.
  cbn [bind]. apply Hrun in Hout.
  destruct (softmax_returns exp_finite np_sum output Hout) as (probs & Hsm).
  rewrite Hsm. cbn [bind].
  rewrite label_predictions_by_class. cbn [bind].
  apply sorted_reverse_nonempty.
  apply softmax_length in Hsm. destruct Hsm as [_ Hlen].
  destruct probs, output; try discriminate; congruence.
Qed.

(** X10: a missing configuration file makes [predict_with_local_onnx]
    raise [LocalModelError] naming the configuration path, whatever else
    the world holds; with a configuration that loads, no cached session and
    a missing model file it raises [LocalModelError] naming the model
    path, before anything of the configuration is read. *)
Theorem missing_file_is_a_local_model_error
        (world : LocalWorld) (f : UploadedFile) (model_path config_path : string) :
  (config_exists world = false ->
   engine world f model_path config_path
   = Raise (LocalModelError ("Local model config file not found: " ++ config_path)))
  /\ (forall c,
         config_exists world = true -> config_document world = Ok c ->
         cached_session world = None -> model_exists world = false ->
         engine world f model_path config_path
         = Raise (LocalModelError ("Local ONNX model file not found: " ++ model_path))).
Proof.
  unfold predict_with_local_onnx, _load_config, _load_session. split.
  - intros ->. reflexivity.
  - intros c -> -> -> ->. reflexivity.
Qed.

End LocalFacts.

(** ** Every path through the predict handler *)

Lemma call_raises_client_error (secure_filename : string -> string)
      (http_post : string -> string -> string -> string -> Z -> post_outcome)
      (f : UploadedFile) (base_url model_name : string) (timeout_seconds : Z) (e : exn) :
  call_custom_model secure_filename http_post f base_url model_name timeout_seconds
  = Raise e ->
  (exists message status_code exc_details,
      e = DeepstackClientError message status_code exc_details /\ status_code <> 200)
  \/ (exists message, e = OtherException message).
Proof.
  unfold call_custom_model.
  destruct (http_post _ _ _ _ _) as [response | msg | msg].
  - destruct (resp_status_code response =? 404) eqn:H404.
    + intros [= <-]. left. do 3 eexists. split; [reflexivity | lia].
    + destruct (resp_status_code response =? 200) eqn:H200; cbn [negb].
      * destruct (resp_json response); [discriminate | |].
        -- intros [= <-]. left. do 3 eexists. split; [reflexivity | lia].
        -- intros [= <-]. right. eauto.
      * apply Z.eqb_neq in H200. intros [= <-]. left. do 3 eexists.
        split; [reflexivity | exact H200].
  - intros [= <-]. left. do 3 eexists. split; [reflexivity | lia].
  - intros [= <-]. right. eauto.
Qed.

Ltac log_extends :=
  unfold surfaced; cbn [fst];
  first [ exists []; symmetry; apply app_nil_r
        | eexists; reflexivity
        | eexists; rewrite <- app_assoc; reflexivity ].

Ltac body_facts :=
  unfold surfaced, rejected, answered, answered_locally, generic_500;
  cbn [snd success data error details fallback warning];
  try exact I;
  repeat split; try discriminate; try congruence; intros; discriminate.

Section PredictFacts.
Variable secure_filename : string -> string.
Variable float_of_string : string -> option float64.
Variable int_of_string : string -> option Z.
Variable py_repr : pyval -> string.
Variable exp_finite : float32 -> float32.
Variable np_sum : list float32 -> float32.
Variable http_post : string -> string -> string -> string -> Z -> post_outcome.
Variable now_utc_iso : string.
Variable env_deepstack_base_url : option string.
Variable config : AppConfig.

Abbreviation local_engine world f :=
  (predict_with_local_onnx float_of_string int_of_string py_repr exp_finite np_sum
     world f "Fruits.onnx" "config.json").
Abbreviation build_response :=
  (build_prediction_response float_of_string py_repr now_utc_iso env_deepstack_base_url).
Abbreviation handle world :=
  (predict secure_filename float_of_string int_of_string py_repr exp_finite np_sum
     http_post now_utc_iso env_deepstack_base_url world config).
Abbreviation remote_call f :=
  (call_custom_model secure_filename http_post f (DEEPSTACK_BASE_URL config)
     (DEEPSTACK_MODEL_NAME config) (DEEPSTACK_TIMEOUT_SECONDS config)).

(** Every path through [predict]. *)
Lemma predict_cases (world : LocalWorld) (file : option UploadedFile)
      (lg : list log_entry) :
  (exists message,
      validate_image_upload secure_filename file = (None, Some message)
      /\ handle world file lg = (lg, Ok (rejected message)))
  \/ (exists f,
         validate_image_upload secure_filename file = (Some f, None)
         /\ match remote_call f with
            | Ok r =>
                let lg1 := (lg ++ [response_logged r])%list in
                match build_response (ds_payload r) (ds_endpoint r)
                        (DEEPSTACK_MODEL_NAME config) with
                | Ok data' => handle world file lg = (lg1, Ok (answered data'))
                | Raise (DeepstackClientError message status_code exc_details) =>
                    status_code = 502
                    /\ handle world file lg
                       = surfaced py_repr lg1 message status_code exc_details
                | Raise e =>
                    handle world file lg
                    = ((lg1 ++ [LogException "Unexpected prediction error" e])%list,
                       Ok (generic_500 e))
                end
            | Raise (DeepstackClientError message status_code exc_details) =>
                status_code <> 200
                /\ if ((status_code =? 404) && ENABLE_LOCAL_ONNX_FALLBACK config)%bool
                   then
                     match local_engine world f with
                     | Ok local_predictions =>
                         exists data',
                           build_response (local_payload local_predictions)
                             LOCAL_ENDPOINT (DEEPSTACK_MODEL_NAME config) = Ok data'
                           /\ handle world file lg = (lg, Ok (answered_locally data'))
                     | Raise (LocalModelError local_message) =>
                         handle world file lg
                         = surfaced py_repr
                             (lg ++ [LogError ("Local ONNX fallback failed: "
                                                 ++ local_message)])
                             message status_code exc_details
                     | Raise e => handle world file lg = (lg, Raise e)
                     end
                   else handle world file lg
                        = surfaced py_repr lg message status_code exc_details
            | Raise e =>
                handle world file lg
                = ((lg ++ [LogException "Unexpected prediction error" e])%list,
                   Ok (generic_500 e))
            end).
Proof.
  destruct (validate_shape secure_filename file) as [(f & -> & Hv) | (message & Hv & Hne)].
  - right. exists f. split; [exact Hv|].
    rewrite (predict_after_validation secure_filename float_of_string int_of_string
               py_repr exp_finite np_sum http_post now_utc_iso env_deepstack_base_url
               config world (Some f) f lg Hv).
    unfold h_try, remote_attempt, h_bind, h_lift, h_log, h_ret, build.
    destruct (remote_call f) as [r|e] eqn:Hcall.
    + fold (response_logged r). cbv zeta.
      destruct (build_response (ds_payload r) (ds_endpoint r) (DEEPSTACK_MODEL_NAME config))
        as [data'|e] eqn:Hb; [reflexivity|].
      destruct (build_raises _ _ _ _ _ _ _ _ Hb)
        as [_ [(message & exc_details & ->) | (message & ->)]]; [|reflexivity].
      split; [reflexivity|]. reflexivity.
    + destruct (call_raises_client_error _ _ _ _ _ _ _ Hcall)
        as [(message & status_code & exc_details & -> & Hs) | (message & ->)];
        [|reflexivity].
      split; [exact Hs|].
      unfold on_deepstack_error, h_bind at 1.
      destruct ((status_code =? 404) && ENABLE_LOCAL_ONNX_FALLBACK config)%bool eqn:Hc;
        [|reflexivity].
      unfold local_fallback, h_try, h_bind, h_lift, h_log, h_ret, build.
      fold local_payload.
      destruct (local_engine world f) as [preds|e] eqn:Hl.
      * destruct (build_local_ok float_of_string py_repr now_utc_iso
                    env_deepstack_base_url preds LOCAL_ENDPOINT
                    (DEEPSTACK_MODEL_NAME config)) as (data' & Hb).
        { eapply local_success_nonempty; eassumption. }
        exists data'. split; [exact Hb|]. unfold local_payload. rewrite Hb. reflexivity.
      * destruct e; reflexivity.
  - left. exists message. split; [exact Hv|].
    unfold predict. rewrite Hv, Hne. reflexivity.
Qed.

(** The endpoint of a returned remote call and of a built response. *)
Lemma call_ok_endpoint (f : UploadedFile) (r : DeepstackResult) :
  remote_call f = Ok r ->
  ds_endpoint r = endpoint_of (DEEPSTACK_BASE_URL config) (DEEPSTACK_MODEL_NAME config).
Proof.
  unfold call_custom_model. fold (endpoint_of (DEEPSTACK_BASE_URL config)
                                    (DEEPSTACK_MODEL_NAME config)).
  destruct (http_post _ _ _ _ _) as [response | msg | msg]; try discriminate.
  destruct (resp_status_code response =? 404); [discriminate|].
  destruct (negb (resp_status_code response =? 200)); [discriminate|].
  destruct (resp_json response); try discriminate.
  now intros [= <-].
Qed.

Lemma build_ok_endpoint (payload : pyval) (endpoint model_name : string)
      (r : PredictionResponse) :
  build_response payload endpoint model_name = Ok r -> pr_endpoint r = endpoint.
Proof.
  rewrite build_of_extract.
  destruct (_extract_predictions float_of_string py_repr payload) as [[|top rest]|e];
    try discriminate.
  now intros [= <-].
Qed.

(** X11: [predict] only ever adds to the log, and in every response it
    returns the body says success exactly when the status is 200; a
    successful body holds data and neither error nor details; a failed body
    holds an error and neither data, fallback flag nor warning. *)
Theorem response_status_matches_body (world : LocalWorld) (file : option UploadedFile)
        (lg : list log_entry) :
  (exists entries, fst (handle world file lg) = (lg ++ entries)%list)
  /\ match snd (handle world file lg) with
     | Ok (body, status) =>
         (success body = true <-> status = 200)
         /\ (success body = true ->
             data body <> None /\ error body = None /\ details body = None)
         /\ (success body = false ->
             data body = None /\ error body <> None
             /\ fallback body = None /\ warning body = None)
     | Raise _ => True
     end.
Proof.
  destruct (predict_cases world file lg) as [(message & _ & ->) | (f & _ & H)].
  { split; [log_extends | body_facts]. }
  destruct (remote_call f) as [r|e].
  - cbv zeta in H.
    destruct (build_response (ds_payload r) (ds_endpoint r) (DEEPSTACK_MODEL_NAME config))
      as [data'|e].
    + rewrite H. split; [log_extends | body_facts].
    + destruct e; try (rewrite H; split; [log_extends | body_facts]).
      destruct H as [-> ->]. split; [log_extends | body_facts].
  - destruct e; try (rewrite H; split; [log_extends | body_facts]).
    destruct H as [Hs H].
    destruct ((status_code =? 404) && ENABLE_LOCAL_ONNX_FALLBACK config)%bool.
    + destruct (local_engine world f) as [preds|e].
      * destruct H as (data' & _ & ->). split; [log_extends | body_facts].
      * destruct e; rewrite H; (split; [log_extends | body_facts]).
    + rewrite H. split; [log_extends | body_facts].
Qed.




(** X14: an upload the validator rejects is answered with status 400 and
    the validator's message, and nothing is logged, whatever the remote
    service and the local engine would do. *)
Theorem rejected_upload_is_answered_400
        (world : LocalWorld) (file : option UploadedFile) (lg : list log_entry)
        (message : string) :
  validate_image_upload secure_filename file = (None, Some message) ->
  handle world file lg = (lg, Ok (rejected message)).
Proof.
  intros Hv.
  destruct (predict_cases world file lg) as [(message' & Hv' & H) | (f & Hv' & _)];
    rewrite Hv in Hv'; [|discriminate].
  injection Hv' as <-. exact H.
Qed.

(** X15: a response of [predict] that holds data has status 200 and
    comes from an accepted upload.  With a fallback flag, the flag is true,
    the warning is the fallback warning, the data names the local endpoint,
    the fallback is enabled, the remote call raised status 404, the data is
    built from the local predictions, and nothing was logged.  Without the
    flag there is no warning, the data names the remote endpoint and is
    built from the payload of the remote call, and the log gained the one
    line about that call.  A response without data has neither flag nor
    warning. *)
Theorem fallback_flag_tells_which_engine_answered
        (world : LocalWorld) (file : option UploadedFile) (lg : list log_entry) :
  match handle world file lg with
  | (lg', Ok (body, status)) =>
      match data body with
      | Some data' =>
          status = 200
          /\ exists f,
               validate_image_upload secure_filename file = (Some f, None)
               /\ match fallback body with
                  | Some flag =>
                      flag = true
                      /\ warning body = Some FALLBACK_WARNING
                      /\ pr_endpoint data' = LOCAL_ENDPOINT
                      /\ ENABLE_LOCAL_ONNX_FALLBACK config = true
                      /\ lg' = lg
                      /\ exists message exc_details local_predictions,
                           remote_call f
                           = Raise (DeepstackClientError message 404 exc_details)
                           /\ local_engine world f = Ok local_predictions
                           /\ build_response (local_payload local_predictions)
                                LOCAL_ENDPOINT (DEEPSTACK_MODEL_NAME config) = Ok data'
                  | None =>
                      warning body = None
                      /\ pr_endpoint data'
                         = endpoint_of (DEEPSTACK_BASE_URL config)
                                       (DEEPSTACK_MODEL_NAME config)
                      /\ exists r,
                           remote_call f = Ok r
                           /\ lg' = (lg ++ [response_logged r])%list
                           /\ build_response (ds_payload r) (ds_endpoint r)
                                (DEEPSTACK_MODEL_NAME config) = Ok data'
                  end
      | None => fallback body = None /\ warning body = None
      end
  | (_, Raise _) => True
  end.
Proof.
  destruct (predict_cases world file lg) as [(message & _ & ->) | (f & Hv & H)].
  { cbn. auto. }
  destruct (remote_call f) as [r|e] eqn:Hcall.
  - cbv zeta in H.
    destruct (build_response (ds_payload r) (ds_endpoint r) (DEEPSTACK_MODEL_NAME config))
      as [data'|e] eqn:Hb.
    + rewrite H. cbn. split; [reflexivity|]. exists f. split; [exact Hv|].
      split; [reflexivity|]. split; [|eauto].
      rewrite (build_ok_endpoint _ _ _ _ Hb). exact (call_ok_endpoint f r Hcall).
    + destruct e; try (rewrite H; cbn; auto). destruct H as [_ ->]. cbn. auto.
  - destruct e; try (rewrite H; cbn; auto). destruct H as [Hs H].
    destruct ((status_code =? 404) && ENABLE_LOCAL_ONNX_FALLBACK config)%bool eqn:Hc.
    + apply andb_true_iff in Hc. destruct Hc as [H404 Hflag]. apply Z.eqb_eq in H404.
      subst status_code.
      destruct (local_engine world f) as [preds|e] eqn:Hl.
      * destruct H as (data' & Hb & ->). cbn. split; [reflexivity|].
        exists f. split; [exact Hv|]. split; [reflexivity|]. split; [reflexivity|].
        split; [exact (build_ok_endpoint _ _ _ _ Hb)|]. split; [exact Hflag|].
        split; [reflexivity|].
        do 2 eexists. exists preds. split; [exact Hcall|]. split; [exact Hl | exact Hb].
      * destruct e; rewrite H; cbn; auto.
    + rewrite H. cbn. auto.
Qed.

(** X16: [predict] answers with the generic 500 response only for an
    accepted upload and from one of two causes.  Either the remote call
    raised an exception that is no [DeepstackClientError], one that
    [requests.post] or [response.json()] raised and that it does not
    catch, and the log gained that exception; or the remote call returned,
    extracting the predictions of its payload raised [OverflowError], and
    the log gained the line about the call and the exception. *)
Theorem generic_500_has_two_causes
        (world : LocalWorld) (file : option UploadedFile) (lg lg' : list log_entry)
        (e : exn) :
  handle world file lg = (lg', Ok (generic_500 e)) ->
  exists f,
    validate_image_upload secure_filename file = (Some f, None)
    /\ match remote_call f with
       | Ok r =>
           _extract_predictions float_of_string py_repr (ds_payload r)
           = Raise (OverflowError (exn_str e))
           /\ lg' = (lg ++ [response_logged r;
                            LogException "Unexpected prediction error"
                                         (OverflowError (exn_str e))])%list
       | Raise e' =>
           e' = OtherException (exn_str e)
           /\ lg' = (lg ++ [LogException "Unexpected prediction error" e'])%list
       end.
Proof.
  destruct (predict_cases world file lg) as [(message & _ & ->) | (f & Hv & H)].
  { discriminate. }
  intros Hh. exists f. split; [exact Hv|].
  destruct (remote_call f) as [r|e'] eqn:Hcall.
  - cbv zeta in H.
    destruct (build_response (ds_payload r) (ds_endpoint r) (DEEPSTACK_MODEL_NAME config))
      as [data'|e'] eqn:Hb.
    + rewrite H in Hh. discriminate.
    + destruct (build_raises _ _ _ _ _ _ _ _ Hb)
        as [He [(message & exc_details & ->) | (message & ->)]].
      * destruct H as [_ H]. rewrite H in Hh. discriminate.
      * rewrite H in Hh. unfold generic_500 in Hh. cbn [exn_str] in Hh.
        injection Hh as Hlg Hm. rewrite <- Hm, <- Hlg.
        split; [exact He|]. now rewrite <- app_assoc.
  - destruct (call_raises_client_error _ _ _ _ _ _ _ Hcall)
      as [(message & status_code & exc_details & -> & Hs) | (message & ->)].
    + destruct H as [_ H].
      destruct ((status_code =? 404) && ENABLE_LOCAL_ONNX_FALLBACK config)%bool.
      * destruct (local_engine world f) as [preds|e'].
        -- destruct H as (data' & _ & H). rewrite H in Hh. discriminate.
        -- destruct e'; rewrite H in Hh; discriminate.
      * rewrite H in Hh. discriminate.
    + rewrite H in Hh. unfold generic_500 in Hh. cbn [exn_str] in Hh.
      injection Hh as Hlg Hm. rewrite <- Hm, <- Hlg. split; reflexivity.
Qed.

End PredictFacts.

(** ** Integers within the float range *)

Lemma binary_round_aux_infinity_sign (prec emax : Z) (s s' : bool) (M E : Z)
      (l : location) :
  binary_round_aux prec emax s M E l = S754_infinity s ->
  binary_round_aux prec emax s' M E l = S754_infinity s'.
Proof.
  unfold binary_round_aux.
  destruct (shr_fexp prec emax M E l) as [mrs1 e1].
  destruct (shr_fexp prec emax _ e1 loc_Exact) as [mrs2 e2].
  destruct (shr_m mrs2); try discriminate.
  destruct (e2 <=? emax - prec); [discriminate | reflexivity].
Qed.

Lemma round_pos_in_range (p : positive) :
  Zpos p <= F64_max_int -> binary_round 53 1024 false p 0 <> S754_infinity false.
Proof.
  intros Hle Hinf.
  assert (Hb : bounded 53 1024 9007199254740991 971 = true) by reflexivity.
  assert (Hfin : SFleb (binary_round 53 1024 false p 0)
                       (S754_finite false 9007199254740991 971) = true).
  { unfold binary_round, shl_align.
    set (e' := fexp 53 1024 (Zpos (digits2_pos p) + 0)).
    assert (He' : e' = Z.max (Zpos (digits2_pos p) - 53) (-1074))
      by (unfold e'; rewrite fexp64; f_equal; lia).
    unfold F64_max_int in Hle.
    destruct (e' - 0) as [|d|d] eqn:Hd.
    - apply binary_round_aux_le; try lia; try exact Hb.
      + simpl Zdigits2. fold e'. lia.
      + cbn [loc_exact]. replace (971 - 0) with 971 by lia. lia.
    - apply binary_round_aux_le; try lia; try exact Hb.
      + simpl Zdigits2. fold e'. lia.
      + cbn [loc_exact]. replace (971 - 0) with 971 by lia. lia.
    - assert (Hdig : Zdigits2 (Zpos (Pos.iter xO p d)) = Zpos (digits2_pos p) + Zpos d).
      { apply Zdigits2_unique; [lia|]. rewrite pos_iter_xO.
        pose proof (digits2_pos_bounds p) as [Hlo Hhi].
        assert (0 < 2 ^ Zpos d) by (apply Z.pow_pos_nonneg; lia).
        replace (Zpos (digits2_pos p) + Zpos d - 1)
          with (Zpos (digits2_pos p) - 1 + Zpos d) by lia.
        rewrite !Z.pow_add_r by lia. nia. }
      apply binary_round_aux_le; try lia; try exact Hb.
      + rewrite Hdig.
        replace (Zpos (digits2_pos p) + Zpos d + e') with (Zpos (digits2_pos p) + 0) by lia.
        fold e'. lia.
      + cbn [loc_exact]. rewrite pos_iter_xO.
        replace (971 - e') with (971 + Zpos d) by lia.
        rewrite Z.pow_add_r by lia.
        assert (0 < 2 ^ Zpos d) by (apply Z.pow_pos_nonneg; lia).
        nia. }
  rewrite Hinf in Hfin. discriminate.
Qed.

(** Every integer up to the largest float converts to a float. *)
Lemma float_of_int_in_range (z : Z) :
  Z.abs z <= F64_max_int -> exists f, float_of_int z = Ok f.
Proof.
  intros Hle. unfold float_of_int, F64.of_Z, binary_normalize, F64.prec, F64.emax.
  destruct z as [|p|p]; [eauto| |].
  - pose proof (round_pos_in_range p ltac:(lia)) as Hp.
    unfold binary_round in *.
    destruct (shl_align p 0 (fexp 53 1024 (Zpos (digits2_pos p) + 0))) as [mz ez].
    destruct (binary_round_aux_shape 53 1024 false (Zpos mz) ez loc_Exact ltac:(lia))
      as [-> | [H | (q & e & ->)]]; eauto. contradiction.
  - pose proof (round_pos_in_range p ltac:(lia)) as Hp.
    unfold binary_round in *.
    destruct (shl_align p 0 (fexp 53 1024 (Zpos (digits2_pos p) + 0))) as [mz ez].
    destruct (binary_round_aux_shape 53 1024 true (Zpos mz) ez loc_Exact ltac:(lia))
      as [-> | [H | (q & e & ->)]]; eauto.
    apply (binary_round_aux_infinity_sign 53 1024 true false) in H. contradiction.
Qed.

Section Coercions.
Variable float_of_string : string -> option float64.

Lemma py_float_overflow (v : pyval) (m : string) :
  py_float float_of_string v = Raise (OverflowError m) ->
  exists z, v = PInt z /\ F64_max_int < Z.abs z
            /\ m = "int too large to convert to float".
Proof.
  destruct v; simpl; try discriminate.
  - intros H. exists z. split; [reflexivity|].
    destruct (Z_le_gt_dec (Z.abs z) F64_max_int) as [Hle|Hgt].
    + destruct (float_of_int_in_range z Hle) as (f & Hf). congruence.
    + split; [lia|]. unfold float_of_int in H.
      destruct (F64.of_Z z); congruence.
  - destruct (float_of_string s); discriminate.
Qed.

(** X17: [_normalize_confidence] and [_safe_float] raise only for an
    integer whose magnitude is beyond the largest float, and then the
    [OverflowError] of [float]; what [_safe_float] returns is the float of
    its argument or the default. *)
Theorem coercions_raise_only_beyond_the_float_range (v : pyval) (default : float64) :
  match _normalize_confidence float_of_string v with
  | Ok _ => True
  | Raise e =>
      exists z, v = PInt z /\ F64_max_int < Z.abs z
                /\ e = OverflowError "int too large to convert to float"
  end
  /\ match _safe_float float_of_string v default with
     | Ok x => py_float float_of_string v = Ok x \/ x = default
     | Raise e =>
         exists z, v = PInt z /\ F64_max_int < Z.abs z
                   /\ e = OverflowError "int too large to convert to float"
     end.
Proof.
  split.
  - destruct (_normalize_confidence float_of_string v) as [sp|e] eqn:H; [exact I|].
    apply normalize_raises in H. destruct H as (m & -> & Hpf).
    apply py_float_overflow in Hpf. destruct Hpf as (z & -> & Hz & ->). eauto.
  - unfold _safe_float.
    destruct (py_float float_of_string v) as [x|e] eqn:Hpf; [left; reflexivity|].
    destruct (py_float_raises float_of_string v e Hpf) as [[m ->] | [[m ->] | [m ->]]];
      cbn [except_type_or_value]; auto.
    apply py_float_overflow in Hpf. destruct Hpf as (z & -> & Hz & ->). eauto.
Qed.

End Coercions.

(** ** One prediction per entry *)

Section Collected.
Variable float_of_string : string -> option float64.
Variable py_repr : pyval -> string.

(** X19: for a dict payload whose [error] value is not truthy and whose
    integer confidences are within the float range, [_extract_predictions]
    raises the 502 error that holds the payload when there is no entry, and
    otherwise returns one prediction per entry (the top-level pair when
    there is a [label] key, then the dicts of the [predictions] list), each
    with the entry's label as a string or [Unknown], in ranked order. *)
Theorem extraction_collects_every_entry (d : list (string * pyval)) :
  truthy (get_or_none d "error") = false ->
  confidences_convert (raw_entries d) ->
  match raw_entries d with
  | [] =>
      _extract_predictions float_of_string py_repr (PDict d)
      = Raise (DeepstackClientError "DeepStack returned no predictions for this image."
                 502 [("response", PDict d)])
  | _ :: _ =>
      exists ranked collected,
        _extract_predictions float_of_string py_repr (PDict d) = Ok ranked
        /\ Forall2 (fun e p => prediction_of float_of_string py_repr e = Ok p)
                   (raw_entries d) collected
        /\ Forall2 (fun e p => label p = py_str py_repr (get_or e "label" (PStr "Unknown")))
                   (raw_entries d) collected
        /\ Permutation ranked collected
        /\ List.length ranked = List.length (raw_entries d)
  end.
Proof.
  intros Herr Hconv.
  rewrite (extract_dict float_of_string py_repr d Herr).
  destruct (map_result_total (prediction_of float_of_string py_repr) (raw_entries d))
    as (ps & Hps & H2).
  { eapply Forall_impl; [|exact Hconv]. intros e He.
    apply prediction_of_total. intros m Hpf.
    apply py_float_overflow in Hpf. destruct Hpf as (z & Hz & Hlt & _).
    specialize (He z Hz). lia. }
  rewrite Hps. cbn [bind].
  destruct (raw_entries d) as [|e es] eqn:Hraw.
  - inversion H2. reflexivity.
  - destruct ps as [|p ps]; [inversion H2|].
    exists (sorted_reverse confidence_percent (p :: ps)), (p :: ps).
    split; [reflexivity|]. split; [exact H2|]. split.
    { eapply Forall2_impl; [|exact H2]. intros e' p' H. cbv beta in H.
      unfold prediction_of in H. bind_inv H. destruct a as [score percent].
      injection H as <-. reflexivity. }
    split; [apply sorted_reverse_perm|].
    rewrite (Permutation_length (sorted_reverse_perm confidence_percent (p :: ps))).
    symmetry. eapply Forall2_length. exact H2.
Qed.

End Collected.

(** X19 at a payload with a top-level pair, one dict entry and one entry
    that is no dict. *)
Lemma extraction_collects_every_entry_witness :
  for_every_library (fun float_of_string py_repr =>
    exists ranked,
      _extract_predictions float_of_string py_repr
        (PDict [("label", PStr "Apple"); ("confidence", PInt 92);
                ("predictions", PList [PDict [("confidence", PInt 7)]; PStr "skipped"])])
      = Ok ranked
      /\ List.length ranked = 2%nat).
Proof.
  intros float_of_string py_repr.
  destruct (extraction_collects_every_entry float_of_string py_repr
              [("label", PStr "Apple"); ("confidence", PInt 92);
               ("predictions", PList [PDict [("confidence", PInt 7)]; PStr "skipped"])])
    as (ranked & collected & He & _ & _ & _ & Hlen).
  - reflexivity.
  - repeat constructor; intros z [= <-]; vm_compute; discriminate.
  - exists ranked. split; [exact He | exact Hlen].
Defined.

(** ** Softmax on NaN *)

Section SoftmaxNaN.
Variable exp_finite : float32 -> float32.
Variable np_sum : list float32 -> float32.

(** X20: when the sum of NaNs is NaN, a NaN among the logits makes the
    maximum NaN and [_softmax] return NaN for every class. *)
Theorem nan_logit_poisons_softmax (logits : list float32) :
  (forall n, np_sum (repeat S754_nan (S n)) = S754_nan) ->
  In S754_nan logits ->
  np_max logits = Ok S754_nan
  /\ _softmax exp_finite np_sum logits = Ok (repeat S754_nan (List.length logits)).
Proof.
  intros Hsum Hin. destruct logits as [|x xs]; [contradiction|].
  assert (Hm : np_max (x :: xs) = Ok S754_nan).
  { unfold np_max. now rewrite (fold_np_maximum_nan xs x Hin). }
  split; [exact Hm|].
  unfold _softmax, _softmax_run. rewrite Hm. cbn [bind].
  assert (Hexp : forall l,
             map (np_exp exp_finite) (map (fun y => F32.sub y S754_nan) l)
             = repeat S754_nan (List.length l)).
  { induction l as [|y l IH]; [reflexivity|].
    cbn [map List.length repeat]. rewrite IH, sub_nan. reflexivity. }
  rewrite Hexp. cbn [List.length]. rewrite Hsum.
  cbn [F32.le SFleb SFcompare bind fst]. f_equal.
  generalize (S (List.length xs)). intros n. clear.
  induction n as [|n IH]; [reflexivity|]. cbn [repeat map]. now rewrite IH.
Qed.

End SoftmaxNaN.

Lemma sum_sequential_nan (n : nat) : sum_sequential (repeat S754_nan (S n)) = S754_nan.
Proof.
  unfold sum_sequential. cbn [repeat fold_left].
  change (F32.add F32.zero S754_nan) with S754_nan.
  induction n as [|n IH]; [reflexivity|]. cbn [repeat fold_left]. exact IH.
Qed.

(** X20 at the logits [[1; NaN; 0]] with a left-to-right sum. *)
Lemma nan_logit_poisons_softmax_witness :
  for_every_exp (fun exp_finite =>
    _softmax exp_finite sum_sequential [F32.one; S754_nan; F32.zero]
    = Ok [S754_nan; S754_nan; S754_nan]).
Proof.
  intros exp_finite.
  exact (proj2 (nan_logit_poisons_softmax exp_finite sum_sequential
                  [F32.one; S754_nan; F32.zero] sum_sequential_nan
                  (or_intror (or_introl eq_refl)))).
Defined.

(** ** The default normalisation *)

Lemma default_normalize_bytes :
  forallb (fun n => in_unit_ball (default_normalize (Z.of_nat n))) (seq 0 256) = true.
Proof. vm_compute. reflexivity. Qed.

Lemma default_normalize_in_unit_ball (z : Z) :
  is_byte z -> in_unit_ball (default_normalize z) = true.
Proof.
  intros [Hlo Hhi].
  pose proof (proj1 (forallb_forall _ _) default_normalize_bytes (Z.to_nat z)) as H.
  cbv beta in H. rewrite Z2Nat.id in H by lia.
  apply H. apply in_seq. lia.
Qed.

(** X21: at the defaults [mean = 0.5] and [std = 255] the normalisation
    of [predict_with_local_onnx] is in its first mode, and it maps every
    8-bit image to values in [[-1, 1]]: 0 to -1 and 255 to 1 exactly. *)
Theorem default_normalisation_stays_in_unit_ball (pixels : list (list (list Z))) :
  Forall (Forall (Forall is_byte)) pixels ->
  normalize_image F64.default_mean F64.default_std (as_float32 pixels)
  = map (map (map default_normalize)) pixels
  /\ Forall (Forall (Forall (fun y => in_unit_ball y = true)))
            (normalize_image F64.default_mean F64.default_std (as_float32 pixels))
  /\ default_normalize 0 = F32.of_Z (-1)
  /\ default_normalize 255 = F32.one.
Proof.
  intros Hbytes.
  assert (Heq : normalize_image F64.default_mean F64.default_std (as_float32 pixels)
                = map (map (map default_normalize)) pixels).
  { unfold normalize_image.
    replace (F64.ge F64.default_std F64.ten
             && (F64.lt F64.zero F64.default_mean && F64.lt F64.default_mean F64.one))%bool
      with true by reflexivity.
    unfold map_pixels, as_float32. rewrite map_map.
    apply map_ext. intros row. rewrite map_map. apply map_ext. intros px.
    rewrite map_map. reflexivity. }
  split; [exact Heq|]. split; [|split; vm_compute; reflexivity].
  rewrite Heq.
  apply Forall_map. eapply Forall_impl; [|exact Hbytes]. intros row Hrow.
  apply Forall_map. eapply Forall_impl; [|exact Hrow]. intros px Hpx.
  apply Forall_map. eapply Forall_impl; [|exact Hpx]. intros z Hz.
  now apply default_normalize_in_unit_ball.
Qed.

(** X21 at a one-pixel image. *)
Lemma default_normalisation_stays_in_unit_ball_witness :
  Forall (Forall (Forall is_byte)) [[[0; 128; 255]]]
  /\ Forall (Forall (Forall (fun y => in_unit_ball y = true)))
            (normalize_image F64.default_mean F64.default_std
               (as_float32 [[[0; 128; 255]]])).
Proof.
  assert (H : Forall (Forall (Forall is_byte)) [[[0; 128; 255]]])
    by (repeat constructor; unfold is_byte; lia).
  split; [exact H|].
  exact (proj1 (proj2 (default_normalisation_stays_in_unit_ball [[[0; 128; 255]]] H))).
Defined.

(** ** Confidences that saturate *)

(** A float that is at least 100 and not above it is the float 100. *)
Lemma hundred_or_above (x : float64) :
  F64.le F64.hundred x = true -> F64.lt F64.hundred x = false -> x = F64.hundred.
Proof.
  unfold F64.le, F64.lt, SFleb, SFltb, F64.hundred.
  destruct x as [s|s| |s m e]; try discriminate.
  - destruct s; discriminate.
  - destruct s; cbn [SFcompare]; [discriminate|].
    destruct (Z.compare_spec (-46) e); try discriminate.
    subst e.
    change (Pos.compare_cont Eq 7036874417766400 m) with (7036874417766400 ?= m)%positive.
    destruct (Pos.compare_spec 7036874417766400 m); try discriminate.
    now subst m.
Qed.

Section Saturation.
Variable float_of_string : string -> option float64.

(** X22: [_normalize_confidence] gives score 0.0 and percent 0.0 for an
    input that [float] refuses with a [TypeError] or a [ValueError], and for
    one whose float is not above 0.0 (NaN, a negative number, a zero, minus
    infinity); it gives score 1.0 and percent 100.0 for every input whose
    float is at least 100, plus infinity included. *)
Theorem degenerate_confidences_saturate (v : pyval) :
  ((exists m, py_float float_of_string v = Raise (TypeError m))
   \/ (exists m, py_float float_of_string v = Raise (ValueError m))
   \/ (exists x, py_float float_of_string v = Ok x /\ F64.gt x F64.zero = false) ->
   _normalize_confidence float_of_string v = Ok (F64.zero, F64.zero))
  /\ ((exists x, py_float float_of_string v = Ok x /\ F64.le F64.hundred x = true) ->
      _normalize_confidence float_of_string v = Ok (F64.one, F64.hundred)).
Proof.
  unfold _normalize_confidence. split.
  - intros [[m ->] | [[m ->] | (x & -> & Hx)]]; cbn [except_type_or_value bind];
      try reflexivity.
    unfold py_max. rewrite Hx. reflexivity.
  - intros (x & -> & Hx). cbn [except_type_or_value bind].
    assert (Hpos : F64.gt x F64.zero = true).
    { unfold F64.gt. destruct (SFltb F64.zero x) eqn:Hlt; [reflexivity|].
      exfalso.
      assert (Hn : F64.is_nan x = false) by (apply SFleb_not_nan in Hx; tauto).
      pose proof (SFltb_false_leb F64.zero x eq_refl Hn Hlt) as Hle.
      pose proof (SFleb_trans _ _ _ Hx Hle) as H. discriminate H. }
    unfold py_max. rewrite Hpos.
    assert (H1 : F64.gt x F64.one = true).
    { unfold F64.gt. destruct (SFltb F64.one x) eqn:Hlt; [reflexivity|].
      exfalso.
      assert (Hn : F64.is_nan x = false) by (apply SFleb_not_nan in Hx; tauto).
      pose proof (SFltb_false_leb F64.one x eq_refl Hn Hlt) as Hle.
      pose proof (SFleb_trans _ _ _ Hx Hle) as H. discriminate H. }
    rewrite H1. unfold py_min.
    destruct (F64.lt F64.hundred x) eqn:Hlt; [reflexivity|].
    rewrite (hundred_or_above x Hx Hlt). reflexivity.
Qed.

End Saturation.

(** X22 at NaN, at a list and at plus infinity. *)
Lemma degenerate_confidences_saturate_witness :
  for_every_parser (fun float_of_string =>
    _normalize_confidence float_of_string (PFloat S754_nan) = Ok (F64.zero, F64.zero)
    /\ _normalize_confidence float_of_string (PList []) = Ok (F64.zero, F64.zero)
    /\ _normalize_confidence float_of_string (PFloat (S754_infinity false))
       = Ok (F64.one, F64.hundred)).
Proof.
  intros float_of_string.
  split; [|split].
  - apply (proj1 (degenerate_confidences_saturate float_of_string (PFloat S754_nan))).
    right. right. exists S754_nan. split; reflexivity.
  - apply (proj1 (degenerate_confidences_saturate float_of_string (PList []))).
    left. eexists. reflexivity.
  - apply (proj2 (degenerate_confidences_saturate float_of_string
                    (PFloat (S754_infinity false)))).
    exists (S754_infinity false). split; reflexivity.
Defined.

(** ** Confidences of a local answer *)

Lemma to_f64_valid (x : float32) : F64.valid (F32.to_f64 x) = true.
Proof.
  destruct x as [s|s| |s m e]; try reflexivity.
  apply binary_round_valid. reflexivity.
Qed.

Section LocalAnswers.
Variable secure_filename : string -> string.
Variable float_of_string : string -> option float64.
Variable int_of_string : string -> option Z.
Variable py_repr : pyval -> string.
Variable exp_finite : float32 -> float32.
Variable np_sum : list float32 -> float32.
Variable http_post : string -> string -> string -> string -> Z -> post_outcome.
Variable now_utc_iso : string.
Variable env_deepstack_base_url : option string.
Variable config : AppConfig.

Lemma label_predictions_valid (label_map : pyval) (probabilities : list float32) :
  forall first ps,
    label_predictions py_repr label_map first probabilities = Ok ps ->
    Forall (fun p => F64.valid (lp_confidence p) = true) ps.
Proof.
  induction probabilities as [|p probabilities IH]; simpl; intros first ps H.
  - injection H as <-. constructor.
  - bind_inv H. bind_inv H. injection H as <-.
    constructor; [apply to_f64_valid | eapply IH; eassumption].
Qed.

Lemma local_confidences_valid (world : LocalWorld) (f : UploadedFile)
      (model_path config_path : string) (ranked : list LocalPrediction) :
  predict_with_local_onnx float_of_string int_of_string py_repr exp_finite np_sum
    world f model_path config_path = Ok ranked ->
  Forall (fun p => F64.valid (lp_confidence p) = true) ranked.
Proof.
  unfold predict_with_local_onnx. intros H. do 16 bind_inv H. injection H as <-.
  eapply Permutation_Forall; [symmetry; apply sorted_reverse_perm|].
  eapply label_predictions_valid. eassumption.
Qed.

Lemma local_payload_floats_valid (local_predictions : list LocalPrediction) :
  Forall (fun p => F64.valid (lp_confidence p) = true) local_predictions ->
  payload_floats_valid float_of_string (local_payload local_predictions).
Proof.
  intros H. unfold payload_floats_valid, local_payload, raw_entries.
  cbn [dict_has dict_get String.eqb Ascii.eqb Bool.eqb get_or_none app].
  induction H as [|p ps Hp H IH]; [constructor|].
  cbn [map dict_items flat_map local_prediction_dict app].
  constructor; [exact Hp | exact IH].
Qed.

(** X23: a response of [predict] that carries the fallback flag reports
    a score in [[0, 1]] and a percent in [[0, 100]], for the reported fruit
    and for every listed prediction, whatever the local model put out. *)
Theorem local_answers_report_confidences_in_range
        (world : LocalWorld) (file : option UploadedFile) (lg : list log_entry) :
  match predict secure_filename float_of_string int_of_string py_repr exp_finite np_sum
          http_post now_utc_iso env_deepstack_base_url world config file lg with
  | (_, Ok (body, _)) =>
      match fallback body, data body with
      | Some _, Some data' =>
          F64.le F64.zero (pr_confidence data') = true
          /\ F64.le (pr_confidence data') F64.one = true
          /\ F64.le F64.zero (pr_confidence_percent data') = true
          /\ F64.le (pr_confidence_percent data') F64.hundred = true
          /\ Forall in_range (pr_predictions data')
      | _, _ => True
      end
  | (_, Raise _) => True
  end.
Proof.
  destruct (predict_cases secure_filename float_of_string int_of_string py_repr
              exp_finite np_sum http_post now_utc_iso env_deepstack_base_url config
              world file lg) as [(message & _ & ->) | (f & Hv & H)].
  { exact I. }
  destruct (call_custom_model secure_filename http_post f (DEEPSTACK_BASE_URL config)
              (DEEPSTACK_MODEL_NAME config) (DEEPSTACK_TIMEOUT_SECONDS config))
    as [r|e].
  - cbv zeta in H.
    destruct (build_prediction_response float_of_string py_repr now_utc_iso
                env_deepstack_base_url (ds_payload r) (ds_endpoint r)
                (DEEPSTACK_MODEL_NAME config)) as [data'|e].
    + rewrite H. exact I.
    + destruct e; try (rewrite H; exact I). destruct H as [_ ->]. exact I.
  - destruct e; try (rewrite H; exact I). destruct H as [Hs H].
    destruct ((status_code =? 404) && ENABLE_LOCAL_ONNX_FALLBACK config)%bool.
    + destruct (predict_with_local_onnx float_of_string int_of_string py_repr exp_finite
                  np_sum world f "Fruits.onnx" "config.json") as [preds|e] eqn:Hl.
      * destruct H as (data' & Hb & ->). cbn [answered_locally fallback data].
        eapply build_in_range; [|exact Hb].
        apply local_payload_floats_valid.
        eapply local_confidences_valid. exact Hl.
      * destruct e; rewrite H; exact I.
    + rewrite H. exact I.
Qed.

End LocalAnswers.

(** ** The extensions the page advertises *)

(** X24: the extensions [index] hands to the page are the ones the
    validator accepts: a sanitised name [base.ext] whose [ext] in lower case
    is among them passes validation when the MIME type is absent or starts
    with [image/], and one whose [ext] is not among them gets the
    unsupported-type message. *)
Theorem advertised_extensions_are_the_accepted_ones
        (settings : Settings) (sf : string -> string) (f : UploadedFile)
        (base ext : string) :
  sf (or_empty (filename f)) = base ++ "." ++ ext ->
  has_dot ext = false ->
  (In (lower ext) (ix_allowed_extensions (index settings)) ->
   mimetype f = None \/ (exists mt, mimetype f = Some mt /\ startswith mt "image/" = true) ->
   validate_image_upload sf (Some f) = (Some f, None))
  /\ (~ In (lower ext) (ix_allowed_extensions (index settings)) ->
      validate_image_upload sf (Some f)
      = (None, Some ("Unsupported file type '" ++ lower ext
                       ++ "'. Allowed: bmp, gif, jpeg, jpg, png, webp."))).
Proof.
  intros Hname Hext. unfold validate_image_upload. rewrite Hname.
  rewrite has_dot_app, (after_last_dot_app base ext Hext).
  replace (is_empty (base ++ "." ++ ext)) with false
    by (symmetry; apply app_not_empty; reflexivity).
  cbn [negb]. cbv zeta.
  change (ix_allowed_extensions (index settings)) with ALLOWED_EXTENSIONS.
  split.
  - intros Hin Hmime. apply mem_string_In in Hin. rewrite Hin. cbn [negb].
    destruct Hmime as [-> | (mt & -> & Hmt)]; [reflexivity|].
    cbn [or_empty]. unfold ALLOWED_MIME_PREFIX. rewrite Hmt.
    now rewrite andb_false_r.
  - intros Hnot. apply mem_string_not_In in Hnot. rewrite Hnot. reflexivity.
Qed.

(** X24 at the name [pear.WebP]. *)
Lemma advertised_extensions_are_the_accepted_ones_witness :
  validate_image_upload secure_filename_ascii
    (Some {| filename := Some "pear.WebP"; mimetype := Some "image/webp"; stream := "RIFF" |})
  = (Some {| filename := Some "pear.WebP"; mimetype := Some "image/webp"; stream := "RIFF" |},
     None).
Proof.
  refine (proj1 (advertised_extensions_are_the_accepted_ones
                   {| app_config := sample_config true; MAX_UPLOAD_MB := 10;
                      MAX_CONTENT_LENGTH := 10485760; PORT := 81 |}
                   secure_filename_ascii
                   {| filename := Some "pear.WebP"; mimetype := Some "image/webp";
                      stream := "RIFF" |}
                   "pear" "WebP" eq_refl eq_refl) _ _).
  - cbn. tauto.
  - right. exists "image/webp". split; reflexivity.
Defined.

(** ** Settings, and the properties above at concrete requests *)

(** X18: the configured base URL has no trailing slash, so the endpoint
    [call_custom_model] posts to is that URL followed by the custom-model
    path and the model name, and calling with the configured URL is calling
    with the URL of the environment; the upload limit in bytes is the limit
    in megabytes times 1048576. *)
Theorem configured_base_url_is_used_verbatim
        (int_of_string : string -> option Z) (env : string -> option string)
        (settings : Settings) :
  configure int_of_string env = Ok settings ->
  let config := app_config settings in
  rstrip_slash (DEEPSTACK_BASE_URL config) = DEEPSTACK_BASE_URL config
  /\ endpoint_of (DEEPSTACK_BASE_URL config) (DEEPSTACK_MODEL_NAME config)
     = DEEPSTACK_BASE_URL config ++ "/v1/vision/custom/" ++ DEEPSTACK_MODEL_NAME config
  /\ (forall secure_filename http_post f,
         call_custom_model secure_filename http_post f (DEEPSTACK_BASE_URL config)
           (DEEPSTACK_MODEL_NAME config) (DEEPSTACK_TIMEOUT_SECONDS config)
         = call_custom_model secure_filename http_post f
             (getenv env "DEEPSTACK_BASE_URL" "http://localhost:5050")
             (DEEPSTACK_MODEL_NAME config) (DEEPSTACK_TIMEOUT_SECONDS config))
  /\ MAX_CONTENT_LENGTH settings = MAX_UPLOAD_MB settings * 1048576.
Proof.
  unfold configure. intros H. do 3 bind_inv H. injection H as <-.
  cbn [app_config DEEPSTACK_BASE_URL DEEPSTACK_MODEL_NAME DEEPSTACK_TIMEOUT_SECONDS
       MAX_CONTENT_LENGTH MAX_UPLOAD_MB].
  assert (Hidem : rstrip_slash (rstrip_slash (getenv env "DEEPSTACK_BASE_URL"
                                                "http://localhost:5050"))
                  = rstrip_slash (getenv env "DEEPSTACK_BASE_URL" "http://localhost:5050"))
    by apply rstrip_by_idem.
  split; [exact Hidem|]. split; [unfold endpoint_of; now rewrite Hidem|].
  split; [|lia].
  intros secure_filename http_post f. unfold call_custom_model. now rewrite Hidem.
Qed.

(** X18 at an environment that sets the base URL with two trailing slashes. *)
Lemma configured_base_url_is_used_verbatim_witness :
  endpoint_of "http://deepstack:5000" "FruitsRecognition"
  = "http://deepstack:5000/v1/vision/custom/FruitsRecognition".
Proof.
  exact (proj1 (proj2 (configured_base_url_is_used_verbatim
                         (fun _ => Some 45)
                         (fun name => if String.eqb name "DEEPSTACK_BASE_URL"
                                      then Some "http://deepstack:5000//" else None)
                         _ eq_refl))).
Defined.

(** X2 at a base URL with two trailing slashes. *)
Lemma trailing_slashes_are_ignored_witness :
  call_custom_model secure_filename_ascii http_echo sample_file
    "http://localhost:5050//" "Fruits" 45
  = call_custom_model secure_filename_ascii http_echo sample_file
      "http://localhost:5050" "Fruits" 45.
Proof.
  exact (trailing_slashes_are_ignored secure_filename_ascii http_echo sample_file
           "http://localhost:5050" "//" "Fruits" 45 eq_refl).
Defined.

(** X5 at the percents 50 and 80. *)
Lemma confidence_tier_is_monotone_witness :
  F64.le F64.fifty F64.eighty = true
  /\ level (_confidence_profile F64.eighty) <> "low".
Proof.
  split; [reflexivity|].
  exact (proj1 (proj2 (confidence_tier_is_monotone F64.fifty F64.eighty eq_refl)) eq_refl).
Defined.

(** X8 at a payload with the confidences 30 and 250. *)
Lemma reported_confidences_are_in_range_witness :
  for_every_library (fun float_of_string py_repr =>
    exists r,
      build_prediction_response float_of_string py_repr "2024-01-01T00:00:00+00:00" None
        (PDict [("predictions",
                 PList [PDict [("label", PStr "Pear");
                               ("confidence", PFloat (F64.div (F64.of_Z 3) (F64.of_Z 10)))];
                        PDict [("label", PStr "Plum"); ("confidence", PInt 250)]])])
        "http://localhost:5050/v1/vision/custom/Fruits" "Fruits" = Ok r
      /\ F64.le (pr_confidence r) F64.one = true
      /\ F64.le (pr_confidence_percent r) F64.hundred = true
      /\ Forall in_range (pr_predictions r)).
Proof.
  intros float_of_string py_repr.
  destruct (reported_confidences_are_in_range float_of_string py_repr
              "2024-01-01T00:00:00+00:00" None
              (PDict [("predictions",
                       PList [PDict [("label", PStr "Pear");
                                     ("confidence",
                                      PFloat (F64.div (F64.of_Z 3) (F64.of_Z 10)))];
                              PDict [("label", PStr "Plum"); ("confidence", PInt 250)]])])
              "http://localhost:5050/v1/vision/custom/Fruits" "Fruits") as [_ Hb].
  - constructor; [vm_compute; reflexivity|]. constructor; [exact I | constructor].
  - eexists. split; [vm_compute; reflexivity|].
    match goal with
    | |- F64.le (pr_confidence ?r) _ = true /\ _ =>
        destruct (Hb r) as (_ & H1 & _ & H2 & H3); [vm_compute; reflexivity|]
    end.
    auto.
Defined.

(** X14 at a text file. *)
Lemma rejected_upload_is_answered_400_witness :
  for_every_builtin (fun float_of_string int_of_string py_repr =>
    for_every_numpy (fun exp_finite np_sum =>
      predict secure_filename_ascii float_of_string int_of_string py_repr
        exp_finite np_sum http_echo "2024-01-01T00:00:00+00:00" None
        working_world (sample_config true)
        (Some {| filename := Some "notes.txt"; mimetype := Some "text/plain";
                 stream := "hello" |}) []
      = ([], Ok (rejected "Unsupported file type 'txt'. Allowed: bmp, gif, jpeg, jpg, png, webp.")))).
Proof.
  intros float_of_string int_of_string py_repr exp_finite np_sum.
  exact (rejected_upload_is_answered_400 secure_filename_ascii float_of_string
           int_of_string py_repr exp_finite np_sum http_echo "2024-01-01T00:00:00+00:00"
           None (sample_config true) working_world
           (Some {| filename := Some "notes.txt"; mimetype := Some "text/plain";
                    stream := "hello" |}) []
           "Unsupported file type 'txt'. Allowed: bmp, gif, jpeg, jpg, png, webp."
           eq_refl).
Defined.

(** X16 at a remote answer whose confidence is [10^400], and at one whose
    document is nested too deeply. *)
Lemma generic_500_has_two_causes_witness :
  for_every_builtin (fun float_of_string int_of_string py_repr =>
    for_every_numpy (fun exp_finite np_sum =>
      (exists r,
          call_custom_model secure_filename_ascii http_huge sample_file
            "http://localhost:5050" "FruitsRecognition" 45 = Ok r
          /\ _extract_predictions float_of_string py_repr (ds_payload r)
             = Raise (OverflowError "int too large to convert to float"))
      /\ call_custom_model secure_filename_ascii http_nested sample_file
           "http://localhost:5050" "FruitsRecognition" 45
         = Raise (OtherException "maximum recursion depth exceeded"))).
Proof.
  intros float_of_string int_of_string py_repr exp_finite np_sum. split.
  - assert (H : snd (predict secure_filename_ascii float_of_string int_of_string py_repr
                       exp_finite np_sum http_huge "2024-01-01T00:00:00+00:00" None
                       working_world (sample_config true) (Some sample_file) [])
                = Ok (generic_500 (OverflowError "int too large to convert to float")))
      by (vm_compute; reflexivity).
    destruct (predict secure_filename_ascii float_of_string int_of_string py_repr
                exp_finite np_sum http_huge "2024-01-01T00:00:00+00:00" None
                working_world (sample_config true) (Some sample_file) [])
      as [lg' out] eqn:Hp.
    cbn [snd] in H. subst out.
    destruct (generic_500_has_two_causes _ _ _ _ _ _ _ _ _ _ _ _ _ _ _ Hp)
      as (f & Hv & Hc).
    injection Hv as <-. cbn [sample_config DEEPSTACK_BASE_URL DEEPSTACK_MODEL_NAME
                             DEEPSTACK_TIMEOUT_SECONDS] in Hc.
    destruct (call_custom_model secure_filename_ascii http_huge sample_file
                "http://localhost:5050" "FruitsRecognition" 45) as [r|e'] eqn:Hcall.
    + exists r. split; [reflexivity | exact (proj1 Hc)].
    + discriminate Hcall.
  - assert (H : snd (predict secure_filename_ascii float_of_string int_of_string py_repr
                       exp_finite np_sum http_nested "2024-01-01T00:00:00+00:00" None
                       working_world (sample_config true) (Some sample_file) [])
                = Ok (generic_500 (OtherException "maximum recursion depth exceeded")))
      by (vm_compute; reflexivity).
    destruct (predict secure_filename_ascii float_of_string int_of_string py_repr
                exp_finite np_sum http_nested "2024-01-01T00:00:00+00:00" None
                working_world (sample_config true) (Some sample_file) [])
      as [lg' out] eqn:Hp.
    cbn [snd] in H. subst out.
    destruct (generic_500_has_two_causes _ _ _ _ _ _ _ _ _ _ _ _ _ _ _ Hp)
      as (f & Hv & Hc).
    injection Hv as <-. cbn [sample_config DEEPSTACK_BASE_URL DEEPSTACK_MODEL_NAME
                             DEEPSTACK_TIMEOUT_SECONDS] in Hc.
    destruct (call_custom_model secure_filename_ascii http_nested sample_file
                "http://localhost:5050" "FruitsRecognition" 45) as [r|e'] eqn:Hcall.
    + discriminate Hcall.
    + rewrite (proj1 Hc). reflexivity.
Defined.

Lemma working_world_is_sound (float_of_string : string -> option float64)
      (int_of_string : string -> option Z) :
  local_setup_sound float_of_string int_of_string working_world.
Proof.
  split.
  - intros _. eexists. split; [reflexivity|].
    eexists. split; [reflexivity|].
    repeat split; try (eexists; reflexivity); intros m; vm_compute; discriminate.
  - intros _. exists sample_session. split; [reflexivity|].
    split; [discriminate|]. intros name tensor out [= <-]. discriminate.
Qed.


(** X10 at the world without a model file. *)
Lemma missing_file_is_a_local_model_error_witness :
  for_every_builtin (fun float_of_string int_of_string py_repr =>
    for_every_numpy (fun exp_finite np_sum =>
      predict_with_local_onnx float_of_string int_of_string py_repr exp_finite np_sum
        no_model_world sample_file "Fruits.onnx" "config.json"
      = Raise (LocalModelError "Local ONNX model file not found: Fruits.onnx"))).
Proof.
  intros float_of_string int_of_string py_repr exp_finite np_sum.
  exact (proj2 (missing_file_is_a_local_model_error float_of_string int_of_string py_repr
                  exp_finite np_sum no_model_world sample_file "Fruits.onnx" "config.json")
               (PDict []) eq_refl eq_refl eq_refl eq_refl).
Defined.

(** X9 at the working local engine, whose model has one class. *)
Lemma local_predictions_are_one_per_class_witness :
  for_every_builtin (fun float_of_string int_of_string py_repr =>
    for_every_numpy (fun exp_finite np_sum =>
      exists ranked,
        predict_with_local_onnx float_of_string int_of_string py_repr exp_finite np_sum
          working_world sample_file "Fruits.onnx" "config.json" = Ok ranked
        /\ List.length ranked = 1%nat)).
Proof.
  intros float_of_string int_of_string py_repr exp_finite np_sum.
  pose proof (sound_engine_outcome float_of_string int_of_string py_repr exp_finite np_sum
                working_world sample_file "Fruits.onnx" "config.json"
                (working_world_is_sound float_of_string int_of_string)) as Ho.
  destruct (predict_with_local_onnx float_of_string int_of_string py_repr exp_finite
              np_sum working_world sample_file "Fruits.onnx" "config.json")
    as [ranked|e] eqn:Hl.
  - exists ranked. split; [reflexivity|].
    destruct (local_predictions_are_one_per_class float_of_string int_of_string py_repr
                exp_finite np_sum working_world sample_file "Fruits.onnx" "config.json"
                ranked Hl)
      as (d & label_map & session & input_name & tensor & output & probabilities
          & _ & _ & Hs & Hrun & _ & _ & _ & _ & _ & Hlen).
    injection Hs as <-. injection Hrun as <-. exact Hlen.
  - exfalso. destruct Ho as (local_message & ->).
    revert Hl. unfold predict_with_local_onnx. cbn.
    destruct (softmax_returns exp_finite np_sum [F32.zero]) as (probs & Hs);
      [discriminate|].
    rewrite Hs. apply softmax_length in Hs. destruct Hs as [_ Hlen].
    destruct probs as [|p [|]]; try discriminate Hlen.
    cbn. discriminate.
Defined.

(** ** Worked examples *)

Example normalize_fraction (float_of_string : string -> option float64) :
  _normalize_confidence float_of_string (PFloat (F64.div (F64.of_Z 42) (F64.of_Z 100)))
  = Ok (F64.div (F64.of_Z 42) (F64.of_Z 100), F64.of_Z 42).
Proof. vm_compute. reflexivity. Qed.

Example normalize_negative (float_of_string : string -> option float64) :
  _normalize_confidence float_of_string (PInt (-5)) = Ok (F64.zero, F64.zero).
Proof. vm_compute. reflexivity. Qed.

Example normalize_absent (float_of_string : string -> option float64) :
  _normalize_confidence float_of_string PNone = Ok (F64.zero, F64.zero).
Proof. vm_compute. reflexivity. Qed.

Example normalize_not_numeric (float_of_string : string -> option float64) :
  float_of_string "bad" = None ->
  _normalize_confidence float_of_string (PStr "bad") = Ok (F64.zero, F64.zero).
Proof. intros H. unfold _normalize_confidence, py_float. rewrite H. reflexivity. Qed.

Example normalize_beyond_hundred (float_of_string : string -> option float64) :
  _normalize_confidence float_of_string (PInt 250) = Ok (F64.one, F64.hundred).
Proof. vm_compute. reflexivity. Qed.

Example profile_tiers :
  level (_confidence_profile (F64.of_Z 81)) = "high"
  /\ level (_confidence_profile (F64.of_Z 50)) = "medium"
  /\ level (_confidence_profile (F64.div (F64.of_Z 49999) (F64.of_Z 1000))) = "low".
Proof. repeat split; vm_compute; reflexivity. Qed.

Example single_label_payload (float_of_string : string -> option float64)
        (py_repr : pyval -> string) :
  let payload := PDict [("label", PStr "Apple");
                        ("confidence", PFloat (F64.div (F64.of_Z 92) (F64.of_Z 100)))] in
  exists r,
    build_prediction_response float_of_string py_repr "2024-01-01T00:00:00+00:00" None
      payload "http://localhost:5050/v1/vision/custom/Fruits" "Fruits" = Ok r
    /\ pr_fruit r = "Apple"
    /\ pr_confidence r = F64.div (F64.of_Z 92) (F64.of_Z 100)
    /\ pr_confidence_percent r = F64.of_Z 92
    /\ pr_confidence_level r = "high".
Proof. eexists. split; [vm_compute; reflexivity|]. repeat split. Qed.

(** The remote call answers 404, the fallback is enabled and the model file
    is missing: the local failure is logged and the remote error is the
    response. *)
Example missing_model_surfaces_remote_error
        (float_of_string : string -> option float64)
        (int_of_string : string -> option Z) (py_repr : pyval -> string)
        (exp_finite : float32 -> float32) (np_sum : list float32 -> float32) :
  exists lg message exc_details,
    predict secure_filename_ascii float_of_string int_of_string py_repr
      exp_finite np_sum http_404 "2024-01-01T00:00:00+00:00" None
      no_model_world (sample_config true) (Some sample_file) []
    = (LogError "Local ONNX fallback failed: Local ONNX model file not found: Fruits.onnx"
         :: lg,
       Ok ({| success := false;
              fallback := None;
              warning := None;
              data := None;
              error := Some message;
              details := Some (PDict exc_details) |}, 404))
    /\ message = "DeepStack custom endpoint was not found.".
Proof. do 3 eexists. split; reflexivity. Qed.
